(** * The order / review collection engine of the admin front end

    A shallow embedding of the data transformations of
    [src/pages/Dashboard.jsx], [src/pages/Orders.jsx] and the review
    management page: filtering, sorting, date-range resolution, status
    summaries and chart bucketing, together with the part of the
    JavaScript platform they rest on (IEEE-754 numbers, [Date] arithmetic,
    [Array.prototype.sort], ordinary objects used as dictionaries, and
    arrays held by reference). *)

From Stdlib Require Import ZArith List Bool Ascii String Lia SpecFloat.
From Stdlib Require Import Sorting.Sorted Sorting.Permutation Structures.OrdersEx.
From stdpp Require Import base option list gmap strings pretty sorting.

Local Open Scope Z_scope.

(* ===================================================================== *)
(** * Part I: the JavaScript platform *)
(* ===================================================================== *)

Module JS.

(** ** Numbers: IEEE-754 binary64, as [spec_float] at precision 53 *)

Definition number := spec_float.
Definition prec : Z := 53.
Definition emax : Z := 1024.

Definition NaN : number := S754_nan.
Definition zero : number := S754_zero false.
Definition ofZ (z : Z) : number := binary_normalize prec emax z 0 false.
Definition ofNat (n : nat) : number := ofZ (Z.of_nat n).
Definition add : number -> number -> number := SFadd prec emax.
Definition mul : number -> number -> number := SFmul prec emax.
Definition div : number -> number -> number := SFdiv prec emax.

(** ToBoolean on a number: [0], [-0] and [NaN] are falsy. *)
Definition truthy (x : number) : bool :=
  match x with
  | S754_zero _ | S754_nan => false
  | _ => true
  end.

Definition isNaN (x : number) : bool :=
  match x with S754_nan => true | _ => false end.

(** [Math.round]: the integer closest to [x], ties towards +infinity;
    a result of zero keeps the sign of [x]. *)
Definition Math_round (x : number) : number :=
  match x with
  | S754_finite s m e =>
      if 0 <=? e then x
      else
        let v := if s then Z.neg m else Z.pos m in
        let r := (2 * v + 2 ^ (- e)) / 2 ^ (- e + 1) in
        if r =? 0 then S754_zero s else ofZ r
  | _ => x
  end.

(** [Number.prototype.toFixed(2)].  The result is a string; it is kept
    here in structured form.  [FxDec neg n] is the numeral of [n / 100]
    written with exactly two fraction digits, preceded by ["-"] when
    [neg]; [FxExp x] stands for [Number::toString x], which [toFixed]
    falls back to when [|x| >= 10^21]. *)
Inductive fixed2 : Type :=
  | FxNaN
  | FxInfinity (neg : bool)
  | FxDec (neg : bool) (n : Z)
  | FxExp (x : number).

(** The integer [n] for which [n / 100 - m * 2^e] is closest to zero,
    the larger one when there are two. *)
Definition hundredths (m : positive) (e : Z) : Z :=
  if 0 <=? e then 100 * Z.pos m * 2 ^ e
  else (200 * Z.pos m + 2 ^ (- e)) / 2 ^ (- e + 1).

Definition toFixed2 (x : number) : fixed2 :=
  match x with
  | S754_nan => FxNaN
  | S754_infinity s => FxInfinity s
  | S754_zero _ => FxDec false 0
  | S754_finite s m e =>
      if 0 <=? e
      then if 10 ^ 21 <=? Z.pos m * 2 ^ e then FxExp x
           else FxDec s (hundredths m e)
      else if 10 ^ 21 * 2 ^ (- e) <=? Z.pos m then FxExp x
           else FxDec s (hundredths m e)
  end.

(** The characters of a [toFixed2] result in decimal form. *)
Definition fixed2_to_string (f : fixed2) : option string :=
  match f with
  | FxNaN => Some "NaN"%string
  | FxInfinity false => Some "Infinity"%string
  | FxInfinity true => Some "-Infinity"%string
  | FxDec neg n =>
      let frac := n mod 100 in
      Some ((if neg then "-" else "") +:+ pretty (n / 100) +:+ "." +:+
            pretty (frac / 10) +:+ pretty (frac mod 10))%string
  | FxExp _ => None
  end.

(** ** [Array.prototype.sort]

    The sort is stable (ECMAScript 2019 and later) and driven by a
    comparison function returning a number whose sign orders the two
    arguments.  It is modelled by the stable insertion sort. *)
Section Sort.
Context {A : Type} (comparefn : A -> A -> Z).

Fixpoint insert (x : A) (l : list A) : list A :=
  match l with
  | [] => [x]
  | y :: l' => if comparefn x y <=? 0 then x :: l else y :: insert x l'
  end.

Definition sort (l : list A) : list A := foldr insert [] l.
End Sort.

(** ** Strings

    What is proved about strings below does not depend on the alphabet;
    the examples are ASCII.

    [String.prototype.toLowerCase] follows the case conversion of
    Unicode, which depends on the context of a letter (a capital sigma
    is lowered one way at the end of a word and another way inside it),
    so that lowering does not distribute over concatenation.  It is
    kept abstract: the pages rely on no more than that the empty string
    is lowered to itself. *)
Class CaseConversion : Type := {
  toLowerCase : string -> string;
  toLowerCase_empty : toLowerCase ""%string = ""%string
}.

(** On ASCII text the conversion lowers the letters [A] to [Z], each by
    itself. *)
Definition lower_ascii (c : ascii) : ascii :=
  let n := nat_of_ascii c in
  if ((65 <=? n)%nat && (n <=? 90)%nat)%bool then ascii_of_nat (n + 32) else c.

Fixpoint toLowerCaseASCII (s : string) : string :=
  match s with
  | EmptyString => EmptyString
  | String c s' => String (lower_ascii c) (toLowerCaseASCII s')
  end.

Definition asciiCaseConversion : CaseConversion :=
  {| toLowerCase := toLowerCaseASCII; toLowerCase_empty := eq_refl |}.

(** [s.includes(t)]: [t] occurs in [s] as a contiguous substring. *)
Fixpoint includes (s t : string) : bool :=
  String.prefix t s ||
  match s with
  | EmptyString => false
  | String _ s' => includes s' t
  end.

(** ToBoolean on a string: only the empty string is falsy. *)
Definition truthy_string (s : string) : bool :=
  match s with EmptyString => false | _ => true end.

(** ** [Date]: time values are integral milliseconds since the epoch

    Time values are taken in [Z] without the [TimeClip] bound of
    8.64e15 ms. *)

Definition msPerDay : Z := 86400000.

Definition Day (t : Z) : Z := t / msPerDay.
Definition TimeWithinDay (t : Z) : Z := t mod msPerDay.

Definition DayFromYear (y : Z) : Z :=
  365 * (y - 1970) + (y - 1969) / 4 - (y - 1901) / 100 + (y - 1601) / 400.

Definition isLeapYear (y : Z) : bool :=
  if negb (y mod 4 =? 0) then false
  else if negb (y mod 100 =? 0) then true
  else y mod 400 =? 0.

(** The largest [y] with [DayFromYear y <= d]: an estimate from the mean
    length of the Gregorian year, corrected by at most one year. *)
Definition YearFromDay (d : Z) : Z :=
  let y0 := 1970 + d * 400 / 146097 in
  if DayFromYear (y0 + 1) <=? d then y0 + 1
  else if DayFromYear y0 <=? d then y0
  else y0 - 1.

Definition YearFromTime (t : Z) : Z := YearFromDay (Day t).
Definition InLeapYear (t : Z) : Z := if isLeapYear (YearFromTime t) then 1 else 0.
Definition DayWithinYear (t : Z) : Z := Day t - DayFromYear (YearFromTime t).

(** First day-within-year of month [m] (0 = January). *)
Definition monthStart (leap : Z) (m : Z) : Z :=
  match m with
  | 0 => 0 | 1 => 31 | 2 => 59 + leap | 3 => 90 + leap
  | 4 => 120 + leap | 5 => 151 + leap | 6 => 181 + leap | 7 => 212 + leap
  | 8 => 243 + leap | 9 => 273 + leap | 10 => 304 + leap | _ => 334 + leap
  end.

Definition MonthFromTime (t : Z) : Z :=
  let d := DayWithinYear t in
  let leap := InLeapYear t in
  if d <? 31 then 0
  else if d <? 59 + leap then 1
  else if d <? 90 + leap then 2
  else if d <? 120 + leap then 3
  else if d <? 151 + leap then 4
  else if d <? 181 + leap then 5
  else if d <? 212 + leap then 6
  else if d <? 243 + leap then 7
  else if d <? 273 + leap then 8
  else if d <? 304 + leap then 9
  else if d <? 334 + leap then 10
  else 11.

Definition DateFromTime (t : Z) : Z :=
  DayWithinYear t - monthStart (InLeapYear t) (MonthFromTime t) + 1.

Definition WeekDay (t : Z) : Z := (Day t + 4) mod 7.

Definition MakeTime (h m s ms : Z) : Z :=
  h * 3600000 + m * 60000 + s * 1000 + ms.

Definition MakeDay (year month date : Z) : Z :=
  let ym := year + month / 12 in
  let mn := month mod 12 in
  DayFromYear ym + monthStart (if isLeapYear ym then 1 else 0) mn + date - 1.

Definition MakeDate (day time : Z) : Z := day * msPerDay + time.

(** The time zone of the platform.  The offset of local time from UTC
    depends on the instant (daylight saving): [offsetAt t] is the offset
    in force at the UTC time value [t], and [offsetOfLocal t] the offset
    by which the local time value [t] is read back into UTC, with the
    platform's choice where [t] is skipped or repeated by a
    transition. *)
Record TimeZone : Type := mkTimeZone {
  offsetAt : Z -> Z;
  offsetOfLocal : Z -> Z
}.

(** A zone without transitions: local time is UTC shifted by [tza]. *)
Definition fixedZone (tza : Z) : TimeZone :=
  {| offsetAt := fun _ => tza; offsetOfLocal := fun _ => tza |}.

Section LocalTime.
Variable tz : TimeZone.

Definition LocalTime (t : Z) : Z := t + offsetAt tz t.
Definition UTC (t : Z) : Z := t - offsetOfLocal tz t.

Definition getDate (t : Z) : Z := DateFromTime (LocalTime t).
Definition getMonth (t : Z) : Z := MonthFromTime (LocalTime t).
Definition getFullYear (t : Z) : Z := YearFromTime (LocalTime t).

Definition setDate (t dt : Z) : Z :=
  let lt := LocalTime t in
  UTC (MakeDate (MakeDay (YearFromTime lt) (MonthFromTime lt) dt)
                (TimeWithinDay lt)).

Definition setMonth (t m : Z) : Z :=
  let lt := LocalTime t in
  UTC (MakeDate (MakeDay (YearFromTime lt) m (DateFromTime lt))
                (TimeWithinDay lt)).

Definition setFullYear (t y : Z) : Z :=
  let lt := LocalTime t in
  UTC (MakeDate (MakeDay y (MonthFromTime lt) (DateFromTime lt))
                (TimeWithinDay lt)).

Definition setHours (t h m s ms : Z) : Z :=
  UTC (MakeDate (Day (LocalTime t)) (MakeTime h m s ms)).

(** [toLocaleDateString('en-US', options)] for the three option sets
    the dashboard uses. *)
Definition weekdayShort (w : Z) : string :=
  match w with
  | 0 => "Sun" | 1 => "Mon" | 2 => "Tue" | 3 => "Wed"
  | 4 => "Thu" | 5 => "Fri" | _ => "Sat"
  end.

Definition monthShort (m : Z) : string :=
  match m with
  | 0 => "Jan" | 1 => "Feb" | 2 => "Mar" | 3 => "Apr" | 4 => "May"
  | 5 => "Jun" | 6 => "Jul" | 7 => "Aug" | 8 => "Sep" | 9 => "Oct"
  | 10 => "Nov" | _ => "Dec"
  end.

Inductive dateFormat : Type :=
  | FmtWeekday      (* { weekday: 'short' } *)
  | FmtMonthDay     (* { month: 'short', day: 'numeric' } *)
  | FmtMonthYear.   (* { month: 'short', year: 'numeric' } *)

Definition toLocaleDateString (fmt : dateFormat) (t : Z) : string :=
  let lt := LocalTime t in
  match fmt with
  | FmtWeekday => weekdayShort (WeekDay lt)
  | FmtMonthDay => monthShort (MonthFromTime lt) +:+ " " +:+ pretty (DateFromTime lt)
  | FmtMonthYear => monthShort (MonthFromTime lt) +:+ " " +:+ pretty (YearFromTime lt)
  end.
End LocalTime.

(** A value of an [<input type="date">]: the empty string, or a calendar
    day written [YYYY-MM-DD], kept as its day number since the epoch.
    [new Date(s)] reads the latter as midnight UTC of that day. *)
Definition dateInput := option Z.

Definition parseDateInput (day : Z) : Z := day * msPerDay.

(** [d.toISOString().split('T')[0]]: the calendar day of [t] in UTC, as
    a date-input value. *)
Definition toISOStringDate (t : Z) : dateInput := Some (Day t).

(** ** Ordinary objects used as dictionaries

    Own properties are kept in creation order.  Enumeration
    ([Object.keys], [Object.values]) lists the array-index keys first,
    in ascending numeric order, and then the other string keys in
    creation order.  A dictionary made by [{}] inherits the members of
    [Object.prototype]: reading a key that is no own property finds the
    inherited member, if there is one of that name. *)

Definition digit (c : ascii) : option N :=
  let n := N_of_ascii c in
  if ((48 <=? n) && (n <=? 57))%N then Some (n - 48)%N else None.

Fixpoint digits (s : string) (acc : N) : option N :=
  match s with
  | EmptyString => Some acc
  | String c s' =>
      match digit c with
      | Some d => digits s' (10 * acc + d)%N
      | None => None
      end
  end.

(** The canonical numeric strings of the integers below [2^32 - 1]. *)
Definition arrayIndex (k : string) : option N :=
  match k with
  | EmptyString => None
  | String c s' =>
      if (Ascii.eqb c "0" && negb (String.eqb s' ""))%bool then None
      else match digits k 0 with
           | Some n => if (n <? 2 ^ 32 - 1)%N then Some n else None
           | None => None
           end
  end.

Definition isArrayIndex (k : string) : bool :=
  match arrayIndex k with Some _ => true | None => false end.

(** The member names of [Object.prototype] (ECMAScript, 20.1.3 and
    B.2.2), unextended. *)
Definition objectPrototypeKeys : list string :=
  ["constructor"; "hasOwnProperty"; "isPrototypeOf"; "propertyIsEnumerable";
   "toLocaleString"; "toString"; "valueOf"; "__proto__";
   "__defineGetter__"; "__defineSetter__"; "__lookupGetter__";
   "__lookupSetter__"]%string.

Definition inheritsFromObjectPrototype (k : string) : bool :=
  existsb (String.eqb k) objectPrototypeKeys.

Section Object.
Context {V : Type}.

Definition object : Type := list (string * V).

Fixpoint get (o : object) (k : string) : option V :=
  match o with
  | [] => None
  | (k', v) :: o' => if String.eqb k' k then Some v else get o' k
  end.

Fixpoint set (o : object) (k : string) (v : V) : object :=
  match o with
  | [] => [(k, v)]
  | (k', v') :: o' =>
      if String.eqb k' k then (k', v) :: o' else (k', v') :: set o' k v
  end.

Definition indexOf (p : string * V) : Z :=
  match arrayIndex (fst p) with Some n => Z.of_N n | None => 0 end.

Definition ownEntries (o : object) : list (string * V) :=
  sort (fun p q => indexOf p - indexOf q)
       (List.filter (fun p => isArrayIndex (fst p)) o)
  ++ List.filter (fun p => negb (isArrayIndex (fst p))) o.

Definition keys (o : object) : list string := map fst (ownEntries o).
Definition values (o : object) : list V := map snd (ownEntries o).

(** What [o[k]] finds: an own property, a member inherited from
    [Object.prototype] (a function; for [__proto__] the prototype
    itself), or nothing, which reads as [undefined]. *)
Inductive property : Type :=
  | Own (v : V)
  | Inherited
  | Undefined.

Definition getProperty (o : object) (k : string) : property :=
  match get o k with
  | Some v => Own v
  | None => if inheritsFromObjectPrototype k then Inherited else Undefined
  end.

(** [o[k] = v]: the own property [k] is updated or created; for
    [__proto__] the inherited setter runs instead, which ignores a value
    that is not an object. *)
Definition put (o : object) (k : string) (v : V) : object :=
  if String.eqb k "__proto__" then o else set o k v.
End Object.
Arguments object : clear implicits.
Arguments property : clear implicits.

(** ** Arrays held by reference

    An array value is a location of the store; two variables bound to
    the same location see each other's in-place updates. *)

Definition loc := positive.
Abbreviation heap A := (gmap loc (list A)).

Definition M (A X : Type) : Type := heap A -> X * heap A.

#[global] Instance M_ret {A} : MRet (M A) := fun X x h => (x, h).
#[global] Instance M_bind {A} : MBind (M A) :=
  fun X Y k m h => let '(x, h') := m h in k x h'.

Section Store.
Context {A : Type}.

(** A fresh array holding [l]: array literals, [filter], spread copies. *)
Definition alloc (l : list A) : M A loc :=
  fun h => let r := fresh (dom h) in (r, <[r := l]> h).

Definition read (r : loc) : M A (list A) :=
  fun h => (default [] (h !! r), h).

Definition write (r : loc) (l : list A) : M A unit :=
  fun h => (tt, <[r := l]> h).

(** [arr.sort(comparefn)] sorts [arr] in place and returns it. *)
Definition sortInPlace (comparefn : A -> A -> Z) (r : loc) : M A loc :=
  l ← read r; write r (sort comparefn l);; mret r.

(** [arr.filter(p)] leaves [arr] alone and returns a new array. *)
Definition filterNew (p : A -> bool) (r : loc) : M A loc :=
  l ← read r; alloc (List.filter p l).

(** [[...arr]] *)
Definition spread (r : loc) : M A loc := l ← read r; alloc l.
End Store.

(** A computation that may throw a [TypeError]. *)
Inductive result (X : Type) : Type :=
  | Ok (x : X)
  | TypeError.
Arguments Ok {X} x.
Arguments TypeError {X}.

(** [arr.filter(p)] when [p] may throw: the callback runs on the
    elements in order and the first exception aborts the call. *)
Fixpoint filterThrowing {A} (p : A -> result bool) (l : list A) : result (list A) :=
  match l with
  | [] => Ok []
  | x :: l' =>
      match p x with
      | TypeError => TypeError
      | Ok b =>
          match filterThrowing p l' with
          | TypeError => TypeError
          | Ok r => Ok (if b then x :: r else r)
          end
      end
  end.

End JS.

(* ===================================================================== *)
(** * Part II: the pages *)
(* ===================================================================== *)

(** An order, as far as the collection engine reads it.  [date] is the
    creation time in milliseconds since the epoch. *)
Record Order : Type := mkOrder {
  _id : string;
  date : Z;
  amount : JS.number;
  status : string
}.

Definition statusOptions : list string :=
  ["Order Placed"; "Packing"; "Shipped"; "Out for delivery"; "Delivered"]%string.

(** ** The dashboard page ([src/pages/Dashboard.jsx]) *)

Module Dashboard.
Import JS.

(** [avgOrderValue] is the number [0] or the string made by [toFixed]. *)
Inductive avgValue : Type :=
  | AvgNumber (x : number)
  | AvgString (s : fixed2).

Record Stats : Type := mkStats {
  totalOrders : nat;
  totalIncome : number;
  avgOrderValue : avgValue;
  pendingOrders : nat;
  deliveredOrders : nat
}.

(** The chart payload: bucket labels and the two data series. *)
Record ChartData : Type := mkChartData {
  labels : list string;
  orderCounts : list nat;
  incomeCounts : list number
}.

(** A counter of [countByStatus]: a count, or [NaN] once [++] has been
    applied to a value that is no number. *)
Inductive counter : Type :=
  | Count (n : nat)
  | CountNaN.

Definition increment (c : counter) : counter :=
  match c with
  | Count n => Count (S n)
  | CountNaN => CountNaN
  end.

Record StatusData : Type := mkStatusData {
  statusLabels : list string;
  statusCounts : list counter
}.

(** The component state.  [orders] is the Record Store: the array
    received from the order service, held by reference. *)
Record State : Type := mkState {
  orders : loc;
  dateRange : string;
  startDate : dateInput;
  endDate : dateInput;
  stats : Stats;
  chartData : option ChartData;
  statusData : option StatusData
}.

Definition initialStats : Stats :=
  {| totalOrders := 0; totalIncome := zero; avgOrderValue := AvgNumber zero;
     pendingOrders := 0; deliveredOrders := 0 |}.

Definition initialState : M Order State :=
  r ← alloc []; 
  mret {| orders := r; dateRange := "month"; startDate := None; endDate := None;
          stats := initialStats; chartData := None; statusData := None |}.

Definition setOrders (st : State) (r : loc) : State :=
  {| orders := r; dateRange := dateRange st; startDate := startDate st;
     endDate := endDate st; stats := stats st; chartData := chartData st;
     statusData := statusData st |}.

Definition setStats (st : State) (s : Stats) : State :=
  {| orders := orders st; dateRange := dateRange st; startDate := startDate st;
     endDate := endDate st; stats := s; chartData := chartData st;
     statusData := statusData st |}.

Definition setChartData (st : State) (c : ChartData) : State :=
  {| orders := orders st; dateRange := dateRange st; startDate := startDate st;
     endDate := endDate st; stats := stats st; chartData := Some c;
     statusData := statusData st |}.

Definition setStatusData (st : State) (d : StatusData) : State :=
  {| orders := orders st; dateRange := dateRange st; startDate := startDate st;
     endDate := endDate st; stats := stats st; chartData := chartData st;
     statusData := Some d |}.

Section Clock.
(** [tz]: the time zone of the platform; [now]: the value of
    [new Date()] when the function runs. *)
Variable tz : TimeZone.

Definition inRange (start end_ : Z) (order : Order) : bool :=
  (start <=? date order) && (date order <=? end_).

Definition filterOrdersByDateRange (now : Z) (st : State) (ordersData : loc)
  : M Order loc :=
  if String.eqb (dateRange st) "week" then
    filterNew (inRange (setDate tz now (getDate tz now - 7)) now) ordersData
  else if String.eqb (dateRange st) "month" then
    filterNew (inRange (setMonth tz now (getMonth tz now - 1)) now) ordersData
  else if String.eqb (dateRange st) "year" then
    filterNew (inRange (setFullYear tz now (getFullYear tz now - 1)) now) ordersData
  else if String.eqb (dateRange st) "custom" then
    match startDate st, endDate st with
    | Some s, Some e =>
        filterNew (inRange (setHours tz (parseDateInput s) 0 0 0 0)
                           (setHours tz (parseDateInput e) 23 59 59 999))
                  ordersData
    | _, _ => mret ordersData
    end
  else mret ordersData.

Definition chartDateFormat (st : State) : dateFormat :=
  if String.eqb (dateRange st) "week" then FmtWeekday
  else if String.eqb (dateRange st) "month" then FmtMonthDay
  else FmtMonthYear.

(** One round of the grouping loop over the two dictionaries.  The keys
    are date labels, none of which names a member of
    [Object.prototype], so that only own properties are found.  By the
    time the counters are read for the update their key exists, so the
    defaults are never used. *)
Definition groupStep (fmt : dateFormat)
    (acc : object nat * object number) (order : Order)
  : object nat * object number :=
  let '(ordersByDate, incomeByDate) := acc in
  let dateStr := toLocaleDateString tz fmt (date order) in
  let '(ordersByDate, incomeByDate) :=
    match get ordersByDate dateStr with
    | None | Some O => (set ordersByDate dateStr 0%nat, set incomeByDate dateStr zero)
    | Some _ => (ordersByDate, incomeByDate)
    end in
  (set ordersByDate dateStr (S (default 0%nat (get ordersByDate dateStr))),
   set incomeByDate dateStr
       (add (default NaN (get incomeByDate dateStr)) (amount order))).

(** The comparison function of the chart's sort. *)
Definition byDate (a b : Order) : Z := date a - date b.

Definition prepareChartData (st : State) (filteredOrders : loc)
  : M Order State :=
  sortInPlace byDate filteredOrders;;
  l ← read filteredOrders;
  let '(ordersByDate, incomeByDate) :=
    fold_left (groupStep (chartDateFormat st)) l ([], []) in
  mret (setChartData st
          {| labels := keys ordersByDate;
             orderCounts := values ordersByDate;
             incomeCounts := values incomeByDate |}).

(** The callback of the counting loop of [prepareStatusData].  The
    test [countByStatus[order.status] !== undefined] also succeeds for a
    status that names a member of [Object.prototype]; [++] then turns
    the member read into [NaN] and stores it under that name. *)
Definition countStep (countByStatus : object counter) (order : Order)
  : object counter :=
  match getProperty countByStatus (status order) with
  | Own c => put countByStatus (status order) (increment c)
  | Inherited => put countByStatus (status order) CountNaN
  | Undefined => countByStatus
  end.

Definition prepareStatusData (st : State) (filteredOrders : loc)
  : M Order State :=
  l ← read filteredOrders;
  let countByStatus :=
    fold_left countStep l
      (fold_left (fun o s => set o s (Count 0)) statusOptions []) in
  mret (setStatusData st
          {| statusLabels := statusOptions;
             statusCounts := values countByStatus |}).

Definition isDelivered (order : Order) : bool :=
  String.eqb (status order) "Delivered".

(** The statistics block of [processData]. *)
Definition computeStats (filteredOrders : list Order) : Stats :=
  let totalOrders := length filteredOrders in
  let totalIncome :=
    fold_left (fun sum order => add sum (amount order)) filteredOrders zero in
  let avgOrderValue :=
    match totalOrders with
    | O => AvgNumber zero
    | _ => AvgString (toFixed2 (div totalIncome (ofNat totalOrders)))
    end in
  {| totalOrders := totalOrders;
     totalIncome := totalIncome;
     avgOrderValue := avgOrderValue;
     pendingOrders := length (List.filter (fun o => negb (isDelivered o)) filteredOrders);
     deliveredOrders := length (List.filter isDelivered filteredOrders) |}.

Definition processData (now : Z) (st : State) (ordersData : loc)
  : M Order State :=
  data ← read ordersData;
  match data with
  | [] => mret st
  | _ =>
      filteredOrders ← filterOrdersByDateRange now st ordersData;
      l ← read filteredOrders;
      let st := setStats st (computeStats l) in
      st ← prepareChartData st filteredOrders;
      prepareStatusData st filteredOrders
  end.

(** The success branch of [fetchOrders]: the response array becomes the
    Record Store and is handed to [processData]. *)
Definition fetchOrders_success (now : Z) (st : State) (ordersData : loc)
  : M Order State :=
  processData now (setOrders st ordersData) ordersData.
End Clock.

(** The two percentage cards of the rendered page. *)
Definition percentOfTotal (part : nat) (s : Stats) : number :=
  match totalOrders s with
  | O => zero
  | _ => Math_round (mul (div (ofNat part) (ofNat (totalOrders s))) (ofZ 100))
  end.

Definition pendingPercent (s : Stats) : number := percentOfTotal (pendingOrders s) s.
Definition deliveredPercent (s : Stats) : number := percentOfTotal (deliveredOrders s) s.

Definition setDates (st : State) (range : string) (s e : dateInput) : State :=
  {| orders := orders st; dateRange := range; startDate := s; endDate := e;
     stats := stats st; chartData := chartData st; statusData := statusData st |}.

Section Handlers.
Variable tz : TimeZone.

(** [handleDateRangeChange]: a preset clears the custom dates; switching
    to the custom range with a date missing fills in the last 30 days. *)
Definition handleDateRangeChange (now : Z) (st : State) (range : string) : State :=
  if negb (String.eqb range "custom") then setDates st range None None
  else
    match startDate st, endDate st with
    | Some _, Some _ => setDates st range (startDate st) (endDate st)
    | _, _ =>
        let end_ := now in
        let start := setDate tz now (getDate tz end_ - 30) in
        setDates st range (toISOStringDate start) (toISOStringDate end_)
    end.

(** The effect on [dateRange]: it runs after a render in which
    [dateRange] differs from the one before, and re-processes a
    non-empty store. *)
Definition dateRangeEffect (now : Z) (before st : State) : M Order State :=
  if String.eqb (dateRange before) (dateRange st) then mret st
  else
    data ← read (orders st);
    match data with
    | [] => mret st
    | _ => processData tz now st (orders st)
    end.

(** A click on one of the range buttons: the handler, then the effect. *)
Definition clickDateRange (now now' : Z) (st : State) (range : string)
  : M Order State :=
  dateRangeEffect now' st (handleDateRangeChange now st range).

(** [applyCustomDateFilter]: processes only with both dates set (the
    other branch shows a warning and changes nothing). *)
Definition applyCustomDateFilter (now : Z) (st : State) : M Order State :=
  match startDate st, endDate st with
  | Some _, Some _ => processData tz now st (orders st)
  | _, _ => mret st
  end.
End Handlers.

(** The [onChange] handlers of the two date inputs. *)
Definition setStartDate (st : State) (d : dateInput) : State :=
  setDates st (dateRange st) d (endDate st).
Definition setEndDate (st : State) (d : dateInput) : State :=
  setDates st (dateRange st) (startDate st) d.

End Dashboard.

(** ** The order management page ([src/pages/Orders.jsx]) *)

Module Orders.
Import JS.

(** [allOrders] is the Record Store; [orders] is the published view. *)
Record State : Type := mkState {
  orders : loc;
  allOrders : loc;
  loading : bool;
  startDate : dateInput;
  endDate : dateInput;
  statusFilter : string;
  sortOrder : string
}.

Definition setOrders (st : State) (r : loc) : State :=
  {| orders := r; allOrders := allOrders st; loading := loading st;
     startDate := startDate st; endDate := endDate st;
     statusFilter := statusFilter st; sortOrder := sortOrder st |}.

Definition setSortOrder (st : State) (o : string) : State :=
  {| orders := orders st; allOrders := allOrders st; loading := loading st;
     startDate := startDate st; endDate := endDate st;
     statusFilter := statusFilter st; sortOrder := o |}.

(** The comparison function shared by every sort of the page. *)
Definition byDate (sortOrder : string) (a b : Order) : Z :=
  if String.eqb sortOrder "asc"
  then date a - date b
  else date b - date a.

Section Clock.
Variable tz : TimeZone.

Definition inRange (start end_ : Z) (order : Order) : bool :=
  (start <=? date order) && (date order <=? end_).

Definition applyFilters (st : State) : M Order State :=
  filteredOrders ← spread (allOrders st);
  filteredOrders ←
    match startDate st, endDate st with
    | Some s, Some e =>
        filterNew (inRange (setHours tz (parseDateInput s) 0 0 0 0)
                           (setHours tz (parseDateInput e) 23 59 59 999))
                  filteredOrders
    | _, _ => mret filteredOrders
    end;
  filteredOrders ←
    (if truthy_string (statusFilter st)
     then filterNew (fun order => String.eqb (status order) (statusFilter st))
                    filteredOrders
     else mret filteredOrders);
  sortInPlace (byDate (sortOrder st)) filteredOrders;;
  mret (setOrders st filteredOrders).
End Clock.

Definition toggleSortOrder (st : State) : M Order State :=
  let newSortOrder := if String.eqb (sortOrder st) "desc" then "asc" else "desc" in
  prevOrders ← spread (orders st);
  sortInPlace (byDate newSortOrder) prevOrders;;
  mret (setOrders (setSortOrder st newSortOrder) prevOrders).

(** One card of the status summary strip. *)
Record Card : Type := mkCard {
  cardStatus : string;
  cardCount : nat;
  cardPercent : number
}.

Definition statusCard (allOrders : list Order) (status_ : string) : Card :=
  let count :=
    length (List.filter (fun order => String.eqb (status order) status_) allOrders) in
  {| cardStatus := status_;
     cardCount := count;
     cardPercent :=
       Math_round (mul (div (ofNat count) (ofNat (length allOrders))) (ofZ 100)) |}.

(** The strip is rendered only when not loading and the store is not
    empty. *)
Definition statusSummary (st : State) : M Order (option (list Card)) :=
  all ← read (allOrders st);
  mret (if (negb (loading st) && (0 <? length all)%nat)%bool
        then Some (map (statusCard all) statusOptions)
        else None).

Definition setCriteria (st : State) (s e : dateInput) (f : string) : State :=
  {| orders := orders st; allOrders := allOrders st; loading := loading st;
     startDate := s; endDate := e; statusFilter := f; sortOrder := sortOrder st |}.

(** [fetchAllOrders], success branch: [response.data.orders.reverse()]
    reverses the response array in place, and that one array becomes
    both the store and the view. *)
Definition fetchAllOrders_success (st : State) (response : loc) : M Order State :=
  l ← read response;
  write response (rev l);;
  mret {| orders := response; allOrders := response; loading := false;
          startDate := startDate st; endDate := endDate st;
          statusFilter := statusFilter st; sortOrder := sortOrder st |}.

(** [resetFilters] *)
Definition resetFilters (st : State) : M Order State :=
  copy ← spread (allOrders st);
  sortInPlace (byDate (sortOrder st)) copy;;
  mret (setOrders (setCriteria st None None "") copy).

Section Handlers.
Variable tz : TimeZone.

(** The dates a quick filter resolves to: [None] for an unknown key. *)
Definition quickDateRange (now : Z) (filter : string) : option (Z * Z) :=
  let today := setHours tz now 0 0 0 0 in
  let startDateValue := today in
  let endDateValue := setHours tz today 23 59 59 999 in
  if String.eqb filter "today" then Some (startDateValue, endDateValue)
  else if String.eqb filter "yesterday" then
    Some (setDate tz startDateValue (getDate tz today - 1),
          setDate tz endDateValue (getDate tz today - 1))
  else if String.eqb filter "last7" then
    Some (setDate tz startDateValue (getDate tz today - 6), endDateValue)
  else if String.eqb filter "last30" then
    Some (setDate tz startDateValue (getDate tz today - 29), endDateValue)
  else if String.eqb filter "thisMonth" then
    Some (setDate tz startDateValue 1, endDateValue)
  else None.

(** [handleQuickDateFilter]: the two date inputs are set, and the timer
    callback then runs the [applyFilters] of the render the handler
    belongs to, which still reads the criteria [st] of that render. *)
Definition handleQuickDateFilter (now : Z) (st : State) (filter : string)
  : M Order State :=
  match quickDateRange now filter with
  | None => mret st
  | Some (startDateValue, endDateValue) =>
      st' ← applyFilters tz st;
      mret (setCriteria st' (toISOStringDate startDateValue)
                        (toISOStringDate endDateValue) (statusFilter st))
  end.

(** A click on a status card ([status_ = ""] for the "All Orders" card):
    [setStatusFilter(status); applyFilters()], the latter again reading
    the criteria of the current render. *)
Definition clickStatusCard (st : State) (status_ : string) : M Order State :=
  st' ← applyFilters tz st;
  mret (setCriteria st' (startDate st) (endDate st) status_).

(** The effect on [sortOrder]: re-applies the filters to a non-empty
    store. *)
Definition sortOrderEffect (st : State) : M Order State :=
  all ← read (allOrders st);
  match all with
  | [] => mret st
  | _ => applyFilters tz st
  end.
End Handlers.

End Orders.

(** ** The review management page *)

Module Reviews.
Import JS.

Record User : Type := mkUser { user_name : option string; user_email : option string }.
Record Product : Type := mkProduct { product_name : option string }.

(** A review.  [user] and [product] are references the service may
    leave empty; [comment] is an option so that a review without the
    property can be written down. *)
Record Review : Type := mkReview {
  _id : string;
  date : Z;
  rating : Z;
  comment : option string;
  user : option User;
  product : option Product
}.

(** [review.user?.name] and [review.product?.name] *)
Definition userName (r : Review) : option string := u ← user r; user_name u.
Definition productName (r : Review) : option string := p ← product r; product_name p.

Section Search.
Context `{CaseConversion}.

(** [name && name.toLowerCase().includes(searchLower)], as a boolean *)
Definition nameMatches (name : option string) (searchLower : string) : bool :=
  match name with
  | Some n => truthy_string n && includes (toLowerCase n) searchLower
  | None => false
  end.

(** The callback of [reviews.filter]. *)
Definition matchesSearch (searchTerm : string) (review : Review) : result bool :=
  let searchLower := toLowerCase searchTerm in
  if nameMatches (userName review) searchLower then Ok true
  else if nameMatches (productName review) searchLower then Ok true
  else match comment review with
       | Some c => Ok (includes (toLowerCase c) searchLower)
       | None => TypeError
       end.

Definition filteredReviews (searchTerm : string) (reviews : list Review)
  : result (list Review) :=
  filterThrowing (matchesSearch searchTerm) reviews.
End Search.

(** [String.prototype.localeCompare]: a locale-sensitive collation,
    known only as a consistent comparison function. *)
Class Collator : Type := {
  localeCompare : string -> string -> Z;
  localeCompare_antisym : forall a b, Z.sgn (localeCompare a b) = - Z.sgn (localeCompare b a);
  localeCompare_trans : forall a b c,
    localeCompare a b <= 0 -> localeCompare b c <= 0 -> localeCompare a c <= 0
}.

Section Sorting.
Context `{CaseConversion} `{Collator}.

(** [(name || '').toLowerCase()] *)
Definition nameKey (name : option string) : string :=
  toLowerCase (default ""%string name).

(** The comparison function of [sortedReviews]. *)
Definition compareReviews (sortBy sortOrder : string) (a b : Review) : Z :=
  if String.eqb sortBy "date" then
    if String.eqb sortOrder "asc"
    then date a - date b
    else date b - date a
  else if String.eqb sortBy "rating" then
    if String.eqb sortOrder "asc" then rating a - rating b else rating b - rating a
  else if String.eqb sortBy "productName" then
    let nameA := nameKey (productName a) in
    let nameB := nameKey (productName b) in
    if String.eqb sortOrder "asc"
    then localeCompare nameA nameB else localeCompare nameB nameA
  else if String.eqb sortBy "userName" then
    let nameA := nameKey (userName a) in
    let nameB := nameKey (userName b) in
    if String.eqb sortOrder "asc"
    then localeCompare nameA nameB else localeCompare nameB nameA
  else 0.

(** [[...filteredReviews].sort(...)]: the copy is sorted, as a value. *)
Definition sortedReviews (sortBy sortOrder : string) (filteredReviews : list Review)
  : list Review :=
  sort (compareReviews sortBy sortOrder) filteredReviews.
End Sorting.

(** [handleDelete], success branch: the review is dropped from the list. *)
Definition handleDelete_success (reviews : list Review) (reviewId : string)
  : list Review :=
  List.filter (fun review => negb (String.eqb (_id review) reviewId)) reviews.

(** [handleSort] on the pair [(sortBy, sortOrder)]. *)
Definition handleSort (sortBy sortOrder field : string) : string * string :=
  if String.eqb sortBy field
  then (sortBy, if String.eqb sortOrder "asc" then "desc" else "asc")
  else (field, "asc").

End Reviews.

(* ===================================================================== *)
(** * Part III: properties *)
(* ===================================================================== *)

(** ** The sort *)

(** A comparison function is consistent when its sign is antisymmetric
    and "not after" is transitive: what ECMAScript asks of a
    [comparefn] for the result of [sort] to be defined. *)
Class Consistent {A : Type} (cmp : A -> A -> Z) : Prop := {
  cmp_antisym : forall a b, Z.sgn (cmp a b) = - Z.sgn (cmp b a);
  cmp_trans : forall a b c, cmp a b <= 0 -> cmp b c <= 0 -> cmp a c <= 0
}.

Lemma elem_of_List_filter {A} (p : A -> bool) (l : list A) x :
  x ∈ List.filter p l <-> p x = true /\ x ∈ l.
Proof. rewrite !list_elem_of_In, filter_In. tauto. Qed.

Section SortFacts.
Context {A : Type} (cmp : A -> A -> Z).

Definition notAfter (a b : A) : Prop := cmp a b <= 0.

Lemma insert_Permutation x l : JS.insert cmp x l ≡ₚ x :: l.
Proof.
  induction l as [|y l IH]; simpl; [done|].
  destruct (cmp x y <=? 0); [done|].
  rewrite IH. apply Permutation_swap.
Qed.

Lemma sort_Permutation l : JS.sort cmp l ≡ₚ l.
Proof.
  induction l as [|x l IH]; simpl; [done|].
  rewrite insert_Permutation. by constructor.
Qed.


Lemma elem_of_sort x l : x ∈ JS.sort cmp l <-> x ∈ l.
Proof. by rewrite sort_Permutation. Qed.

Context `{!Consistent cmp}.

Lemma cmp_gt_flip a b : 0 < cmp a b -> cmp b a <= 0.
Proof. intros Hab. pose proof (cmp_antisym a b). lia. Qed.

Lemma cmp_tie_sym a b : cmp a b = 0 -> cmp b a = 0.
Proof. intros Hab. pose proof (cmp_antisym a b). lia. Qed.

Lemma cmp_tie_trans a b c : cmp a b = 0 -> cmp b c = 0 -> cmp a c = 0.
Proof.
  intros Hab Hbc.
  pose proof (cmp_tie_sym _ _ Hab). pose proof (cmp_tie_sym _ _ Hbc).
  assert (cmp a c <= 0) by (apply cmp_trans with b; lia).
  assert (cmp c a <= 0) by (apply cmp_trans with b; lia).
  pose proof (cmp_antisym a c). lia.
Qed.

#[local] Instance notAfter_trans : Transitive notAfter.
Proof. intros a b c. apply cmp_trans. Qed.

Lemma HdRel_insert x y l :
  notAfter y x -> HdRel notAfter y l -> HdRel notAfter y (JS.insert cmp x l).
Proof.
  intros Hyx Hl. destruct l as [|z l]; simpl; [by constructor|].
  destruct (cmp x z <=? 0); constructor; [done|by inversion Hl].
Qed.

Lemma Sorted_insert x l :
  Sorted notAfter l -> Sorted notAfter (JS.insert cmp x l).
Proof.
  induction 1 as [|y l Hl IH Hhd]; simpl; [by repeat constructor|].
  destruct (cmp x y <=? 0) eqn:Hxy.
  - constructor; [by constructor|]. constructor. unfold notAfter. lia.
  - constructor; [done|]. apply HdRel_insert; [|done].
    apply cmp_gt_flip. lia.
Qed.

Lemma Sorted_sort l : Sorted notAfter (JS.sort cmp l).
Proof. induction l; simpl; [constructor|by apply Sorted_insert]. Qed.

(** Stability: the records tying with [r] come out in the order they
    went in. *)
Definition ties (r x : A) : bool := cmp r x =? 0.

Lemma filter_ties_insert r x l :
  List.filter (ties r) (JS.insert cmp x l) = List.filter (ties r) (x :: l).
Proof.
  induction l as [|y l IH]; [done|].
  cbn [JS.insert]. destruct (cmp x y <=? 0) eqn:Hxy; [done|].
  cbn [List.filter] in *. rewrite IH.
  unfold ties. destruct (cmp r x =? 0) eqn:Hx, (cmp r y =? 0) eqn:Hy; try done.
  assert (cmp x y = 0); [|lia].
  apply cmp_tie_trans with r; [apply cmp_tie_sym|]; lia.
Qed.

Lemma sort_stable r l :
  List.filter (ties r) (JS.sort cmp l) = List.filter (ties r) l.
Proof.
  induction l as [|x l IH]; [done|].
  cbn [JS.sort foldr]. rewrite filter_ties_insert.
  cbn [List.filter]. fold (JS.sort cmp l). by rewrite IH.
Qed.

(** When no two entries tie, the sorted order does not depend on the
    order of the input. *)
Definition tieFree (l : list A) : Prop :=
  forall i j x y, l !! i = Some x -> l !! j = Some y -> i <> j -> cmp x y <> 0.

Lemma sort_unique l1 l2 :
  tieFree l1 -> l1 ≡ₚ l2 -> JS.sort cmp l1 = JS.sort cmp l2.
Proof.
  intros Hfree Hperm.
  assert (NoDup l1) as Hnd.
  { apply NoDup_alt. intros i j x Hi Hj.
    destruct (decide (i = j)) as [|Hne]; [done|].
    destruct (Hfree i j x x Hi Hj Hne).
    pose proof (cmp_antisym x x). lia. }
  apply (Sorted_unique_strong notAfter); [|apply Sorted_sort..|].
  - intros x y Hx Hy Hxy Hyx. rewrite elem_of_sort in Hx, Hy.
    rewrite <- Hperm in Hy.
    apply list_elem_of_lookup in Hx as [i Hi], Hy as [j Hj].
    destruct (decide (i = j)) as [->|Hne]; [congruence|].
    destruct (Hfree i j x y Hi Hj Hne).
    unfold notAfter in *. pose proof (cmp_antisym x y). lia.
  - by rewrite !sort_Permutation.
Qed.
(** A sorted sequence is determined by its tie classes: any stable sort
    returns what [JS.sort] returns. *)
Lemma cmp_refl a : cmp a a = 0.
Proof. pose proof (cmp_antisym a a). lia. Qed.

Lemma ties_refl a : ties a a = true.
Proof. unfold ties. by rewrite cmp_refl. Qed.

Lemma stable_sorted_unique l1 l2 :
  Sorted notAfter l1 -> Sorted notAfter l2 ->
  (forall r, List.filter (ties r) l1 = List.filter (ties r) l2) ->
  l1 = l2.
Proof.
  intros H1 H2. apply Sorted_StronglySorted in H1, H2; [|apply _..].
  revert l2 H2. induction H1 as [|a l1 _ IH Ha]; intros l2 H2 Hties.
  - destruct l2 as [|b l2]; [done|]. specialize (Hties b).
    cbn [List.filter] in Hties. by rewrite ties_refl in Hties.
  - destruct H2 as [|b l2 H2 Hb].
    { specialize (Hties a). cbn [List.filter] in Hties.
      by rewrite ties_refl in Hties. }
    assert (a = b) as <-.
    { assert (b ∈ a :: l1) as Hin1.
      { apply (elem_of_List_filter (ties b)). rewrite (Hties b).
        cbn [List.filter]. rewrite ties_refl. left. }
      assert (a ∈ b :: l2) as Hin2.
      { apply (elem_of_List_filter (ties a)). rewrite <- (Hties a).
        cbn [List.filter]. rewrite ties_refl. left. }
      apply elem_of_cons in Hin1 as [->|Hin1]; [done|].
      apply elem_of_cons in Hin2 as [->|Hin2]; [done|].
      rewrite Forall_forall in Ha, Hb.
      pose proof (Ha _ Hin1) as Hab. pose proof (Hb _ Hin2) as Hba.
      unfold notAfter in Hab, Hba.
      assert (ties a b = true) as Htie.
      { unfold ties. pose proof (cmp_antisym a b). apply Z.eqb_eq. lia. }
      specialize (Hties a). cbn [List.filter] in Hties.
      rewrite ties_refl, Htie in Hties. congruence. }
    f_equal. apply IH; [done|]. intros r. specialize (Hties r).
    cbn [List.filter] in Hties. destruct (ties r a); congruence.
Qed.

Lemma sort_characterised l s :
  Sorted notAfter s ->
  (forall r, List.filter (ties r) s = List.filter (ties r) l) ->
  s = JS.sort cmp l.
Proof.
  intros Hs Hties. apply stable_sorted_unique; [done|apply Sorted_sort|].
  intros r. by rewrite Hties, sort_stable.
Qed.
End SortFacts.

(** "All keys are distinct": no entry ties with a later one. *)
Fixpoint distinctKeys {A : Type} (cmp : A -> A -> Z) (l : list A) : Prop :=
  match l with
  | [] => True
  | x :: l' => Forall (fun y => cmp x y <> 0) l' /\ distinctKeys cmp l'
  end.

Lemma distinctKeys_tieFree {A} (cmp : A -> A -> Z) `{!Consistent cmp} l :
  distinctKeys cmp l -> tieFree cmp l.
Proof.
  induction l as [|x l IH]; intros Hd i j a b Hi Hj Hne; [done|].
  destruct Hd as [Hx Hl]. rewrite Forall_forall in Hx.
  destruct i as [|i], j as [|j]; simplify_eq/=.
  - apply Hx. by eapply list_elem_of_lookup_2.
  - intros Hba. apply (Hx a); [by eapply list_elem_of_lookup_2|].
    by apply cmp_tie_sym.
  - apply (IH Hl i j); [done..|congruence].
Qed.

Lemma distinctKeys_by_key {A} (key : A -> Z) (l : list A) :
  NoDup (map key l) -> distinctKeys (fun a b => key a - key b) l.
Proof.
  induction l as [|x l IH]; [done|].
  rewrite fmap_cons, NoDup_cons. intros [Hx Hl]. split; [|by apply IH].
  apply Forall_forall. intros y Hy Heq. apply Hx.
  replace (key x) with (key y) by lia. by apply list_elem_of_fmap_2.
Qed.

(** Consistency of the comparison functions of the pages. *)
Lemma Consistent_by_key {A} (key : A -> Z) : Consistent (fun a b => key a - key b).
Proof. split; intros; lia. Qed.

Lemma Consistent_flip {A} (cmp : A -> A -> Z) :
  Consistent cmp -> Consistent (fun a b => cmp b a).
Proof.
  intros [Ha Ht]. split; [intros; apply Ha|].
  intros a b c Hab Hbc. by apply Ht with b.
Qed.

#[export] Instance Orders_byDate_Consistent sortOrder :
  Consistent (Orders.byDate sortOrder).
Proof. unfold Orders.byDate. split; intros; destruct (String.eqb _ _); lia. Qed.

#[export] Instance Dashboard_byDate_Consistent : Consistent Dashboard.byDate.
Proof. apply Consistent_by_key. Qed.

#[export] Instance compareReviews_Consistent
    `{JS.CaseConversion} `{Reviews.Collator} sortBy sortOrder :
  Consistent (Reviews.compareReviews sortBy sortOrder).
Proof.
  unfold Reviews.compareReviews.
  split; [intros a b|intros a b c]; cbv zeta;
    repeat (destruct (String.eqb _ _)); try lia;
    first [ apply Reviews.localeCompare_antisym
          | intros; eauto using Reviews.localeCompare_trans ].
Qed.

(** A collation to run the model with: the order of the code units. *)
Definition codeUnitCompare (a b : string) : Z :=
  match OrdersEx.String_as_OT.compare a b with
  | Lt => -1
  | Eq => 0
  | Gt => 1
  end.

(** Closes a goal whose hypotheses order some strings in a cycle. *)
Ltac string_lt_cycle :=
  exfalso;
  repeat match goal with
         | H : OrdersEx.String_as_OT.eq _ _ |- _ => red in H
         end;
  subst;
  first [ by eapply (irreflexivity OrdersEx.String_as_OT.lt)
        | eapply (irreflexivity OrdersEx.String_as_OT.lt); by etransitivity
        | eapply (irreflexivity OrdersEx.String_as_OT.lt);
          etransitivity; [eassumption|]; by etransitivity ].

Lemma codeUnitCompare_antisym a b :
  Z.sgn (codeUnitCompare a b) = - Z.sgn (codeUnitCompare b a).
Proof.
  unfold codeUnitCompare.
  destruct (OrdersEx.String_as_OT.compare_spec a b),
           (OrdersEx.String_as_OT.compare_spec b a);
    try done; string_lt_cycle.
Qed.

Lemma codeUnitCompare_trans a b c :
  codeUnitCompare a b <= 0 -> codeUnitCompare b c <= 0 -> codeUnitCompare a c <= 0.
Proof.
  unfold codeUnitCompare.
  destruct (OrdersEx.String_as_OT.compare_spec a b),
           (OrdersEx.String_as_OT.compare_spec b c),
           (OrdersEx.String_as_OT.compare_spec a c);
    try lia; intros _ _; string_lt_cycle.
Qed.

Definition codeUnitCollator : Reviews.Collator :=
  {| Reviews.localeCompare := codeUnitCompare;
     Reviews.localeCompare_antisym := codeUnitCompare_antisym;
     Reviews.localeCompare_trans := codeUnitCompare_trans |}.

(** ** Sorting: stability and reversal of direction *)

(** C8.  Every sort of the review page, for each key ([date], [rating],
    [productName], [userName]) and each direction, is stable: the
    records that tie with any given record [r] under the key leave the
    sort in the order in which they entered it.  When no two records
    tie under the key, sorting descending and then ascending gives the
    same sequence as sorting ascending at once.  Both hold as well for
    the date sort of the order page.  The collation behind
    [localeCompare] is any consistent comparison function. *)
Theorem C8_sort_stable_and_reversal_exact `{JS.CaseConversion} `{Reviews.Collator}
    (sortBy : string) (xs : list Reviews.Review) (os : list Order) :
  (forall sortOrder r,
      List.filter (ties (Reviews.compareReviews sortBy sortOrder) r)
                  (Reviews.sortedReviews sortBy sortOrder xs)
      = List.filter (ties (Reviews.compareReviews sortBy sortOrder) r) xs)
  /\ (distinctKeys (Reviews.compareReviews sortBy "asc") xs ->
      Reviews.sortedReviews sortBy "asc" (Reviews.sortedReviews sortBy "desc" xs)
      = Reviews.sortedReviews sortBy "asc" xs)
  /\ (forall sortOrder o,
      List.filter (ties (Orders.byDate sortOrder) o) (JS.sort (Orders.byDate sortOrder) os)
      = List.filter (ties (Orders.byDate sortOrder) o) os)
  /\ (NoDup (map date os) ->
      JS.sort (Orders.byDate "asc") (JS.sort (Orders.byDate "desc") os)
      = JS.sort (Orders.byDate "asc") os).
Proof.
  repeat split.
  - intros sortOrder r. apply sort_stable, _.
  - intros Hd. unfold Reviews.sortedReviews. symmetry.
    apply sort_unique; [apply _| |by rewrite sort_Permutation].
    apply distinctKeys_tieFree; [apply _|done].
  - intros sortOrder o. apply sort_stable, _.
  - intros Hd. symmetry.
    apply sort_unique; [apply _| |by rewrite sort_Permutation].
    apply distinctKeys_tieFree; [apply _|].
    by apply (distinctKeys_by_key date).
Qed.

Definition review_rated (id : string) (stars : Z) : Reviews.Review :=
  Reviews.mkReview id 0 stars (Some "fine"%string) None None.

(** Two reviews rated 5 and 2, shown by rating descending and then
    toggled to ascending: 2 comes first. *)
Lemma C8_witness :
  @Reviews.sortedReviews JS.asciiCaseConversion codeUnitCollator "rating" "asc"
    (@Reviews.sortedReviews JS.asciiCaseConversion codeUnitCollator "rating" "desc"
       [review_rated "a" 5; review_rated "b" 2])
  = [review_rated "b" 2; review_rated "a" 5].
Proof.
  rewrite (proj1 (proj2 (@C8_sort_stable_and_reversal_exact
                           JS.asciiCaseConversion codeUnitCollator
                           "rating" [review_rated "a" 5; review_rated "b" 2] []))).
  - reflexivity.
  - split; [|by repeat constructor].
    repeat constructor. by vm_compute.
Defined.

(** ** The store *)

Section StoreFacts.
Context {A : Type}.
Implicit Types (h : JS.heap A) (r : JS.loc) (l : list A).

Lemma read_eq r h : JS.read r h = (default [] (h !! r), h).
Proof. reflexivity. Qed.

Lemma alloc_eq l h : JS.alloc l h = (fresh (dom h), <[fresh (dom h) := l]> h).
Proof. reflexivity. Qed.

Lemma filterNew_eq p r h :
  JS.filterNew p r h
  = (fresh (dom h), <[fresh (dom h) := List.filter p (default [] (h !! r))]> h).
Proof. reflexivity. Qed.

Lemma spread_eq r h :
  JS.spread r h = (fresh (dom h), <[fresh (dom h) := default [] (h !! r)]> h).
Proof. reflexivity. Qed.

Lemma sortInPlace_eq cmp r h :
  JS.sortInPlace cmp r h = (r, <[r := JS.sort cmp (default [] (h !! r))]> h).
Proof. reflexivity. Qed.

Lemma bind_eq {X Y} (m : JS.M A X) (k : X -> JS.M A Y) h :
  (m ≫= k) h = k (m h).1 (m h).2.
Proof. unfold mbind, JS.M_bind. by destruct (m h). Qed.

Lemma ret_eq {X} (x : X) h : (mret x : JS.M A X) h = (x, h).
Proof. reflexivity. Qed.

Lemma fresh_lookup h : h !! fresh (dom h) = None.
Proof. apply not_elem_of_dom, is_fresh. Qed.

(** Allocation leaves every array that exists where it is. *)
Lemma lookup_insert_fresh h r l :
  is_Some (h !! r) -> <[fresh (dom h) := l]> h !! r = h !! r.
Proof.
  intros Hr. apply lookup_insert_ne. intros <-.
  rewrite fresh_lookup in Hr. by destruct Hr.
Qed.

(** [h'] keeps the arrays of [h] as they are. *)
Definition keeps h h' : Prop :=
  forall r, is_Some (h !! r) -> h' !! r = h !! r.

Lemma keeps_refl h : keeps h h.
Proof. by intros r _. Qed.

Lemma keeps_alloc h h' l :
  keeps h h' -> keeps h (<[fresh (dom h') := l]> h').
Proof.
  intros Hk r Hr. rewrite lookup_insert_fresh; [by apply Hk|].
  by rewrite Hk.
Qed.

(** Overwriting an array that did not exist in [h]. *)
Lemma keeps_write_new h h' r l :
  keeps h h' -> h !! r = None -> keeps h (<[r := l]> h').
Proof.
  intros Hk Hnew r' Hr'. rewrite lookup_insert_ne; [by apply Hk|].
  intros ->. rewrite Hnew in Hr'. by destruct Hr'.
Qed.

Lemma keeps_fresh_None h h' :
  keeps h h' -> h !! fresh (dom h') = None.
Proof.
  intros Hk. destruct (h !! fresh (dom h')) eqn:E; [|done].
  assert (h' !! fresh (dom h') = Some l) as Hl by (rewrite Hk; eauto).
  by rewrite fresh_lookup in Hl.
Qed.
End StoreFacts.

(** Unfolds a store computation down to lookups and insertions. *)
Ltac store_step :=
  repeat first
    [ rewrite bind_eq | rewrite ret_eq | rewrite read_eq | rewrite alloc_eq
    | rewrite filterNew_eq | rewrite spread_eq | rewrite sortInPlace_eq
    | progress cbn [fst snd] ].

Ltac heap_simpl :=
  repeat first
    [ rewrite lookup_insert_eq
    | rewrite lookup_insert_fresh by (heap_simpl; eauto)
    | progress cbn [default from_option id] ].

Ltac keeps_solve :=
  repeat first
    [ apply keeps_refl
    | apply keeps_alloc
    | apply keeps_write_new; [|apply keeps_fresh_None] ].

(** ** The order page: what [applyFilters] publishes *)

(** The date axis and the status axis of the filter, on values. *)
Definition dateAxis (tz : JS.TimeZone) (st : Orders.State) (l : list Order) : list Order :=
  match Orders.startDate st, Orders.endDate st with
  | Some s, Some e =>
      List.filter (Orders.inRange (JS.setHours tz (JS.parseDateInput s) 0 0 0 0)
                                  (JS.setHours tz (JS.parseDateInput e) 23 59 59 999)) l
  | _, _ => l
  end.

Definition statusAxis (st : Orders.State) (l : list Order) : list Order :=
  if JS.truthy_string (Orders.statusFilter st)
  then List.filter (fun o => String.eqb (status o) (Orders.statusFilter st)) l
  else l.

Lemma applyFilters_spec tz st (h : JS.heap Order) all :
  h !! Orders.allOrders st = Some all ->
  exists r h',
    Orders.applyFilters tz st h = (Orders.setOrders st r, h')
    /\ h' !! r = Some (JS.sort (Orders.byDate (Orders.sortOrder st))
                               (statusAxis st (dateAxis tz st all)))
    /\ keeps h h'.
Proof.
  intros Hall. unfold Orders.applyFilters, statusAxis, dateAxis.
  destruct (Orders.startDate st) as [s|], (Orders.endDate st) as [e|],
           (JS.truthy_string (Orders.statusFilter st));
    store_step; (eexists _, _; split; [reflexivity|]);
    rewrite Hall; heap_simpl; (split; [reflexivity|]); keeps_solve.
Qed.

(** The order page never writes to an array it was given. *)
Lemma Orders_applyFilters_keeps_store tz st (h : JS.heap Order) :
  keeps h (Orders.applyFilters tz st h).2.
Proof.
  unfold Orders.applyFilters.
  destruct (Orders.startDate st) as [s|], (Orders.endDate st) as [e|],
           (JS.truthy_string (Orders.statusFilter st));
    store_step; keeps_solve.
Qed.

Lemma Orders_toggleSortOrder_keeps_store st (h : JS.heap Order) :
  keeps h (Orders.toggleSortOrder st h).2.
Proof. unfold Orders.toggleSortOrder. store_step. keeps_solve. Qed.

(** ** The dashboard: the date-range filter *)

(** The interval the filter resolves to; [None] when it is inactive. *)
Definition activeRange (tz : JS.TimeZone) (now : Z) (st : Dashboard.State) : option (Z * Z) :=
  if String.eqb (Dashboard.dateRange st) "week" then
    Some (JS.setDate tz now (JS.getDate tz now - 7), now)
  else if String.eqb (Dashboard.dateRange st) "month" then
    Some (JS.setMonth tz now (JS.getMonth tz now - 1), now)
  else if String.eqb (Dashboard.dateRange st) "year" then
    Some (JS.setFullYear tz now (JS.getFullYear tz now - 1), now)
  else if String.eqb (Dashboard.dateRange st) "custom" then
    match Dashboard.startDate st, Dashboard.endDate st with
    | Some s, Some e =>
        Some (JS.setHours tz (JS.parseDateInput s) 0 0 0 0,
              JS.setHours tz (JS.parseDateInput e) 23 59 59 999)
    | _, _ => None
    end
  else None.

Lemma filterOrdersByDateRange_spec tz now st ordersData (h : JS.heap Order) :
  Dashboard.filterOrdersByDateRange tz now st ordersData h
  = match activeRange tz now st with
    | Some (start, end_) =>
        (fresh (dom h),
         <[fresh (dom h) := List.filter (Dashboard.inRange start end_)
                                        (default [] (h !! ordersData))]> h)
    | None => (ordersData, h)
    end.
Proof.
  unfold Dashboard.filterOrdersByDateRange, activeRange.
  repeat destruct (String.eqb _ _); try reflexivity.
  by destruct (Dashboard.startDate st), (Dashboard.endDate st).
Qed.

Lemma prepareChartData_store tz st r (h : JS.heap Order) :
  (Dashboard.prepareChartData tz st r h).2
  = <[r := JS.sort Dashboard.byDate (default [] (h !! r))]> h.
Proof.
  unfold Dashboard.prepareChartData. store_step.
  by destruct (fold_left _ _ _).
Qed.

Lemma prepareStatusData_store st r (h : JS.heap Order) :
  (Dashboard.prepareStatusData st r h).2 = h.
Proof. reflexivity. Qed.

(** With an active range the dashboard works on a fresh array and the
    store is kept; with an inactive one the chart preparation sorts the
    array it was handed, which is the store itself. *)
Lemma processData_store tz now st r (h : JS.heap Order) l :
  h !! r = Some l -> l <> [] ->
  (Dashboard.processData tz now st r h).2
  = match activeRange tz now st with
    | Some (start, end_) =>
        <[fresh (dom h) :=
            JS.sort Dashboard.byDate (List.filter (Dashboard.inRange start end_) l)]> h
    | None => <[r := JS.sort Dashboard.byDate l]> h
    end.
Proof.
  intros Hr Hne. unfold Dashboard.processData.
  rewrite bind_eq, read_eq, Hr. cbn [fst snd default from_option id].
  destruct l as [|o l]; [done|].
  rewrite bind_eq, filterOrdersByDateRange_spec.
  destruct (activeRange tz now st) as [[start end_]|]; cbn [fst snd];
    rewrite bind_eq, read_eq; cbn [fst snd];
    rewrite bind_eq, prepareStatusData_store, prepareChartData_store.
  - heap_simpl. rewrite Hr. cbn [default]. by rewrite insert_insert_eq.
  - by rewrite Hr.
Qed.

(** ** Dates in a zone of fixed offset *)

Lemma LocalTime_fixed tza t : JS.LocalTime (JS.fixedZone tza) t = t + tza.
Proof. reflexivity. Qed.

Lemma UTC_fixed tza t : JS.UTC (JS.fixedZone tza) t = t - tza.
Proof. reflexivity. Qed.

(** ** Dates: [setHours] *)

Lemma setHours_eq (tza : Z) t h m s ms :
  JS.setHours (JS.fixedZone tza) t h m s ms
  = JS.Day (t + tza) * JS.msPerDay + JS.MakeTime h m s ms - tza.
Proof. reflexivity. Qed.

Lemma setHours_local_day (tza : Z) t h m s ms :
  0 <= JS.MakeTime h m s ms < JS.msPerDay ->
  JS.Day (JS.LocalTime (JS.fixedZone tza) (JS.setHours (JS.fixedZone tza) t h m s ms))
  = JS.Day (JS.LocalTime (JS.fixedZone tza) t)
  /\ JS.TimeWithinDay
       (JS.LocalTime (JS.fixedZone tza) (JS.setHours (JS.fixedZone tza) t h m s ms))
     = JS.MakeTime h m s ms.
Proof.
  intros Hx. rewrite setHours_eq, !LocalTime_fixed. unfold JS.Day, JS.TimeWithinDay.
  replace (_ - tza + tza) with (JS.MakeTime h m s ms + (t + tza) / JS.msPerDay * JS.msPerDay)
    by lia.
  rewrite Z.div_add, Z.mod_add by done.
  rewrite Z.div_small, Z.mod_small by done. split; lia.
Qed.


(** ** The dashboard publishes nothing for an empty collection *)

(** C5.  When the collection handed to [processData] is empty the call
    returns at once: the state, and with it the published statistics,
    chart data and status data, is the one before the call, and the
    store is untouched.  In particular an empty response to the first
    fetch leaves the initial all-zero statistics and the absent chart
    and status data in place. *)
Theorem C5_processData_empty_publishes_nothing
    tz now st ordersData (h : JS.heap Order) :
  h !! ordersData = Some [] ->
  Dashboard.processData tz now st ordersData h = (st, h)
  /\ Dashboard.fetchOrders_success tz now st ordersData h
     = (Dashboard.setOrders st ordersData, h).
Proof.
  intros Hr. unfold Dashboard.fetchOrders_success, Dashboard.processData.
  by rewrite !bind_eq, !read_eq, Hr.
Qed.

(** The initial render followed by an empty response. *)
Lemma C5_witness :
  let st0 := (Dashboard.initialState ∅).1 in
  let h := <[2%positive := []]> (Dashboard.initialState ∅).2 in
  let st' := (Dashboard.fetchOrders_success (JS.fixedZone 0) 1710072000000 st0
                2%positive h).1 in
  Dashboard.stats st' = Dashboard.initialStats
  /\ Dashboard.chartData st' = None
  /\ Dashboard.statusData st' = None.
Proof.
  cbv zeta.
  rewrite (proj2 (C5_processData_empty_publishes_nothing
                    (JS.fixedZone 0) 1710072000000 (Dashboard.initialState ∅).1 2%positive
                    (<[2%positive := []]> (Dashboard.initialState ∅).2)
                    (lookup_insert_eq _ _ _))).
  repeat split.
Defined.

(** ** A single date bound is ignored *)

(** C9.  On the order page, when the start or the end date is unset the
    published view is the status-filtered, sorted store: the date axis
    removes nothing.  On the dashboard, a custom range with an unset
    bound makes the range filter return the collection it was given.
    Neither raises an error: both are total functions. *)
Theorem C9_single_bound_ignored tz :
  (forall st (h : JS.heap Order) all,
      h !! Orders.allOrders st = Some all ->
      Orders.startDate st = None \/ Orders.endDate st = None ->
      exists r h',
        Orders.applyFilters tz st h = (Orders.setOrders st r, h')
        /\ h' !! r = Some (JS.sort (Orders.byDate (Orders.sortOrder st))
                                   (statusAxis st all)))
  /\ (forall now st ordersData (h : JS.heap Order),
      Dashboard.dateRange st = "custom"%string ->
      Dashboard.startDate st = None \/ Dashboard.endDate st = None ->
      Dashboard.filterOrdersByDateRange tz now st ordersData h = (ordersData, h)).
Proof.
  split.
  - intros st h all Hall Hbound.
    destruct (applyFilters_spec tz st h all Hall) as (r & h' & Hrun & Hview & _).
    exists r, h'. split; [done|]. rewrite Hview. unfold dateAxis.
    by destruct Hbound as [-> | ->]; [|destruct (Orders.startDate st)].
  - intros now st r h Hcustom Hbound.
    rewrite filterOrdersByDateRange_spec. unfold activeRange. rewrite Hcustom.
    cbn [String.eqb Ascii.eqb Bool.eqb].
    by destruct Hbound as [-> | ->]; [|destruct (Dashboard.startDate st)].
Qed.

Definition order_at (id : string) (t : Z) (st : string) : Order :=
  mkOrder id t (JS.ofZ 100) st.

(** A start date alone: both orders, a year apart, stay in the view. *)
Lemma C9_witness :
  let all := [order_at "a" 1710072000000 "Packing";
              order_at "b" 1678449600000 "Delivered"] in
  let h : JS.heap Order := {[ 1%positive := all ]} in
  let st := Orders.mkState 1%positive 1%positive false (Some 19792) None "" "desc" in
  exists r h',
    Orders.applyFilters (JS.fixedZone 0) st h = (Orders.setOrders st r, h')
    /\ h' !! r = Some all.
Proof.
  cbv zeta.
  destruct (proj1 (C9_single_bound_ignored (JS.fixedZone 0))
              (Orders.mkState 1%positive 1%positive false (Some 19792) None "" "desc")
              {[ 1%positive := [order_at "a" 1710072000000 "Packing";
                                order_at "b" 1678449600000 "Delivered"] ]}
              [order_at "a" 1710072000000 "Packing";
               order_at "b" 1678449600000 "Delivered"]
              (lookup_singleton_eq _ _) (or_intror eq_refl))
    as (r & h' & Hrun & Hview).
  exists r, h'. split; [exact Hrun|exact Hview].
Defined.

(** ** The date range is inclusive at both ends *)



(** ** The store and the dashboard's chart preparation *)

(** C1 (the code departs from the claim).  The dashboard is in the
    custom range with no dates set when a response of two orders, the
    newer one first, arrives.  The response becomes the Record Store;
    the range filter hands that very array to the chart preparation,
    whose in-place sort reorders it: after the call the Record Store
    holds the older order first. *)
Theorem C1_dashboard_sort_reorders_store :
  let newer := order_at "o2" 1710072000000 "Delivered" in
  let older := order_at "o1" 1709985600000 "Packing" in
  let h : JS.heap Order := {[ 1%positive := []; 2%positive := [newer; older] ]} in
  let st := Dashboard.mkState 1%positive "custom" None None
              Dashboard.initialStats None None in
  let '(st', h') := Dashboard.fetchOrders_success (JS.fixedZone 0) 1710158400000 st
                      2%positive h in
  Dashboard.orders st' = 2%positive
  /\ h !! 2%positive = Some [newer; older]
  /\ h' !! Dashboard.orders st' = Some [older; newer].
Proof. vm_compute. repeat split. Qed.

(** The same, for every store: with an inactive range the store ends up
    sorted by date; with an active one it is kept as it was. *)
Lemma Dashboard_processData_store tz now st (h : JS.heap Order) l :
  h !! Dashboard.orders st = Some l -> l <> [] ->
  let h' := (Dashboard.processData tz now st (Dashboard.orders st) h).2 in
  match activeRange tz now st with
  | Some _ => h' !! Dashboard.orders st = Some l
  | None => h' !! Dashboard.orders st = Some (JS.sort Dashboard.byDate l)
  end.
Proof.
  intros Hr Hne. cbv zeta. rewrite (processData_store _ _ _ _ _ l) by done.
  destruct (activeRange tz now st) as [[start end_]|].
  - rewrite lookup_insert_fresh; eauto.
  - apply lookup_insert_eq.
Qed.

(** ** Dates: the calendar *)

Lemma MonthFromTime_range t : 0 <= JS.MonthFromTime t <= 11.
Proof. unfold JS.MonthFromTime. repeat (destruct (_ <? _)); lia. Qed.

Lemma Day_calendar t :
  JS.Day t = JS.DayFromYear (JS.YearFromTime t)
             + JS.monthStart (JS.InLeapYear t) (JS.MonthFromTime t)
             + JS.DateFromTime t - 1.
Proof. unfold JS.DateFromTime, JS.DayWithinYear. lia. Qed.

Lemma time_split t : t = JS.Day t * JS.msPerDay + JS.TimeWithinDay t.
Proof.
  unfold JS.Day, JS.TimeWithinDay.
  pose proof (Z.div_mod t JS.msPerDay). unfold JS.msPerDay in *. lia.
Qed.

Ltac month_cases m :=
  let H := fresh in
  assert (m = 0 \/ m = 1 \/ m = 2 \/ m = 3 \/ m = 4 \/ m = 5 \/ m = 6
          \/ m = 7 \/ m = 8 \/ m = 9 \/ m = 10 \/ m = 11) as H by lia;
  destruct H as [H|[H|[H|[H|[H|[H|[H|[H|[H|[H|[H|H]]]]]]]]]]]; rewrite !H.

(** The year that follows [y] begins 365 or 366 days after [y] does. *)
Lemma DayFromYear_succ y :
  JS.DayFromYear (y + 1)
  = JS.DayFromYear y + 365 + (if JS.isLeapYear y then 1 else 0).
Proof.
  unfold JS.DayFromYear, JS.isLeapYear.
  destruct (y mod 4 =? 0) eqn:H4, (y mod 100 =? 0) eqn:H100,
           (y mod 400 =? 0) eqn:H400; cbn [negb];
    Z.div_mod_to_equations; lia.
Qed.

(** [setDate] moves the time value by whole days. *)
Lemma setDate_shift (tza : Z) t k :
  JS.setDate (JS.fixedZone tza) t (JS.getDate (JS.fixedZone tza) t + k) = t + k * JS.msPerDay.
Proof.
  unfold JS.setDate, JS.getDate, JS.UTC, JS.MakeDate, JS.MakeDay.
  set (lt := JS.LocalTime (JS.fixedZone tza) t).
  pose proof (MonthFromTime_range lt) as Hm.
  rewrite Z.div_small, Z.mod_small, Z.add_0_r by lia.
  pose proof (Day_calendar lt) as Hd. unfold JS.InLeapYear in Hd.
  pose proof (time_split lt) as Hs.
  unfold lt, JS.LocalTime, JS.msPerDay in *.
  cbn [JS.offsetAt JS.offsetOfLocal JS.fixedZone] in *. lia.
Qed.

Lemma MakeDay_in_year y m d :
  0 <= m <= 11 ->
  JS.MakeDay y m d
  = JS.DayFromYear y + JS.monthStart (if JS.isLeapYear y then 1 else 0) m + d - 1.
Proof.
  intros Hm. unfold JS.MakeDay.
  by rewrite Z.div_small, Z.mod_small, Z.add_0_r by lia.
Qed.

Lemma MakeDay_before_January y d :
  JS.MakeDay y (-1) d
  = JS.DayFromYear (y - 1)
    + JS.monthStart (if JS.isLeapYear (y - 1) then 1 else 0) 11 + d - 1.
Proof. reflexivity. Qed.

Lemma monthStart_leap m (b b' : bool) :
  0 <= m <= 11 ->
  JS.monthStart (if b then 1 else 0) m - JS.monthStart (if b' then 1 else 0) m
  = if m <? 2 then 0 else (if b then 1 else 0) - (if b' then 1 else 0).
Proof. intros Hm. month_cases m; destruct b, b'; reflexivity. Qed.

(** The number of days of month [m] (0 = January) of a year that is
    leap ([leap = 1]) or not. *)
Definition daysInMonth (leap m : Z) : Z :=
  if m =? 11 then 31 else JS.monthStart leap (m + 1) - JS.monthStart leap m.

(** The length of the calendar month before the one the local time
    value [lt] lies in. *)
Definition previousMonthLength (lt : Z) : Z :=
  if JS.MonthFromTime lt =? 0 then 31
  else daysInMonth (JS.InLeapYear lt) (JS.MonthFromTime lt - 1).

(** The number of days from the calendar date of [lt] a year earlier
    to that of [lt]: 366 when a 29 February lies in between. *)
Definition previousYearLength (lt : Z) : Z :=
  365 + (if JS.MonthFromTime lt <? 2
         then (if JS.isLeapYear (JS.YearFromTime lt - 1) then 1 else 0)
         else JS.InLeapYear lt).

Lemma daysInMonth_range leap m :
  0 <= leap <= 1 -> 0 <= m <= 11 -> 28 <= daysInMonth leap m <= 31.
Proof. intros Hl Hm. unfold daysInMonth. month_cases m; simpl; lia. Qed.

Lemma previousMonthLength_range lt : 28 <= previousMonthLength lt <= 31.
Proof.
  unfold previousMonthLength. pose proof (MonthFromTime_range lt).
  destruct (Z.eqb_spec (JS.MonthFromTime lt) 0); [lia|].
  apply daysInMonth_range; [|lia].
  unfold JS.InLeapYear. destruct (JS.isLeapYear _); lia.
Qed.

Lemma previousYearLength_range lt : 365 <= previousYearLength lt <= 366.
Proof.
  unfold previousYearLength, JS.InLeapYear.
  destruct (JS.MonthFromTime lt <? 2), (JS.isLeapYear (JS.YearFromTime lt - 1)),
           (JS.isLeapYear (JS.YearFromTime lt)); lia.
Qed.

(** In a zone of fixed offset, one calendar month back is as many days
    back as the previous month has. *)
Lemma setMonth_previous (tza : Z) t :
  JS.setMonth (JS.fixedZone tza) t (JS.getMonth (JS.fixedZone tza) t - 1)
  = t - previousMonthLength (t + tza) * JS.msPerDay.
Proof.
  unfold JS.setMonth, JS.getMonth, JS.MakeDate, previousMonthLength, daysInMonth.
  rewrite UTC_fixed, !LocalTime_fixed.
  set (lt := t + tza).
  pose proof (MonthFromTime_range lt) as Hm.
  pose proof (Day_calendar lt) as Hd. unfold JS.InLeapYear in *.
  pose proof (time_split lt) as Hs.
  destruct (Z.eqb_spec (JS.MonthFromTime lt) 0) as [H0|H0].
  - rewrite H0 in *. change (0 - 1) with (-1). rewrite MakeDay_before_January.
    pose proof (DayFromYear_succ (JS.YearFromTime lt - 1)) as Hy.
    replace (JS.YearFromTime lt - 1 + 1) with (JS.YearFromTime lt) in Hy by lia.
    cbn [JS.monthStart] in *. unfold lt, JS.msPerDay in *. lia.
  - rewrite MakeDay_in_year by lia.
    destruct (Z.eqb_spec (JS.MonthFromTime lt - 1) 11); [lia|].
    replace (JS.MonthFromTime lt - 1 + 1) with (JS.MonthFromTime lt) by lia.
    unfold lt, JS.msPerDay in *. lia.
Qed.

(** In a zone of fixed offset, one calendar year back is 365 days back,
    or 366 across a 29 February. *)
Lemma setFullYear_previous (tza : Z) t :
  JS.setFullYear (JS.fixedZone tza) t (JS.getFullYear (JS.fixedZone tza) t - 1)
  = t - previousYearLength (t + tza) * JS.msPerDay.
Proof.
  unfold JS.setFullYear, JS.getFullYear, JS.MakeDate, previousYearLength.
  rewrite UTC_fixed, !LocalTime_fixed.
  set (lt := t + tza).
  pose proof (MonthFromTime_range lt) as Hm.
  pose proof (Day_calendar lt) as Hd. unfold JS.InLeapYear in *.
  pose proof (time_split lt) as Hs.
  rewrite MakeDay_in_year by lia.
  pose proof (DayFromYear_succ (JS.YearFromTime lt - 1)) as Hy.
  replace (JS.YearFromTime lt - 1 + 1) with (JS.YearFromTime lt) in Hy by lia.
  pose proof (monthStart_leap (JS.MonthFromTime lt)
                (JS.isLeapYear (JS.YearFromTime lt))
                (JS.isLeapYear (JS.YearFromTime lt - 1)) Hm) as Hl.
  destruct (JS.MonthFromTime lt <? 2), (JS.isLeapYear (JS.YearFromTime lt)),
           (JS.isLeapYear (JS.YearFromTime lt - 1));
    unfold lt, JS.msPerDay in *; lia.
Qed.

(** The start of a year is within two days of its mean position. *)
Lemma DayFromYear_mean y :
  146097 * (y - 1970) - 800 <= 400 * JS.DayFromYear y <= 146097 * (y - 1970) + 800.
Proof. unfold JS.DayFromYear. Z.div_mod_to_equations. lia. Qed.

(** [YearFromDay] finds the year a day falls in. *)
Lemma YearFromDay_spec d :
  JS.DayFromYear (JS.YearFromDay d) <= d < JS.DayFromYear (JS.YearFromDay d + 1).
Proof.
  unfold JS.YearFromDay.
  set (y0 := 1970 + d * 400 / 146097).
  assert (146097 * (y0 - 1970) <= 400 * d < 146097 * (y0 - 1970) + 146097) as Hy0.
  { unfold y0. Z.div_mod_to_equations. lia. }
  pose proof (DayFromYear_mean (y0 - 1)) as Hlo.
  pose proof (DayFromYear_mean (y0 + 1 + 1)) as Hhi.
  destruct (Z.leb_spec (JS.DayFromYear (y0 + 1)) d);
    [|destruct (Z.leb_spec (JS.DayFromYear y0) d)];
    rewrite ?Z.sub_add; lia.
Qed.

(** ** The dashboard's relative ranges *)

(** The number of days the range key reaches back from the local time
    value [lt], in a zone of fixed offset. *)
Definition rangeDays (range : string) (lt : Z) : option Z :=
  if String.eqb range "week" then Some 7
  else if String.eqb range "month" then Some (previousMonthLength lt)
  else if String.eqb range "year" then Some (previousYearLength lt)
  else None.

(** In a zone of fixed offset the three relative ranges keep, in a fresh
    array and in their order, exactly the orders dated from [k] days
    before [now] to [now], where [k] is 7 for [week], the length of the
    previous calendar month for [month], and 365 or 366 for [year]. *)
Lemma relative_ranges_fixed_zone
    (tza : Z) now st ordersData (h : JS.heap Order) all k :
  h !! ordersData = Some all ->
  rangeDays (Dashboard.dateRange st) (now + tza) = Some k ->
  h !! (Dashboard.filterOrdersByDateRange (JS.fixedZone tza) now st ordersData h).1
  = None
  /\ (Dashboard.filterOrdersByDateRange (JS.fixedZone tza) now st ordersData h).2
     = <[(Dashboard.filterOrdersByDateRange (JS.fixedZone tza) now st ordersData h).1
         := List.filter (Dashboard.inRange (now - k * JS.msPerDay) now) all]> h.
Proof.
  intros Hall Hk.
  assert (activeRange (JS.fixedZone tza) now st = Some (now - k * JS.msPerDay, now))
    as Hact.
  { revert Hk. unfold rangeDays, activeRange.
    destruct (String.eqb (Dashboard.dateRange st) "week").
    { intros [= <-]. f_equal. f_equal.
      replace (JS.getDate (JS.fixedZone tza) now - 7)
        with (JS.getDate (JS.fixedZone tza) now + (-7)) by lia.
      rewrite setDate_shift. lia. }
    destruct (String.eqb (Dashboard.dateRange st) "month").
    { intros [= <-]. by rewrite setMonth_previous. }
    destruct (String.eqb (Dashboard.dateRange st) "year"); [|done].
    intros [= <-]. by rewrite setFullYear_previous. }
  rewrite filterOrdersByDateRange_spec, Hact, Hall. cbn [fst snd default from_option id].
  split; [|done]. apply fresh_lookup.
Qed.

(** C3.  The range [month] is not the last 30 days: its start is the
    same day of the month and time of day one calendar month earlier.
    In a zone at UTC, at noon of 2024-03-10 the range starts at noon of
    2024-02-10, 29 days back, and the filter drops an order dated
    exactly 30 days before now; at noon of 2024-04-10 it starts 31 days
    back and keeps an order that is 31 days old. *)
Theorem C3_month_range_is_a_calendar_month :
  let utc := JS.fixedZone 0 in
  let st := Dashboard.mkState 1%positive "month" None None
              Dashboard.initialStats None None in
  let march10 := 1710072000000 in
  let april10 := 1712750400000 in
  let recent := order_at "a" (march10 - 30 * JS.msPerDay) "Packing" in
  let old := order_at "b" (april10 - 31 * JS.msPerDay) "Packing" in
  (JS.setMonth utc march10 (JS.getMonth utc march10 - 1)
   = march10 - 29 * JS.msPerDay
   /\ march10 - 30 * JS.msPerDay <= date recent <= march10
   /\ let '(r, h') := Dashboard.filterOrdersByDateRange utc march10 st 1%positive
                        {[ 1%positive := [recent] ]} in
      h' !! r = Some [])
  /\ (JS.setMonth utc april10 (JS.getMonth utc april10 - 1)
      = april10 - 31 * JS.msPerDay
      /\ date old < april10 - 30 * JS.msPerDay
      /\ let '(r, h') := Dashboard.filterOrdersByDateRange utc april10 st 1%positive
                           {[ 1%positive := [old] ]} in
         h' !! r = Some [old]).
Proof. cbv zeta. repeat split; by vm_compute. Qed.

(** ** Strings: [includes] *)

Lemma append_cons c (t post : string) :
  (String c t ++ post)%string = String c (t ++ post)%string.
Proof. reflexivity. Qed.

Lemma prefix_spec t s :
  String.prefix t s = true <-> exists post, s = (t ++ post)%string.
Proof.
  revert s. induction t as [|c t IH]; intros s.
  - split; [intros _; by exists s|by destruct s].
  - destruct s as [|c' s]; [split; [done|by intros [? ?]]|].
    cbn [String.prefix].
    destruct (Ascii.ascii_dec c c') as [->|Hne].
    + rewrite IH. split; intros [post Hp]; exists post;
        rewrite append_cons in *; congruence.
    + split; [done|]. intros [post Hp]. rewrite append_cons in Hp. congruence.
Qed.

Lemma includes_spec s t :
  JS.includes s t = true <-> exists pre post, s = (pre ++ t ++ post)%string.
Proof.
  induction s as [|c s IH]; cbn [JS.includes]; rewrite orb_true_iff, prefix_spec.
  - split.
    + intros [[post Hp]|?]; [|done]. by exists ""%string, post.
    + intros (pre & post & Hp). left. destruct pre; [by exists post|done].
  - rewrite IH. split.
    + intros [[post Hp]|(pre & post & Hp)].
      * by exists ""%string, post.
      * exists (String c pre), post. by rewrite append_cons, Hp.
    + intros (pre & post & Hp). destruct pre as [|c' pre].
      * left. by exists post.
      * right. exists pre, post. rewrite append_cons in Hp. congruence.
Qed.

Lemma includes_empty s : JS.includes s "" = true.
Proof. by destruct s. Qed.

Lemma empty_includes t : JS.includes "" t = true -> t = ""%string.
Proof. by destruct t. Qed.

(** ** The review search *)

(** [candidate] contains [search], letter case aside. *)
Definition containsIgnoringCase `{JS.CaseConversion} (candidate search : string)
  : Prop :=
  exists pre post,
    JS.toLowerCase candidate = (pre ++ JS.toLowerCase search ++ post)%string.

(** The three candidate strings of a review; a missing one is empty. *)
Definition candidates (r : Reviews.Review) : list string :=
  [default ""%string (Reviews.userName r);
   default ""%string (Reviews.productName r);
   default ""%string (Reviews.comment r)].

Definition anyCandidateMatches `{JS.CaseConversion} (search : string)
    (r : Reviews.Review) : bool :=
  existsb (fun c => JS.includes (JS.toLowerCase c) (JS.toLowerCase search))
          (candidates r).

Lemma nameMatches_or `{JS.CaseConversion} name searchLower (rest : bool) :
  (searchLower = ""%string -> rest = true) ->
  Reviews.nameMatches name searchLower || rest
  = JS.includes (JS.toLowerCase (default ""%string name)) searchLower || rest.
Proof.
  intros Hrest. destruct name as [[|c n]|]; cbn [Reviews.nameMatches default from_option id];
    try done.
  all: rewrite JS.toLowerCase_empty.
  all: destruct (JS.includes "" searchLower) eqn:Hi; [|done].
  all: apply empty_includes in Hi. all: by rewrite Hrest.
Qed.

Lemma matchesSearch_with_comment `{JS.CaseConversion} search r c :
  Reviews.comment r = Some c ->
  Reviews.matchesSearch search r = JS.Ok (anyCandidateMatches search r).
Proof.
  intros Hc. unfold Reviews.matchesSearch, anyCandidateMatches, candidates.
  rewrite Hc. cbn [existsb default from_option id]. rewrite orb_false_r.
  set (sl := JS.toLowerCase search).
  set (cm := JS.includes (JS.toLowerCase c) sl).
  assert (sl = ""%string -> cm = true) as Hcm.
  { intros Hsl. unfold cm. rewrite Hsl. apply includes_empty. }
  rewrite <- (nameMatches_or (Reviews.userName r) sl).
  2:{ intros Hsl. by rewrite (Hcm Hsl), orb_true_r. }
  rewrite <- (nameMatches_or (Reviews.productName r) sl cm Hcm).
  by destruct (Reviews.nameMatches (Reviews.userName r) sl),
       (Reviews.nameMatches (Reviews.productName r) sl).
Qed.

(** C4 (as amended).  On a review list in which every review carries a
    comment, the search filter returns normally for every search text;
    a missing user name or product name stands as the empty string; and
    the reviews kept, in their order, are exactly those of which at
    least one of the three candidate strings contains the search text,
    letter case aside. *)
Theorem C4_review_search_total_with_comments `{JS.CaseConversion} search reviews :
  Forall (fun r => is_Some (Reviews.comment r)) reviews ->
  Reviews.filteredReviews search reviews
  = JS.Ok (List.filter (anyCandidateMatches search) reviews)
  /\ forall r,
      anyCandidateMatches search r = true
      <-> exists c, c ∈ candidates r /\ containsIgnoringCase c search.
Proof.
  intros Hall. split.
  - unfold Reviews.filteredReviews.
    induction Hall as [|r reviews [c Hc] _ IH]; [done|].
    cbn [JS.filterThrowing List.filter].
    by rewrite (matchesSearch_with_comment _ _ c Hc), IH.
  - intros r. unfold anyCandidateMatches. rewrite existsb_exists.
    split; intros (c & Hin & Hm); exists c.
    + split; [by apply list_elem_of_In|]. by apply includes_spec.
    + split; [by apply list_elem_of_In|]. by apply includes_spec.
Qed.

Definition review_by (id : string) (who : option Reviews.User)
    (what : option Reviews.Product) (text : option string) : Reviews.Review :=
  Reviews.mkReview id 0 5 text who what.

(** A review without user and product is found through its comment. *)
Lemma C4_witness :
  @Reviews.filteredReviews JS.asciiCaseConversion "GREAT"
    [review_by "r1" None None (Some "Great fit"%string);
     review_by "r2" (Some (Reviews.mkUser None None)) None (Some "too small"%string)]
  = JS.Ok [review_by "r1" None None (Some "Great fit"%string)].
Proof.
  rewrite (proj1 (@C4_review_search_total_with_comments JS.asciiCaseConversion
                    "GREAT"
                    [review_by "r1" None None (Some "Great fit"%string);
                     review_by "r2" (Some (Reviews.mkUser None None)) None
                               (Some "too small"%string)]
                    ltac:(repeat constructor; eauto))).
  reflexivity.
Defined.

(** C4, as stated, fails for a missing comment: when neither name
    matches, the callback reads [review.comment.toLowerCase()] and the
    filter throws. *)
Lemma C4_counterexample :
  @Reviews.filteredReviews JS.asciiCaseConversion "a" [review_by "r1" None None None]
  = JS.TypeError.
Proof. reflexivity. Qed.

(** ** Dictionaries *)

Section ObjectFacts.
Context {V : Type}.
Implicit Types (o : JS.object V) (k : string) (v : V) (ks : list string).

(** The dictionary that holds [f k] under every key [k] of [ks]. *)
Definition tabulate (f : string -> V) ks : JS.object V :=
  map (fun k => (k, f k)) ks.

Lemma get_tabulate f ks k :
  JS.get (tabulate f ks) k = if decide (k ∈ ks) then Some (f k) else None.
Proof.
  induction ks as [|k' ks IH]; [done|]. cbn [tabulate map JS.get].
  destruct (String.eqb_spec k' k) as [->|Hne].
  - rewrite decide_True; [done|by left].
  - fold (tabulate f ks). rewrite IH.
    destruct (decide (k ∈ ks)) as [Hin|Hin].
    + rewrite decide_True; [done|by right].
    + rewrite decide_False; [done|]. rewrite elem_of_cons. intros [?|?]; congruence.
Qed.

Lemma set_tabulate_new f ks k v :
  k ∉ ks -> JS.set (tabulate f ks) k v = tabulate f ks ++ [(k, v)].
Proof.
  induction ks as [|k' ks IH]; [done|]. rewrite not_elem_of_cons. intros [Hne Hin].
  cbn [tabulate map JS.set]. destruct (String.eqb_spec k' k) as [->|_]; [done|].
  fold (tabulate f ks). by rewrite IH.
Qed.

Lemma set_tabulate_old f ks k v :
  NoDup ks -> k ∈ ks ->
  JS.set (tabulate f ks) k v
  = tabulate (fun k' => if String.eqb k' k then v else f k') ks.
Proof.
  induction ks as [|k' ks IH]; [by rewrite elem_of_nil|].
  rewrite NoDup_cons. intros [Hk' Hnd] Hin.
  cbn [tabulate map JS.set]. destruct (String.eqb_spec k' k) as [->|Hne].
  - f_equal. apply map_ext_in. intros k'' Hk''.
    destruct (String.eqb_spec k'' k) as [->|]; [|done].
    by apply list_elem_of_In in Hk''.
  - fold (tabulate f ks). rewrite IH; [done..|].
    apply elem_of_cons in Hin as [->|]; done.
Qed.

Lemma tabulate_ext f g ks :
  (forall k, k ∈ ks -> f k = g k) -> tabulate f ks = tabulate g ks.
Proof.
  intros Hfg. apply map_ext_in. intros k Hk. rewrite Hfg; [done|].
  by apply list_elem_of_In.
Qed.

Lemma tabulate_snoc f ks k : tabulate f (ks ++ [k]) = tabulate f ks ++ [(k, f k)].
Proof. unfold tabulate. by rewrite map_app. Qed.

(** Without array-index keys, enumeration follows creation order. *)
Lemma ownEntries_creation_order o :
  Forall (fun p => JS.isArrayIndex (fst p) = false) o -> JS.ownEntries o = o.
Proof.
  intros Hno. unfold JS.ownEntries.
  assert (List.filter (fun p => JS.isArrayIndex (fst p)) o = []) as ->.
  { induction Hno as [|p o Hp _ IH]; [done|]. cbn [List.filter]. by rewrite Hp. }
  cbn [JS.sort foldr app].
  induction Hno as [|p o Hp _ IH]; [done|]. cbn [List.filter]. rewrite Hp.
  cbn [negb]. by rewrite IH.
Qed.

Lemma keys_tabulate f ks :
  Forall (fun k => JS.isArrayIndex k = false) ks -> JS.keys (tabulate f ks) = ks.
Proof.
  intros Hno. unfold JS.keys. rewrite ownEntries_creation_order.
  - unfold tabulate. rewrite map_map. apply map_id.
  - unfold tabulate. by rewrite Forall_map.
Qed.

Lemma values_tabulate f ks :
  Forall (fun k => JS.isArrayIndex k = false) ks ->
  JS.values (tabulate f ks) = map f ks.
Proof.
  intros Hno. unfold JS.values. rewrite ownEntries_creation_order.
  - unfold tabulate. by rewrite map_map.
  - unfold tabulate. by rewrite Forall_map.
Qed.
End ObjectFacts.

(** A string that starts with a letter is no array index. *)
Lemma letter_first_not_index c s :
  JS.digit c = None -> JS.isArrayIndex (String c s) = false.
Proof.
  intros Hc. unfold JS.isArrayIndex, JS.arrayIndex.
  destruct (_ && _)%bool; [done|]. cbn [JS.digits]. by rewrite Hc.
Qed.

Lemma weekdayShort_letter w :
  exists c s, JS.weekdayShort w = String c s /\ JS.digit c = None.
Proof.
  unfold JS.weekdayShort.
  destruct w as [|p|p]; [eauto| |eauto].
  do 3 (try destruct p as [p|p|]); eauto.
Qed.

Lemma monthShort_letter m :
  exists c s, JS.monthShort m = String c s /\ JS.digit c = None.
Proof.
  unfold JS.monthShort.
  destruct m as [|p|p]; [eauto| |eauto].
  do 4 (try destruct p as [p|p|]); eauto.
Qed.

Lemma label_not_index tz fmt t :
  JS.isArrayIndex (JS.toLocaleDateString tz fmt t) = false.
Proof.
  unfold JS.toLocaleDateString. destruct fmt.
  - destruct (weekdayShort_letter (JS.WeekDay (JS.LocalTime tz t)))
      as (c & s & -> & Hc).
    by apply letter_first_not_index.
  - destruct (monthShort_letter (JS.MonthFromTime (JS.LocalTime tz t)))
      as (c & s & -> & Hc).
    by apply letter_first_not_index.
  - destruct (monthShort_letter (JS.MonthFromTime (JS.LocalTime tz t)))
      as (c & s & -> & Hc).
    by apply letter_first_not_index.
Qed.

(** A date label names no member of [Object.prototype]: the two
    dictionaries of the chart never find an inherited member. *)
Lemma label_not_inherited tz fmt t :
  JS.inheritsFromObjectPrototype (JS.toLocaleDateString tz fmt t) = false.
Proof.
  unfold JS.toLocaleDateString. destruct fmt.
  - unfold JS.weekdayShort. destruct (JS.WeekDay _) as [|p|p]; [done| |done].
    by do 3 (try destruct p as [p|p|]).
  - unfold JS.monthShort. destruct (JS.MonthFromTime _) as [|p|p]; [done| |done].
    by do 4 (try destruct p as [p|p|]).
  - unfold JS.monthShort. destruct (JS.MonthFromTime _) as [|p|p]; [done| |done].
    by do 4 (try destruct p as [p|p|]).
Qed.

(** ** First occurrences *)

(** The distinct entries of [l], each at its first occurrence. *)
Fixpoint firstSeen (l : list string) : list string :=
  match l with
  | [] => []
  | x :: l' => x :: List.filter (fun y => negb (String.eqb y x)) (firstSeen l')
  end.

Lemma elem_of_firstSeen x l : x ∈ firstSeen l <-> x ∈ l.
Proof.
  induction l as [|y l IH]; [done|]. cbn [firstSeen].
  rewrite !elem_of_cons, elem_of_List_filter, IH, negb_true_iff.
  destruct (String.eqb_spec x y); intuition congruence.
Qed.

Lemma NoDup_List_filter {A} (p : A -> bool) (l : list A) :
  NoDup l -> NoDup (List.filter p l).
Proof.
  induction 1 as [|x l Hx _ IH]; cbn [List.filter]; [constructor|].
  destruct (p x); [|done]. constructor; [|done].
  rewrite elem_of_List_filter. tauto.
Qed.

Lemma NoDup_firstSeen l : NoDup (firstSeen l).
Proof.
  induction l as [|x l IH]; cbn [firstSeen]; constructor.
  - rewrite elem_of_List_filter, negb_true_iff, String.eqb_refl. by intros [? _].
  - by apply NoDup_List_filter.
Qed.

Lemma filter_app_List {A} (p : A -> bool) (l1 l2 : list A) :
  List.filter p (l1 ++ l2) = List.filter p l1 ++ List.filter p l2.
Proof. apply List.filter_app. Qed.

Lemma firstSeen_snoc l x :
  firstSeen (l ++ [x]) = if decide (x ∈ l) then firstSeen l else firstSeen l ++ [x].
Proof.
  induction l as [|y l IH]; [done|].
  cbn [app firstSeen]. rewrite IH.
  destruct (decide (x ∈ l)) as [Hin|Hin].
  - rewrite decide_True; [done|by right].
  - rewrite filter_app_List. cbn [List.filter].
    destruct (String.eqb_spec x y) as [->|Hne]; cbn [negb].
    + rewrite decide_True; [|by left]. by rewrite app_nil_r.
    + rewrite decide_False; [done|]. rewrite elem_of_cons. intros [?|?]; congruence.
Qed.

(** ** Status summaries *)

(** The number of orders of [l] whose status is [s]. *)
Definition countWithStatus (s : string) (l : list Order) : nat :=
  length (List.filter (fun o => String.eqb (status o) s) l).

(** The collection the dashboard aggregates: the store cut down to the
    active range, or the store itself when the range is inactive. *)
Definition dateFiltered (tz : JS.TimeZone) (now : Z) (st : Dashboard.State) (l : list Order)
  : list Order :=
  match activeRange tz now st with
  | Some (start, end_) => List.filter (Dashboard.inRange start end_) l
  | None => l
  end.

Lemma length_filter_Permutation {A} (p : A -> bool) (l l' : list A) :
  l ≡ₚ l' -> length (List.filter p l) = length (List.filter p l').
Proof.
  induction 1 as [|x l l' _ IH|x y l|l l' l'' _ IH1 _ IH2]; cbn [List.filter].
  - done.
  - destruct (p x); cbn [length]; by rewrite IH.
  - by destruct (p x), (p y).
  - by rewrite IH1.
Qed.

Lemma countWithStatus_sort cmp s l :
  countWithStatus s (JS.sort cmp l) = countWithStatus s l.
Proof. apply length_filter_Permutation, sort_Permutation. Qed.

Lemma NoDup_statusOptions : NoDup statusOptions.
Proof. by apply (bool_decide_unpack _). Qed.

(** A status that names a member of [Object.prototype] other than
    [__proto__]: the counting loop stores [NaN] under it. *)
Definition strayStatus (k : string) : bool :=
  JS.inheritsFromObjectPrototype k && negb (String.eqb k "__proto__").

(** The stray statuses of [l], each at its first occurrence. *)
Definition strayStatuses (l : list Order) : list string :=
  firstSeen (List.filter strayStatus (map status l)).

(** The counter the loop leaves under the key [k]. *)
Definition tally (l : list Order) (k : string) : Dashboard.counter :=
  if bool_decide (k ∈ statusOptions)
  then Dashboard.Count (countWithStatus k l)
  else Dashboard.CountNaN.

(** What [Object.values(countByStatus)] holds after the loop over [l]:
    the counts of the five statuses, and one [NaN] for each stray
    status. *)
Definition statusCountsOf (l : list Order) : list Dashboard.counter :=
  map (fun s => Dashboard.Count (countWithStatus s l)) statusOptions
  ++ replicate (length (strayStatuses l)) Dashboard.CountNaN.

Lemma statusOptions_not_stray s : s ∈ statusOptions -> strayStatus s = false.
Proof.
  revert s. apply Forall_forall. by apply (bool_decide_unpack _).
Qed.

Lemma strayStatus_not_index k : strayStatus k = true -> JS.isArrayIndex k = false.
Proof.
  unfold strayStatus, JS.inheritsFromObjectPrototype.
  rewrite andb_true_iff, existsb_exists. intros [(k' & Hin & Heq) _].
  apply String.eqb_eq in Heq as ->. apply list_elem_of_In in Hin.
  revert k' Hin. apply Forall_forall. by apply (bool_decide_unpack _).
Qed.

Lemma elem_of_strayStatuses k l :
  k ∈ strayStatuses l <-> strayStatus k = true /\ k ∈ map status l.
Proof. unfold strayStatuses. by rewrite elem_of_firstSeen, elem_of_List_filter. Qed.

Lemma strayStatuses_snoc l o :
  strayStatuses (l ++ [o])
  = if strayStatus (status o) && negb (bool_decide (status o ∈ strayStatuses l))
    then strayStatuses l ++ [status o]
    else strayStatuses l.
Proof.
  unfold strayStatuses. rewrite map_app, filter_app_List. cbn [map List.filter].
  destruct (strayStatus (status o)) eqn:Hs; cbn [andb].
  - rewrite firstSeen_snoc.
    destruct (decide (status o ∈ List.filter strayStatus (map status l))) as [Hin|Hin].
    + rewrite bool_decide_eq_true_2; [done|]. by apply elem_of_firstSeen.
    + rewrite bool_decide_eq_false_2; [done|]. by rewrite elem_of_firstSeen.
  - by rewrite app_nil_r.
Qed.

Lemma NoDup_statusKeys l : NoDup (statusOptions ++ strayStatuses l).
Proof.
  apply NoDup_app. split; [apply NoDup_statusOptions|]. split; [|apply NoDup_firstSeen].
  intros s Hs Hstray. apply elem_of_strayStatuses in Hstray as [Hstray _].
  by rewrite (statusOptions_not_stray s Hs) in Hstray.
Qed.

Lemma countWithStatus_snoc s l o :
  countWithStatus s (l ++ [o])
  = (countWithStatus s l + if String.eqb (status o) s then 1 else 0)%nat.
Proof.
  unfold countWithStatus. rewrite filter_app_List, length_app. cbn [List.filter].
  by destruct (String.eqb (status o) s).
Qed.

Lemma tally_snoc l o k :
  tally (l ++ [o]) k
  = if String.eqb k (status o) then Dashboard.increment (tally l k) else tally l k.
Proof.
  unfold tally. rewrite countWithStatus_snoc, (String.eqb_sym k).
  destruct (bool_decide (k ∈ statusOptions)), (String.eqb (status o) k);
    cbn [Dashboard.increment]; try done; f_equal; lia.
Qed.

(** The counting loop of [prepareStatusData], in closed form. *)
Lemma countStep_fold l :
  fold_left Dashboard.countStep l
    (fold_left (fun o s => JS.set o s (Dashboard.Count 0)) statusOptions [])
  = tabulate (tally l) (statusOptions ++ strayStatuses l).
Proof.
  induction l as [|o l IH] using rev_ind; [by vm_compute|].
  rewrite fold_left_app, IH. cbn [fold_left].
  unfold Dashboard.countStep, JS.getProperty, JS.put. rewrite get_tabulate.
  rewrite strayStatuses_snoc.
  set (k := status o). set (ks := statusOptions ++ strayStatuses l).
  assert (forall k', k' ∈ ks -> k' <> "__proto__"%string) as Hproto.
  { intros k' Hk' ->. apply elem_of_app in Hk' as [Hk'|Hk'].
    - unfold statusOptions in Hk'. rewrite !elem_of_cons, elem_of_nil in Hk'.
      intuition discriminate.
    - apply elem_of_strayStatuses in Hk' as [Hk' _]. by vm_compute in Hk'. }
  destruct (decide (k ∈ ks)) as [Hin|Hin].
  - destruct (String.eqb_spec k "__proto__") as [Heq|_]; [by destruct (Hproto k Hin)|].
    rewrite set_tabulate_old by (done || apply (NoDup_statusKeys l)).
    assert (strayStatus k && negb (bool_decide (k ∈ strayStatuses l)) = false) as ->.
    { apply elem_of_app in Hin as [Hin|Hin].
      - by rewrite (statusOptions_not_stray k Hin).
      - rewrite (bool_decide_eq_true_2 _ Hin). apply andb_false_r. }
    apply tabulate_ext. intros k' _. rewrite tally_snoc. fold k.
    by destruct (String.eqb_spec k' k) as [->|].
  - assert (k ∉ strayStatuses l) as Hnew.
    { intros Hk. apply Hin, elem_of_app. by right. }
    rewrite (bool_decide_eq_false_2 _ Hnew). cbn [negb]. rewrite andb_true_r.
    assert (tabulate (tally (l ++ [o])) ks = tabulate (tally l) ks) as Hold.
    { apply tabulate_ext. intros k' Hk'. rewrite tally_snoc.
      destruct (String.eqb_spec k' (status o)) as [->|]; [done|done]. }
    unfold strayStatus. fold k.
    destruct (JS.inheritsFromObjectPrototype k) eqn:Hinh; cbn [andb].
    + destruct (String.eqb_spec k "__proto__") as [Heq|Hne]; cbn [negb]; [done|].
      rewrite set_tabulate_new by done. fold ks.
      rewrite app_assoc, tabulate_snoc. fold ks. rewrite Hold. do 2 f_equal.
      unfold tally. rewrite bool_decide_eq_false_2; [done|].
      intros Hk. apply Hin, elem_of_app. by left.
    + done.
Qed.

Lemma map_tally l :
  map (tally l) (statusOptions ++ strayStatuses l) = statusCountsOf l.
Proof.
  unfold statusCountsOf. rewrite map_app.
  assert (map (tally l) statusOptions
          = map (fun s => Dashboard.Count (countWithStatus s l)) statusOptions) as ->.
  { apply map_ext_in. intros s Hs. unfold tally.
    rewrite bool_decide_eq_true_2; [done|]. by apply list_elem_of_In. }
  f_equal.
  assert (Forall (fun k => k ∉ statusOptions) (strayStatuses l)) as Hout.
  { apply Forall_forall. intros k Hk Hs. apply elem_of_strayStatuses in Hk as [Hk _].
    by rewrite (statusOptions_not_stray k Hs) in Hk. }
  induction Hout as [|k ks Hk _ IHks]; [done|]. cbn [map length replicate].
  f_equal; [|done]. unfold tally. by rewrite bool_decide_eq_false_2.
Qed.

Lemma prepareStatusData_spec st r (h : JS.heap Order) :
  Dashboard.prepareStatusData st r h
  = (Dashboard.setStatusData st
       {| Dashboard.statusLabels := statusOptions;
          Dashboard.statusCounts := statusCountsOf (default [] (h !! r)) |},
     h).
Proof.
  unfold Dashboard.prepareStatusData. store_step.
  rewrite countStep_fold, values_tabulate; [by rewrite map_tally|].
  apply Forall_app. split; [by apply (bool_decide_unpack _)|].
  apply Forall_forall. intros k Hk. apply strayStatus_not_index.
  by apply elem_of_strayStatuses in Hk as [Hk _].
Qed.

(** The number of stray statuses does not depend on the order of the
    collection. *)
Lemma strayStatuses_Permutation l l' :
  l ≡ₚ l' -> length (strayStatuses l) = length (strayStatuses l').
Proof.
  intros Hperm. apply Permutation_length, NoDup_Permutation;
    [apply NoDup_firstSeen..|].
  intros k. rewrite !elem_of_strayStatuses. by rewrite Hperm.
Qed.

Lemma statusCountsOf_sort cmp l : statusCountsOf (JS.sort cmp l) = statusCountsOf l.
Proof.
  unfold statusCountsOf. f_equal.
  - apply map_ext. intros s. by rewrite countWithStatus_sort.
  - f_equal. apply strayStatuses_Permutation, sort_Permutation.
Qed.

Lemma prepareChartData_statusData tz st r (h : JS.heap Order) :
  Dashboard.statusData (Dashboard.prepareChartData tz st r h).1
  = Dashboard.statusData st.
Proof.
  unfold Dashboard.prepareChartData. store_step.
  by destruct (fold_left _ _ _).
Qed.

(** What the dashboard publishes as orders-by-status. *)
Lemma processData_statusData tz now st r (h : JS.heap Order) l :
  h !! r = Some l -> l <> [] ->
  Dashboard.statusData (Dashboard.processData tz now st r h).1
  = Some {| Dashboard.statusLabels := statusOptions;
            Dashboard.statusCounts := statusCountsOf (dateFiltered tz now st l) |}.
Proof.
  intros Hr Hne. unfold Dashboard.processData, dateFiltered.
  rewrite bind_eq, read_eq, Hr. cbn [fst snd default from_option id].
  destruct l as [|o l]; [done|].
  rewrite bind_eq, filterOrdersByDateRange_spec.
  destruct (activeRange tz now st) as [[start end_]|]; cbn [fst snd];
    rewrite bind_eq, read_eq; cbn [fst snd];
    rewrite bind_eq, prepareStatusData_spec; cbn [fst Dashboard.setStatusData
      Dashboard.statusData];
    rewrite prepareChartData_store, lookup_insert_eq;
    cbn [default from_option id]; do 2 f_equal;
    rewrite statusCountsOf_sort.
  - by rewrite lookup_insert_eq, Hr.
  - by rewrite Hr.
Qed.

Lemma statusSummary_eq st (h : JS.heap Order) :
  Orders.statusSummary st h
  = (if (negb (Orders.loading st)
         && (0 <? length (default [] (h !! Orders.allOrders st)))%nat)%bool
     then Some (map (Orders.statusCard (default [] (h !! Orders.allOrders st)))
                    statusOptions)
     else None,
     h).
Proof. reflexivity. Qed.

(** C2 (as amended).  On the order page the status summary is computed
    from the whole Record Store: each card counts the orders of the
    store with its status and shows
    [Math.round((count / total) * 100)], in binary64 arithmetic, with
    [total] the size of the store; applying the filters does not change
    the summary.  The dashboard's orders-by-status data counts each of
    the five statuses over the collection left by the date-range
    filter, which is the whole store only when that filter is inactive;
    an order with another status is counted nowhere, but a status that
    names a member of [Object.prototype] adds an entry [NaN] after the
    five counts.  The time zone is arbitrary. *)
Theorem C2_status_summary_sources tz :
  (forall st (h : JS.heap Order) all,
      h !! Orders.allOrders st = Some all ->
      Orders.loading st = false -> all <> [] ->
      (Orders.statusSummary st h).1
      = Some (map (fun s =>
                     {| Orders.cardStatus := s;
                        Orders.cardCount := countWithStatus s all;
                        Orders.cardPercent :=
                          JS.Math_round
                            (JS.mul (JS.div (JS.ofNat (countWithStatus s all))
                                            (JS.ofNat (length all)))
                                    (JS.ofZ 100)) |})
                  statusOptions)
      /\ (let '(st', h') := Orders.applyFilters tz st h in
          (Orders.statusSummary st' h').1 = (Orders.statusSummary st h).1))
  /\ (forall now st (h : JS.heap Order) l,
      h !! Dashboard.orders st = Some l -> l <> [] ->
      Dashboard.statusData
        (Dashboard.processData tz now st (Dashboard.orders st) h).1
      = Some {| Dashboard.statusLabels := statusOptions;
                Dashboard.statusCounts :=
                  map (fun s =>
                         Dashboard.Count
                           (countWithStatus s (dateFiltered tz now st l)))
                      statusOptions
                  ++ replicate
                       (length (strayStatuses (dateFiltered tz now st l)))
                       Dashboard.CountNaN |}).
Proof.
  split.
  - intros st h all Hall Hload Hne. split.
    + rewrite statusSummary_eq, Hall, Hload. cbn [fst negb andb default from_option id].
      destruct all as [|o all]; [done|]. reflexivity.
    + destruct (applyFilters_spec tz st h all Hall) as (r & h' & -> & _ & Hkeep).
      rewrite !statusSummary_eq. cbn [fst Orders.setOrders Orders.loading Orders.allOrders].
      by rewrite Hkeep by eauto.
  - intros now st h l. apply processData_statusData.
Qed.

(** Three orders, one of them delivered: the card shows 1 and 33%. *)
Lemma C2_witness :
  let all := [order_at "a" 1710072000000 "Delivered";
              order_at "b" 1709985600000 "Packing";
              order_at "c" 1709899200000 "Packing"] in
  let st := Orders.mkState 1%positive 1%positive false None None "Packing" "desc" in
  exists cards,
    (Orders.statusSummary st {[ 1%positive := all ]}).1 = Some cards
    /\ cards !! 4%nat = Some {| Orders.cardStatus := "Delivered";
                                Orders.cardCount := 1;
                                Orders.cardPercent := JS.ofZ 33 |}.
Proof.
  cbv zeta. eexists. split.
  - apply (proj1 (C2_status_summary_sources (JS.fixedZone 0))
             (Orders.mkState 1%positive 1%positive false None None "Packing" "desc")
             {[ 1%positive := [order_at "a" 1710072000000 "Delivered";
                               order_at "b" 1709985600000 "Packing";
                               order_at "c" 1709899200000 "Packing"] ]}
             _ (lookup_singleton_eq _ _) eq_refl ltac:(discriminate)).
  - by vm_compute.
Defined.

(** C2, as stated, fails on the dashboard: with the range [week] and a
    store whose only delivered order is forty days old, the published
    count for "Delivered" is 0 while the store holds one. *)
Lemma C2_counterexample :
  let now := 1710072000000 in
  let store := [order_at "a" (now - 1000) "Packing";
                order_at "b" (now - 40 * JS.msPerDay) "Delivered"] in
  let st := Dashboard.mkState 1%positive "week" None None
              Dashboard.initialStats None None in
  countWithStatus "Delivered" store = 1%nat
  /\ Dashboard.statusData
       (Dashboard.processData (JS.fixedZone 0) now st 1%positive
          {[ 1%positive := store ]}).1
     = Some {| Dashboard.statusLabels := statusOptions;
               Dashboard.statusCounts :=
                 [Dashboard.Count 0; Dashboard.Count 1; Dashboard.Count 0;
                  Dashboard.Count 0; Dashboard.Count 0] |}.
Proof. cbv zeta. split; by vm_compute. Qed.

(** ** Statistics and percentages *)

(** [toFixed(2)] rounds to the nearest hundredth, halves upwards: for
    [x = m * 2^e] the numeral [n / 100] has
    [n - 1/2 <= 100 * x < n + 1/2]. *)
Lemma hundredths_nearest m e :
  let n := JS.hundredths m e in
  let p := 2 ^ Z.max e 0 in
  let q := 2 ^ Z.max (- e) 0 in
  2 * n * q - q <= 200 * Z.pos m * p < 2 * n * q + q.
Proof.
  cbv zeta. unfold JS.hundredths. destruct (Z.leb_spec 0 e) as [He|He].
  - rewrite (Z.max_l e 0), (Z.max_r (- e) 0) by lia. simpl (2 ^ 0). lia.
  - rewrite (Z.max_r e 0), (Z.max_l (- e) 0) by lia. simpl (2 ^ 0).
    replace (- e + 1) with (Z.succ (- e)) by lia.
    rewrite Z.pow_succ_r by lia.
    assert (0 < 2 ^ (- e)) as Hpos by (apply Z.pow_pos_nonneg; lia).
    pose proof (Z.div_mod (200 * Z.pos m + 2 ^ (- e)) (2 * 2 ^ (- e))
                  ltac:(lia)) as Hdm.
    pose proof (Z.mod_pos_bound (200 * Z.pos m + 2 ^ (- e)) (2 * 2 ^ (- e))
                  ltac:(lia)) as Hb.
    nia.
Qed.

Lemma prepareChartData_stats tz st r (h : JS.heap Order) :
  Dashboard.stats (Dashboard.prepareChartData tz st r h).1 = Dashboard.stats st.
Proof.
  unfold Dashboard.prepareChartData. store_step.
  by destruct (fold_left _ _ _).
Qed.

(** The statistics the dashboard publishes are those of the
    date-filtered collection. *)
Lemma processData_stats tz now st r (h : JS.heap Order) l :
  h !! r = Some l -> l <> [] ->
  Dashboard.stats (Dashboard.processData tz now st r h).1
  = Dashboard.computeStats (dateFiltered tz now st l).
Proof.
  intros Hr Hne. unfold Dashboard.processData, dateFiltered.
  rewrite bind_eq, read_eq, Hr. cbn [fst snd default from_option id].
  destruct l as [|o l]; [done|].
  rewrite bind_eq, filterOrdersByDateRange_spec.
  destruct (activeRange tz now st) as [[start end_]|]; cbn [fst snd];
    rewrite bind_eq, read_eq; cbn [fst snd];
    rewrite bind_eq, prepareStatusData_spec; cbn [fst Dashboard.setStatusData
      Dashboard.stats];
    rewrite prepareChartData_stats; cbn [Dashboard.setStats Dashboard.stats].
  - by rewrite lookup_insert_eq, Hr.
  - by rewrite Hr.
Qed.

(** [toFixed(2)] of a finite number below [10^21] in magnitude is the
    decimal numeral of the hundredth nearest to it, halves upwards,
    with the sign of the number. *)
Lemma toFixed2_finite sg m e :
  Z.pos m * 2 ^ Z.max e 0 < 10 ^ 21 * 2 ^ Z.max (- e) 0 ->
  JS.toFixed2 (S754_finite sg m e) = JS.FxDec sg (JS.hundredths m e).
Proof.
  intros Hlt. unfold JS.toFixed2. destruct (Z.leb_spec 0 e) as [He|He].
  - rewrite (Z.max_l e 0), (Z.max_r (- e) 0) in Hlt by lia.
    change (2 ^ 0) with 1 in Hlt.
    destruct (Z.leb_spec (10 ^ 21) (Z.pos m * 2 ^ e)); [lia|done].
  - rewrite (Z.max_r e 0), (Z.max_l (- e) 0) in Hlt by lia.
    change (2 ^ 0) with 1 in Hlt.
    destruct (Z.leb_spec (10 ^ 21 * 2 ^ (- e)) (Z.pos m)); [lia|done].
Qed.

(** Statistics in which nothing has been divided by zero: without
    orders the average is the number [0], and so are both
    percentages. *)
Definition zeroSafe (s : Dashboard.Stats) : Prop :=
  Dashboard.totalOrders s = 0%nat ->
  Dashboard.avgOrderValue s = Dashboard.AvgNumber JS.zero
  /\ Dashboard.pendingPercent s = JS.zero
  /\ Dashboard.deliveredPercent s = JS.zero.

Lemma processData_empty tz now st r (h : JS.heap Order) :
  h !! r = Some [] -> Dashboard.processData tz now st r h = (st, h).
Proof.
  intros Hr. unfold Dashboard.processData. by rewrite bind_eq, read_eq, Hr.
Qed.

Lemma avgOrderValue_nonempty l :
  l <> [] ->
  Dashboard.avgOrderValue (Dashboard.computeStats l)
  = Dashboard.AvgString
      (JS.toFixed2 (JS.div (Dashboard.totalIncome (Dashboard.computeStats l))
                           (JS.ofNat (length l)))).
Proof. by destruct l. Qed.

(** C6.  No published figure divides by an empty collection.  The
    statistics of a collection without orders carry the number [0] as
    [avgOrderValue] and as both percentages.  Those of a collection
    with orders carry [(totalIncome / totalOrders).toFixed(2)]: when
    the binary64 quotient is a finite number below [10^21] this is the
    decimal numeral [n / 100], with the sign of the quotient, of the
    hundredth nearest to it, halves upwards; a quotient of zero gives
    ["0.00"].  [processData] publishes the statistics of the
    date-filtered collection of a non-empty store and leaves the
    published ones alone for an empty store, so that from the initial
    statistics on, whenever the published [totalOrders] is [0] the
    published average and percentages are [0].  The order page shows
    its per-status percentages only for a non-empty store, so none of
    them has a zero denominator.  The time zone is arbitrary. *)
Theorem C6_zero_denominator_yields_zero tz :
  (forall l : list Order,
      let s := Dashboard.computeStats l in
      let x := JS.div (Dashboard.totalIncome s) (JS.ofNat (length l)) in
      Dashboard.totalOrders s = length l
      /\ (l = [] ->
          Dashboard.avgOrderValue s = Dashboard.AvgNumber JS.zero
          /\ Dashboard.pendingPercent s = JS.zero
          /\ Dashboard.deliveredPercent s = JS.zero)
      /\ (l <> [] ->
          forall sg m e,
            x = S754_finite sg m e ->
            Z.pos m * 2 ^ Z.max e 0 < 10 ^ 21 * 2 ^ Z.max (- e) 0 ->
            exists n,
              Dashboard.avgOrderValue s = Dashboard.AvgString (JS.FxDec sg n)
              /\ 2 * n * 2 ^ Z.max (- e) 0 - 2 ^ Z.max (- e) 0
                 <= 200 * Z.pos m * 2 ^ Z.max e 0
                 < 2 * n * 2 ^ Z.max (- e) 0 + 2 ^ Z.max (- e) 0)
      /\ (l <> [] ->
          forall sg, x = S754_zero sg ->
            Dashboard.avgOrderValue s = Dashboard.AvgString (JS.FxDec false 0)))
  /\ (forall now st (h : JS.heap Order) l,
      h !! Dashboard.orders st = Some l ->
      let s' := Dashboard.stats
                  (Dashboard.processData tz now st (Dashboard.orders st) h).1 in
      (l = [] -> s' = Dashboard.stats st)
      /\ (l <> [] -> s' = Dashboard.computeStats (dateFiltered tz now st l))
      /\ (zeroSafe (Dashboard.stats st) -> zeroSafe s'))
  /\ zeroSafe Dashboard.initialStats
  /\ (forall st (h : JS.heap Order) cards card,
      (Orders.statusSummary st h).1 = Some cards ->
      card ∈ cards ->
      length (default [] (h !! Orders.allOrders st)) <> 0%nat
      /\ (length (default [] (h !! Orders.allOrders st)) = 0%nat ->
          Orders.cardPercent card = JS.zero)).
Proof.
  assert (forall l, zeroSafe (Dashboard.computeStats l)) as Hsafe.
  { intros [|o l]; [by repeat split|]. by intros Hz. }
  split; [|split; [|split]].
  - intros l. cbv zeta. split; [done|]. split; [by intros ->|]. split.
    + intros Hne sg m e Hx Hlt. exists (JS.hundredths m e).
      split; [|apply hundredths_nearest].
      rewrite avgOrderValue_nonempty, Hx by done. f_equal.
      by apply toFixed2_finite.
    + intros Hne sg Hx. by rewrite avgOrderValue_nonempty, Hx.
  - intros now st h l Hr. cbv zeta. split; [|split].
    + intros ->. by rewrite processData_empty.
    + intros Hne. by apply processData_stats.
    + intros Hst. destruct l as [|o l].
      * by rewrite processData_empty.
      * rewrite (processData_stats _ _ _ _ _ (o :: l)) by done. apply Hsafe.
  - by repeat split.
  - intros st h cards card. rewrite statusSummary_eq. cbn [fst].
    destruct (length _); [by rewrite andb_false_r|]. by split.
Qed.

(** Two orders of 100 each: the average is ["100.00"], read off the
    quotient [100 = 7036874417766400 * 2^-46]. *)
Lemma C6_witness :
  exists n,
    Dashboard.avgOrderValue
      (Dashboard.computeStats [order_at "a" 1710072000000 "Delivered";
                               order_at "b" 1709985600000 "Packing"])
    = Dashboard.AvgString (JS.FxDec false n)
    /\ n = 10000.
Proof.
  destruct (proj1 (proj2 (proj2 (proj1 (C6_zero_denominator_yields_zero (JS.fixedZone 0))
                                   [order_at "a" 1710072000000 "Delivered";
                                    order_at "b" 1709985600000 "Packing"])))
              ltac:(discriminate) false 7036874417766400%positive (-46)
              eq_refl ltac:(by vm_compute))
    as (n & Havg & Hlo & Hhi).
  exists n. split; [exact Havg|].
  change (2 ^ Z.max (- -46) 0) with 70368744177664 in Hlo, Hhi.
  change (2 ^ Z.max (-46) 0) with 1 in Hlo, Hhi. lia.
Defined.

(** ** Chart buckets *)

Section Buckets.
Variable label : Order -> string.

(** The orders of [l] that fall in the bucket labelled [k]. *)
Definition bucket (k : string) (l : list Order) : list Order :=
  List.filter (fun o => String.eqb (label o) k) l.

Definition bucketIncome (b : list Order) : JS.number :=
  fold_left (fun sum o => JS.add sum (amount o)) b JS.zero.

(** The date of the order that opens bucket [k]. *)
Definition bucketOpens (k : string) (l : list Order) : Z :=
  match bucket k l with
  | o :: _ => date o
  | [] => 0
  end.
End Buckets.

Section GroupingLoop.
Variable tz : JS.TimeZone.
Variable fmt : JS.dateFormat.

Definition chartLabel (o : Order) : string :=
  JS.toLocaleDateString tz fmt (date o).

(** The two dictionaries after the loop has run over [l]. *)
Definition ordersByDate (l : list Order) : JS.object nat :=
  tabulate (fun k => length (bucket chartLabel k l)) (firstSeen (map chartLabel l)).

Definition incomeByDate (l : list Order) : JS.object JS.number :=
  tabulate (fun k => bucketIncome (bucket chartLabel k l))
           (firstSeen (map chartLabel l)).

Lemma bucket_snoc k l o :
  bucket chartLabel k (l ++ [o])
  = bucket chartLabel k l ++ (if String.eqb (chartLabel o) k then [o] else []).
Proof. unfold bucket. by rewrite filter_app_List. Qed.

Lemma bucket_nil_iff k l : bucket chartLabel k l = [] <-> k ∉ map chartLabel l.
Proof.
  unfold bucket. induction l as [|o l IH]; cbn [List.filter map].
  - split; [intros _; apply not_elem_of_nil|done].
  - rewrite not_elem_of_cons. destruct (String.eqb_spec (chartLabel o) k).
    + split; [done|]. intros [? _]. congruence.
    + rewrite IH. split; [by split|by intros [_ ?]].
Qed.

Lemma groupStep_snoc l o :
  Dashboard.groupStep tz fmt (ordersByDate l, incomeByDate l) o
  = (ordersByDate (l ++ [o]), incomeByDate (l ++ [o])).
Proof.
  unfold Dashboard.groupStep, ordersByDate, incomeByDate.
  fold (chartLabel o). set (k := chartLabel o).
  rewrite map_app. cbn [map]. fold k. rewrite firstSeen_snoc.
  rewrite get_tabulate.
  destruct (decide (k ∈ firstSeen (map chartLabel l))) as [Hin|Hin].
  - (* the bucket exists *)
    rewrite decide_True by by apply elem_of_firstSeen.
    destruct (length (bucket chartLabel k l)) as [|n] eqn:Hlen.
    { apply nil_length_inv, bucket_nil_iff in Hlen.
      destruct Hlen. by apply elem_of_firstSeen. }
    rewrite !get_tabulate, !decide_True by done. cbn [default from_option id].
    rewrite !set_tabulate_old by (done || apply NoDup_firstSeen). f_equal.
    + apply tabulate_ext. intros k' _. rewrite bucket_snoc. fold k.
      rewrite (String.eqb_sym k'). destruct (String.eqb_spec k k') as [<-|].
      * rewrite length_app. cbn [length]. lia.
      * by rewrite app_nil_r.
    + apply tabulate_ext. intros k' _. rewrite bucket_snoc. fold k.
      rewrite (String.eqb_sym k'). destruct (String.eqb_spec k k') as [<-|].
      * unfold bucketIncome. by rewrite fold_left_app.
      * by rewrite app_nil_r.
  - (* a new bucket is opened *)
    assert (k ∉ map chartLabel l) as Hin' by by rewrite <- elem_of_firstSeen.
    rewrite decide_False by done.
    rewrite !set_tabulate_new by done.
    assert (forall V (f : string -> V) ks v v',
               k ∉ ks ->
               JS.get (tabulate f ks ++ [(k, v)]) k = Some v
               /\ JS.set (tabulate f ks ++ [(k, v)]) k v' = tabulate f ks ++ [(k, v')])
      as Hlast.
    { intros V f ks v v'. induction ks as [|k' ks IH];
        cbn [tabulate map app JS.get JS.set].
      - by rewrite String.eqb_refl.
      - fold (tabulate f ks). rewrite not_elem_of_cons. intros [Hne Hks].
        destruct (String.eqb_spec k' k) as [->|_]; [done|].
        destruct (IH Hks) as [-> ->]. done. }
    destruct (Hlast nat (fun k => length (bucket chartLabel k l))
                (firstSeen (map chartLabel l)) 0%nat 1%nat Hin) as [Hg1 Hs1].
    destruct (Hlast JS.number (fun k => bucketIncome (bucket chartLabel k l))
                (firstSeen (map chartLabel l)) JS.zero
                (JS.add JS.zero (amount o)) Hin) as [Hg2 Hs2].
    rewrite Hg1, Hg2. cbn [default from_option id]. rewrite Hs1, Hs2.
    rewrite !tabulate_snoc, !bucket_snoc. fold k. rewrite String.eqb_refl.
    apply bucket_nil_iff in Hin'. rewrite Hin'. cbn [app length bucketIncome fold_left].
    f_equal; f_equal.
    + apply tabulate_ext. intros k' Hk'. rewrite bucket_snoc. fold k.
      destruct (String.eqb_spec k k') as [<-|]; [done|]. by rewrite app_nil_r.
    + apply tabulate_ext. intros k' Hk'. rewrite bucket_snoc. fold k.
      destruct (String.eqb_spec k k') as [<-|]; [done|]. by rewrite app_nil_r.
Qed.

Lemma groupStep_fold l :
  fold_left (Dashboard.groupStep tz fmt) l ([], [])
  = (ordersByDate l, incomeByDate l).
Proof.
  induction l as [|o l IH] using rev_ind; [done|].
  by rewrite fold_left_app, IH; cbn [fold_left]; rewrite groupStep_snoc.
Qed.
End GroupingLoop.

Lemma insert_HdRel {A} (cmp : A -> A -> Z) x l :
  HdRel (notAfter cmp) x l -> JS.insert cmp x l = x :: l.
Proof.
  destruct 1 as [|y l Hxy]; [done|]. cbn [JS.insert].
  unfold notAfter in Hxy. by destruct (Z.leb_spec (cmp x y) 0); [|lia].
Qed.

(** Sorting a sorted array changes nothing. *)
Lemma sort_sorted {A} (cmp : A -> A -> Z) l :
  Sorted (notAfter cmp) l -> JS.sort cmp l = l.
Proof.
  induction 1 as [|x l _ IH Hhd]; [done|].
  cbn [JS.sort foldr]. fold (JS.sort cmp l). rewrite IH. by apply insert_HdRel.
Qed.

Lemma StronglySorted_map_filter {A B} (R : relation B) (f : A -> B) p (l : list A) :
  StronglySorted R (map f l) -> StronglySorted R (map f (List.filter p l)).
Proof.
  induction l as [|x l IH]; [done|]. cbn [map List.filter].
  intros Hs. apply StronglySorted_inv in Hs as [Hl Hx].
  destruct (p x); [|by apply IH]. cbn [map]. constructor; [by apply IH|].
  rewrite Forall_forall in Hx |- *. intros y Hy. apply Hx.
  apply list_elem_of_fmap in Hy as (z & -> & Hz). apply list_elem_of_fmap_2.
  apply elem_of_List_filter in Hz. tauto.
Qed.

(** In a collection sorted by date, the buckets open in the order of the
    dates of their first orders. *)
Lemma bucketOpens_chronological (label : Order -> string) l :
  StronglySorted (notAfter Dashboard.byDate) l ->
  StronglySorted Z.le
    (map (fun k => bucketOpens label k l) (firstSeen (map label l))).
Proof.
  induction 1 as [|o l Hl IH Ho]; [constructor|].
  cbn [map firstSeen].
  assert (bucketOpens label (label o) (o :: l) = date o) as ->.
  { unfold bucketOpens, bucket. cbn [List.filter]. by rewrite String.eqb_refl. }
  assert (map (fun k => bucketOpens label k (o :: l))
              (List.filter (fun y => negb (String.eqb y (label o)))
                           (firstSeen (map label l)))
          = map (fun k => bucketOpens label k l)
                (List.filter (fun y => negb (String.eqb y (label o)))
                             (firstSeen (map label l)))) as ->.
  { apply map_ext_in. intros k Hk. apply filter_In in Hk as [_ Hk].
    unfold bucketOpens, bucket. cbn [List.filter].
    rewrite String.eqb_sym. by destruct (String.eqb k (label o)). }
  constructor; [by apply StronglySorted_map_filter|].
  apply Forall_forall. intros d Hd.
  apply list_elem_of_fmap in Hd as (k & -> & Hk).
  apply elem_of_List_filter in Hk as [_ Hk].
  rewrite elem_of_firstSeen in Hk.
  unfold bucketOpens.
  destruct (bucket label k l) as [|o' b] eqn:Hb.
  { apply list_elem_of_fmap in Hk as (o' & -> & Ho').
    assert (o' ∈ bucket label (label o') l) as Hin.
    { unfold bucket. rewrite elem_of_List_filter, String.eqb_refl. done. }
    rewrite Hb in Hin. by apply elem_of_nil in Hin. }
  assert (o' ∈ l) as Ho'.
  { assert (o' ∈ bucket label k l) as Hin by (rewrite Hb; left).
    unfold bucket in Hin. by apply elem_of_List_filter in Hin as [_ ?]. }
  rewrite Forall_forall in Ho. apply Ho in Ho'.
  unfold notAfter, Dashboard.byDate in Ho'. lia.
Qed.

Lemma prepareChartData_chartData tz st r (h : JS.heap Order) :
  let sorted := JS.sort Dashboard.byDate (default [] (h !! r)) in
  let fmt := Dashboard.chartDateFormat st in
  Dashboard.chartData (Dashboard.prepareChartData tz st r h).1
  = Some {| Dashboard.labels := JS.keys (ordersByDate tz fmt sorted);
            Dashboard.orderCounts := JS.values (ordersByDate tz fmt sorted);
            Dashboard.incomeCounts := JS.values (incomeByDate tz fmt sorted) |}.
Proof.
  cbv zeta. unfold Dashboard.prepareChartData. store_step.
  rewrite lookup_insert_eq. cbn [default from_option id].
  by rewrite groupStep_fold.
Qed.

Lemma chartLabels_not_index tz fmt l :
  Forall (fun k => JS.isArrayIndex k = false)
         (firstSeen (map (chartLabel tz fmt) l)).
Proof.
  apply Forall_forall. intros k Hk.
  rewrite elem_of_firstSeen in Hk. apply list_elem_of_fmap in Hk as (o & -> & _).
  apply label_not_index.
Qed.

(** C7.  The chart preparation sorts the collection it is given by date
    (a collection already in date order stays as it is) and emits one
    label per bucket in the order in which the buckets are first seen,
    which is the order of the dates of their first orders.  The count
    series and the income series have one entry per label, at the
    label's position: the number of orders in the bucket and the sum of
    their amounts. *)
Theorem C7_chart_buckets_first_seen_and_aligned
    tz st r (h : JS.heap Order) l :
  h !! r = Some l ->
  let sorted := JS.sort Dashboard.byDate l in
  let label := chartLabel tz (Dashboard.chartDateFormat st) in
  (Sorted (notAfter Dashboard.byDate) l -> sorted = l)
  /\ exists c,
      Dashboard.chartData (Dashboard.prepareChartData tz st r h).1 = Some c
      /\ Dashboard.labels c = firstSeen (map label sorted)
      /\ Dashboard.orderCounts c
         = map (fun k => length (bucket label k sorted)) (Dashboard.labels c)
      /\ Dashboard.incomeCounts c
         = map (fun k => bucketIncome (bucket label k sorted)) (Dashboard.labels c)
      /\ length (Dashboard.orderCounts c) = length (Dashboard.labels c)
      /\ length (Dashboard.incomeCounts c) = length (Dashboard.labels c)
      /\ Sorted Z.le (map (fun k => bucketOpens label k sorted) (Dashboard.labels c)).
Proof.
  intros Hr sorted label. split; [apply sort_sorted|].
  eexists. split; [apply prepareChartData_chartData|].
  rewrite Hr. cbn [default from_option id]. fold sorted.
  cbn [Dashboard.labels Dashboard.orderCounts Dashboard.incomeCounts].
  unfold ordersByDate, incomeByDate. fold label.
  rewrite keys_tabulate, !values_tabulate by apply chartLabels_not_index.
  repeat split; try apply length_map.
  apply StronglySorted_Sorted, bucketOpens_chronological.
  apply Sorted_StronglySorted; [|apply Sorted_sort, _].
  apply notAfter_trans, _.
Qed.

(** Range [year]: an order of February 2024 stored before one of January
    2024.  The labels come out as "Jan 2024", "Feb 2024": by date, where
    the order of the letters would put "Feb 2024" first. *)
Lemma C7_witness :
  let all := [order_at "a" 1707566400000 "Packing";
              order_at "b" 1704888000000 "Packing";
              order_at "c" 1707652800000 "Delivered"] in
  let st := Dashboard.mkState 1%positive "year" None None
              Dashboard.initialStats None None in
  exists c,
    Dashboard.chartData
      (Dashboard.prepareChartData (JS.fixedZone 0) st 1%positive
         {[ 1%positive := all ]}).1 = Some c
    /\ Dashboard.labels c = ["Jan 2024"; "Feb 2024"]%string
    /\ Dashboard.orderCounts c = [1; 2]%nat
    /\ Dashboard.incomeCounts c = [JS.ofZ 100; JS.ofZ 200].
Proof.
  cbv zeta.
  destruct (C7_chart_buckets_first_seen_and_aligned (JS.fixedZone 0)
              (Dashboard.mkState 1%positive "year" None None
                 Dashboard.initialStats None None)
              1%positive
              {[ 1%positive := [order_at "a" 1707566400000 "Packing";
                                order_at "b" 1704888000000 "Packing";
                                order_at "c" 1707652800000 "Delivered"] ]}
              _ (lookup_singleton_eq _ _))
    as (_ & c & Hc & Hlabels & Hcounts & Hincome & _).
  exists c. split; [exact Hc|]. rewrite Hcounts, Hincome, Hlabels.
  repeat split; by vm_compute.
Defined.

(** ** Worked figures *)

(** Two orders, 100 delivered and 50 in packing: income 150, average
    "75.00", one pending, one delivered. *)
Example stats_of_two_orders :
  let s := Dashboard.computeStats
             [mkOrder "1" 1704067200000 (JS.ofZ 100) "Delivered";
              mkOrder "2" 1704240000000 (JS.ofZ 50) "Packing"] in
  Dashboard.totalOrders s = 2%nat
  /\ Dashboard.totalIncome s = JS.ofZ 150
  /\ Dashboard.avgOrderValue s = Dashboard.AvgString (JS.FxDec false 7500)
  /\ JS.fixed2_to_string (JS.FxDec false 7500) = Some "75.00"%string
  /\ Dashboard.pendingOrders s = 1%nat
  /\ Dashboard.deliveredOrders s = 1%nat
  /\ Dashboard.pendingPercent s = JS.ofZ 50.
Proof. cbv zeta. repeat split; by vm_compute. Qed.

(** An order whose status is "constructor" is counted under no label,
    and leaves a sixth entry [NaN] in the data of the status chart. *)
Example status_naming_an_inherited_member :
  let st := Dashboard.mkState 1%positive "custom" None None
              Dashboard.initialStats None None in
  let h : JS.heap Order :=
    {[ 1%positive := [mkOrder "1" 1704067200000 (JS.ofZ 100) "Packing";
                      mkOrder "2" 1704240000000 (JS.ofZ 50) "constructor"] ]} in
  Dashboard.statusData (Dashboard.prepareStatusData st 1%positive h).1
  = Some {| Dashboard.statusLabels := statusOptions;
            Dashboard.statusCounts :=
              [Dashboard.Count 0; Dashboard.Count 1; Dashboard.Count 0;
               Dashboard.Count 0; Dashboard.Count 0; Dashboard.CountNaN] |}.
Proof. by vm_compute. Qed.

(** The percentage is rounded from the binary64 product: 29 of 200 gives
    14.499999999999998 and shows as 14, one of 8 gives 12.5 and shows
    as 13. *)
Example percent_in_binary64 :
  JS.Math_round (JS.mul (JS.div (JS.ofZ 29) (JS.ofZ 200)) (JS.ofZ 100)) = JS.ofZ 14
  /\ JS.Math_round (JS.mul (JS.div (JS.ofZ 1) (JS.ofZ 8)) (JS.ofZ 100)) = JS.ofZ 13.
Proof. split; by vm_compute. Qed.

(** Noon of Sunday 2024-03-10 under the three label formats. *)
Example labels_of_a_date :
  JS.toLocaleDateString (JS.fixedZone 0) JS.FmtWeekday 1710072000000 = "Sun"%string
  /\ JS.toLocaleDateString (JS.fixedZone 0) JS.FmtMonthDay 1710072000000 = "Mar 10"%string
  /\ JS.toLocaleDateString (JS.fixedZone 0) JS.FmtMonthYear 1710072000000 = "Mar 2024"%string.
Proof. repeat split; by vm_compute. Qed.

(* ===================================================================== *)
(** * Part IV: further properties of the pages *)
(* ===================================================================== *)

(** ** More on the sort *)

Section SortMore.
Context {A : Type} (cmp : A -> A -> Z) `{!Consistent cmp}.

Lemma filter_filter_comm (p q : A -> bool) l :
  List.filter p (List.filter q l) = List.filter q (List.filter p l).
Proof.
  induction l as [|x l IH]; [done|]. cbn [List.filter].
  destruct (p x) eqn:Hp, (q x) eqn:Hq; cbn [List.filter];
    rewrite ?Hp, ?Hq, IH; done.
Qed.

Lemma Sorted_List_filter (p : A -> bool) l :
  Sorted (notAfter cmp) l -> Sorted (notAfter cmp) (List.filter p l).
Proof.
  intros Hs. apply Sorted_StronglySorted in Hs; [|apply notAfter_trans, _].
  apply StronglySorted_Sorted.
  induction Hs as [|x l _ IH Hx]; cbn [List.filter]; [constructor|].
  destruct (p x); [|done]. constructor; [done|].
  rewrite Forall_forall in Hx |- *. intros y Hy. apply Hx.
  apply elem_of_List_filter in Hy. tauto.
Qed.

(** Filtering commutes with the sort. *)
Lemma sort_filter_commute (p : A -> bool) l :
  List.filter p (JS.sort cmp l) = JS.sort cmp (List.filter p l).
Proof.
  apply sort_characterised; [done| |].
  - apply Sorted_List_filter, Sorted_sort, _.
  - intros r. rewrite filter_filter_comm, sort_stable by done.
    apply filter_filter_comm.
Qed.

(** Sorting again by a comparison with the same ties forgets the first
    sort. *)
Lemma sort_resort (cmp' : A -> A -> Z) `{!Consistent cmp'} l :
  (forall a b, cmp' a b = 0 <-> cmp a b = 0) ->
  JS.sort cmp (JS.sort cmp' l) = JS.sort cmp l.
Proof.
  intros Hties. symmetry. apply sort_characterised; [done| |].
  - apply Sorted_sort, _.
  - intros r. rewrite sort_stable by done.
    assert (forall x, ties cmp r x = ties cmp' r x) as Heq.
    { intros x. unfold ties. specialize (Hties r x).
      destruct (Z.eqb_spec (cmp r x) 0), (Z.eqb_spec (cmp' r x) 0); tauto. }
    rewrite !(List.filter_ext _ _ Heq). symmetry. by apply sort_stable.
Qed.
End SortMore.

Lemma length_filter_negb {A} (p : A -> bool) (l : list A) :
  (length (List.filter (fun x => negb (p x)) l) + length (List.filter p l)
   = length l)%nat.
Proof.
  induction l as [|x l IH]; [done|]. cbn [List.filter].
  destruct (p x); cbn [negb length]; lia.
Qed.

(** Counting by key: the counts under the distinct keys [ks] add up to
    the number of entries whose key is among [ks]. *)
Section Counting.
Context {A : Type} (key : A -> string).

Definition countKey (k : string) (l : list A) : nat :=
  length (List.filter (fun x => String.eqb (key x) k) l).

Lemma sum_indicator ks x :
  NoDup ks ->
  sum_list (map (fun k => if String.eqb x k then 1%nat else 0%nat) ks)
  = if bool_decide (x ∈ ks) then 1%nat else 0%nat.
Proof.
  induction 1 as [|k ks Hk _ IH]; [done|]. simpl. simpl in IH. rewrite IH.
  destruct (bool_decide_reflect (x ∈ ks)) as [Hin|Hin],
           (bool_decide_reflect (x ∈ k :: ks)) as [Hin'|Hin'],
           (String.eqb_spec x k) as [->|Hne]; try done.
  all: exfalso;
    first [ apply Hin'; by right
          | apply Hin'; by left
          | apply elem_of_cons in Hin' as [?|?]; done ].
Qed.

Lemma sum_list_map_add {B} (f g : B -> nat) (ks : list B) :
  sum_list (map (fun k => (f k + g k)%nat) ks)
  = (sum_list (map f ks) + sum_list (map g ks))%nat.
Proof. induction ks as [|k ks IH]; [done|]. simpl in *. lia. Qed.

Lemma sum_countKey ks l :
  NoDup ks ->
  sum_list (map (fun k => countKey k l) ks)
  = length (List.filter (fun x => bool_decide (key x ∈ ks)) l).
Proof.
  intros Hnd. induction l as [|x l IH].
  - induction ks as [|k ks IHk]; [done|]. apply NoDup_cons in Hnd as [_ Hnd].
    simpl. by apply IHk.
  - assert (forall k, countKey k (x :: l)
                      = ((if String.eqb (key x) k then 1 else 0) + countKey k l)%nat)
      as Hstep.
    { intros k. unfold countKey. cbn [List.filter].
      by destruct (String.eqb (key x) k). }
    rewrite (map_ext _ _ Hstep), sum_list_map_add, IH, sum_indicator by done.
    cbn [List.filter]. by destruct (bool_decide (key x ∈ ks)).
Qed.
End Counting.

Lemma List_filter_all {A} (p : A -> bool) (l : list A) :
  (forall x, x ∈ l -> p x = true) -> List.filter p l = l.
Proof.
  induction l as [|x l IH]; intros Hp; [done|]. cbn [List.filter].
  rewrite Hp by left. f_equal. apply IH. intros y Hy. apply Hp. by right.
Qed.

Lemma keeps_trans {A} (h1 h2 h3 : JS.heap A) :
  keeps h1 h2 -> keeps h2 h3 -> keeps h1 h3.
Proof.
  intros H12 H23 r Hr. rewrite H23; [by apply H12|]. by rewrite H12.
Qed.

(** ** The order page: the published view *)

Lemma elem_of_statusAxis st l o :
  o ∈ statusAxis st l
  <-> o ∈ l /\ (Orders.statusFilter st = ""%string
                \/ status o = Orders.statusFilter st).
Proof.
  unfold statusAxis.
  destruct (Orders.statusFilter st) as [|c f] eqn:Hf; cbn [JS.truthy_string].
  - intuition.
  - rewrite elem_of_List_filter, String.eqb_eq. intuition congruence.
Qed.

Lemma elem_of_dateAxis tz st l o :
  o ∈ dateAxis tz st l
  <-> o ∈ l
      /\ forall s e, Orders.startDate st = Some s -> Orders.endDate st = Some e ->
           JS.setHours tz (JS.parseDateInput s) 0 0 0 0 <= date o
           <= JS.setHours tz (JS.parseDateInput e) 23 59 59 999.
Proof.
  unfold dateAxis.
  destruct (Orders.startDate st) as [s|], (Orders.endDate st) as [e|];
    try (split; [by intros ?; split|by intros [? _]]).
  rewrite elem_of_List_filter. unfold Orders.inRange.
  rewrite andb_true_iff, !Z.leb_le. split.
  - intros [Hr Hin]. split; [done|]. by intros ? ? [= <-] [= <-].
  - intros [Hin Hr]. split; [by apply Hr|done].
Qed.

Lemma Sorted_weaken {A} (R R' : relation A) l :
  (forall a b, R a b -> R' a b) -> Sorted R l -> Sorted R' l.
Proof.
  intros HR. induction 1 as [|x l _ IH Hhd]; constructor; [done|].
  destruct Hhd; constructor. by apply HR.
Qed.

(** The array [applyFilters] publishes did not exist before the call. *)
Lemma applyFilters_fresh tz st (h : JS.heap Order) :
  h !! Orders.orders (Orders.applyFilters tz st h).1 = None.
Proof.
  unfold Orders.applyFilters.
  destruct (Orders.startDate st) as [s|], (Orders.endDate st) as [e|],
           (JS.truthy_string (Orders.statusFilter st));
    store_step; cbn [Orders.setOrders Orders.orders];
    apply keeps_fresh_None; keeps_solve.
Qed.

(** X1.  The view [applyFilters] publishes is a fresh array: it did not
    exist before the call, and the call leaves the store and every
    other array that existed as it was.  The view holds exactly the
    orders of the store that pass the active axes, each as often as the
    store holds it, ordered by date: oldest first for the direction
    ["asc"], newest first for any other.  The time zone is arbitrary. *)
Theorem X1_applyFilters_view tz st (h : JS.heap Order) all :
  h !! Orders.allOrders st = Some all ->
  exists r h' view,
    Orders.applyFilters tz st h = (Orders.setOrders st r, h')
    /\ h !! r = None
    /\ keeps h h'
    /\ h' !! Orders.allOrders st = Some all
    /\ h' !! r = Some view
    /\ view ≡ₚ statusAxis st (dateAxis tz st all)
    /\ (forall o, o ∈ view
          <-> o ∈ all
              /\ (forall s e, Orders.startDate st = Some s ->
                    Orders.endDate st = Some e ->
                    JS.setHours tz (JS.parseDateInput s) 0 0 0 0 <= date o
                    <= JS.setHours tz (JS.parseDateInput e) 23 59 59 999)
              /\ (Orders.statusFilter st = ""%string
                  \/ status o = Orders.statusFilter st))
    /\ (Orders.sortOrder st = "asc"%string ->
        Sorted (fun a b => date a <= date b) view)
    /\ (Orders.sortOrder st <> "asc"%string ->
        Sorted (fun a b => date b <= date a) view).
Proof.
  intros Hall.
  destruct (applyFilters_spec tz st h all Hall) as (r & h' & Hrun & Hview & Hkeep).
  exists r, h', (JS.sort (Orders.byDate (Orders.sortOrder st))
                         (statusAxis st (dateAxis tz st all))).
  split; [done|]. split.
  { pose proof (applyFilters_fresh tz st h) as Hfresh. by rewrite Hrun in Hfresh. }
  split; [done|]. split; [rewrite Hkeep; eauto|].
  split; [done|]. split; [apply sort_Permutation|].
  split; [|split].
  - intros o. rewrite elem_of_sort, elem_of_statusAxis, elem_of_dateAxis. tauto.
  - intros Hasc.
    pose proof (Sorted_sort (Orders.byDate (Orders.sortOrder st))
                  (statusAxis st (dateAxis tz st all))) as Hs.
    eapply Sorted_weaken; [|exact Hs]. intros a b. unfold notAfter, Orders.byDate.
    rewrite Hasc. cbn. lia.
  - intros Hdesc.
    pose proof (Sorted_sort (Orders.byDate (Orders.sortOrder st))
                  (statusAxis st (dateAxis tz st all))) as Hs.
    eapply Sorted_weaken; [|exact Hs]. intros a b. unfold notAfter, Orders.byDate.
    destruct (String.eqb_spec (Orders.sortOrder st) "asc"); [done|lia].
Qed.

Definition march_orders : list Order :=
  [order_at "a" 1709985600000 "Packing";
   order_at "b" 1710072000000 "Delivered";
   order_at "c" 1710158400000 "Packing"].

Definition march_store : JS.heap Order := {[ 1%positive := march_orders ]}.

Definition packing_newest_first : Orders.State :=
  Orders.mkState 1%positive 1%positive false None None "Packing" "desc".

(** Three orders of March 2024, filtered on "Packing", newest first. *)
Lemma X1_witness :
  exists r h' view,
    Orders.applyFilters (JS.fixedZone 0) packing_newest_first march_store
    = (Orders.setOrders packing_newest_first r, h')
    /\ march_store !! r = None
    /\ h' !! 1%positive = Some march_orders
    /\ h' !! r = Some view
    /\ view ≡ₚ [order_at "a" 1709985600000 "Packing";
                order_at "c" 1710158400000 "Packing"].
Proof.
  destruct (X1_applyFilters_view (JS.fixedZone 0) packing_newest_first
              march_store march_orders (lookup_singleton_eq _ _))
    as (r & h' & view & Hrun & Hfresh & _ & Hstore & Hview & Hperm & _).
  exists r, h', view. split; [exact Hrun|]. split; [exact Hfresh|].
  split; [exact Hstore|]. split; [exact Hview|exact Hperm].
Defined.

(** The view after [applyFilters], as a value. *)
Definition publishedView (tz : JS.TimeZone) (st : Orders.State) (h : JS.heap Order)
  : list Order :=
  let '(st', h') := Orders.applyFilters tz st h in
  default [] (h' !! Orders.orders st').

Definition currentView (st : Orders.State) (h : JS.heap Order) : list Order :=
  default [] (h !! Orders.orders st).

Lemma publishedView_eq tz st (h : JS.heap Order) all :
  h !! Orders.allOrders st = Some all ->
  publishedView tz st h
  = JS.sort (Orders.byDate (Orders.sortOrder st))
            (statusAxis st (dateAxis tz st all)).
Proof.
  intros Hall. unfold publishedView.
  destruct (applyFilters_spec tz st h all Hall) as (r & h' & -> & Hview & _).
  cbn [Orders.setOrders Orders.orders]. by rewrite Hview.
Qed.

Lemma applyFilters_state tz st (h : JS.heap Order) :
  exists r, (Orders.applyFilters tz st h).1 = Orders.setOrders st r.
Proof.
  unfold Orders.applyFilters.
  destruct (Orders.startDate st) as [s|], (Orders.endDate st) as [e|],
           (JS.truthy_string (Orders.statusFilter st));
    store_step; by eexists.
Qed.

Lemma resetFilters_keeps_store st (h : JS.heap Order) :
  keeps h (Orders.resetFilters st h).2.
Proof. unfold Orders.resetFilters. store_step. keeps_solve. Qed.

(** ** The order page: what the handlers leave alone *)

(** The events of the page after a fetch: the Apply button, the sort
    toggle with the effect it triggers, Reset, a quick date filter, a
    status card, and edits of the three filter inputs. *)
Inductive OrdersEvent : Type :=
  | EvApply
  | EvToggle
  | EvReset
  | EvQuick (now : Z) (filter : string)
  | EvCard (status_ : string)
  | EvStartDate (d : JS.dateInput)
  | EvEndDate (d : JS.dateInput)
  | EvStatus (status_ : string).

Definition handleEvent (tz : JS.TimeZone) (ev : OrdersEvent) (st : Orders.State)
  : JS.M Order Orders.State :=
  match ev with
  | EvApply => Orders.applyFilters tz st
  | EvToggle => st' ← Orders.toggleSortOrder st; Orders.sortOrderEffect tz st'
  | EvReset => Orders.resetFilters st
  | EvQuick now filter => Orders.handleQuickDateFilter tz now st filter
  | EvCard status_ => Orders.clickStatusCard tz st status_
  | EvStartDate d =>
      mret (Orders.setCriteria st d (Orders.endDate st) (Orders.statusFilter st))
  | EvEndDate d =>
      mret (Orders.setCriteria st (Orders.startDate st) d (Orders.statusFilter st))
  | EvStatus status_ =>
      mret (Orders.setCriteria st (Orders.startDate st) (Orders.endDate st) status_)
  end.

Fixpoint handleEvents (tz : JS.TimeZone) (evs : list OrdersEvent) (st : Orders.State)
  : JS.M Order Orders.State :=
  match evs with
  | [] => mret st
  | ev :: evs' => st' ← handleEvent tz ev st; handleEvents tz evs' st'
  end.

Lemma handleEvent_frame tz ev st (h : JS.heap Order) :
  Orders.allOrders (handleEvent tz ev st h).1 = Orders.allOrders st
  /\ keeps h (handleEvent tz ev st h).2.
Proof.
  destruct ev as [| | |now filter|status_|d|d|status_]; cbn [handleEvent].
  - destruct (applyFilters_state tz st h) as [r ->]. split; [done|].
    apply Orders_applyFilters_keeps_store.
  - rewrite bind_eq. unfold Orders.sortOrderEffect. rewrite bind_eq, read_eq.
    cbn [fst snd].
    assert (Orders.allOrders (Orders.toggleSortOrder st h).1 = Orders.allOrders st)
      as Hall by (unfold Orders.toggleSortOrder; by store_step).
    pose proof (Orders_toggleSortOrder_keeps_store st h) as Hk.
    destruct (default [] _) as [|o l].
    + by rewrite ret_eq.
    + destruct (applyFilters_state tz (Orders.toggleSortOrder st h).1
                  (Orders.toggleSortOrder st h).2) as [r Hr].
      rewrite Hr. split; [done|].
      eapply keeps_trans; [exact Hk|apply Orders_applyFilters_keeps_store].
  - split; [unfold Orders.resetFilters; by store_step|].
    apply resetFilters_keeps_store.
  - unfold Orders.handleQuickDateFilter.
    destruct (Orders.quickDateRange tz now filter) as [[s e]|];
      [|by split; [|apply keeps_refl]].
    rewrite bind_eq, ret_eq. cbn [fst snd].
    destruct (applyFilters_state tz st h) as [r ->]. split; [done|].
    apply Orders_applyFilters_keeps_store.
  - unfold Orders.clickStatusCard. rewrite bind_eq, ret_eq. cbn [fst snd].
    destruct (applyFilters_state tz st h) as [r ->]. split; [done|].
    apply Orders_applyFilters_keeps_store.
  - split; [done|apply keeps_refl].
  - split; [done|apply keeps_refl].
  - split; [done|apply keeps_refl].
Qed.

(** X2.  Whatever the operator does on the order page between two
    fetches, the Record Store stays the array it was, and that array,
    like every other array that existed, keeps its contents. *)
Theorem X2_orders_page_never_writes_store tz evs st (h : JS.heap Order) :
  Orders.allOrders (handleEvents tz evs st h).1 = Orders.allOrders st
  /\ keeps h (handleEvents tz evs st h).2.
Proof.
  revert st h. induction evs as [|ev evs IH]; intros st h.
  - split; [done|apply keeps_refl].
  - cbn [handleEvents]. rewrite bind_eq.
    destruct (handleEvent_frame tz ev st h) as [Hall Hk].
    destruct (IH (handleEvent tz ev st h).1 (handleEvent tz ev st h).2)
      as [Hall' Hk'].
    split; [congruence|by eapply keeps_trans].
Qed.

(** X3.  Applying the filters a second time publishes the same view:
    the recomputation starts from the store, which the first
    application left as it was. *)
Theorem X3_applyFilters_idempotent tz st (h : JS.heap Order) :
  is_Some (h !! Orders.allOrders st) ->
  let '(st1, h1) := Orders.applyFilters tz st h in
  publishedView tz st1 h1 = currentView st1 h1.
Proof.
  intros [all Hall].
  destruct (applyFilters_spec tz st h all Hall) as (r & h' & -> & Hview & Hk).
  unfold currentView. cbn [Orders.setOrders Orders.orders]. rewrite Hview.
  rewrite (publishedView_eq tz _ h' all); [done|].
  cbn [Orders.allOrders]. rewrite Hk; eauto.
Qed.

Lemma X3_witness :
  let '(st1, h1) := Orders.applyFilters (JS.fixedZone 0) packing_newest_first march_store in
  publishedView (JS.fixedZone 0) st1 h1 = currentView st1 h1.
Proof.
  apply (X3_applyFilters_idempotent (JS.fixedZone 0) packing_newest_first march_store).
  exists march_orders. apply lookup_singleton_eq.
Defined.

(** X4.  The two axes of the filter act independently: the view under a
    date range and a status is the view under the date range alone cut
    down to that status, and it is the view under the status alone cut
    down to the date range. *)
Theorem X4_filter_axes_independent tz st (h : JS.heap Order) s e f :
  is_Some (h !! Orders.allOrders st) ->
  f <> ""%string ->
  let start := JS.setHours tz (JS.parseDateInput s) 0 0 0 0 in
  let end_ := JS.setHours tz (JS.parseDateInput e) 23 59 59 999 in
  publishedView tz (Orders.setCriteria st (Some s) (Some e) f) h
  = List.filter (fun o => String.eqb (status o) f)
      (publishedView tz (Orders.setCriteria st (Some s) (Some e) "") h)
  /\ publishedView tz (Orders.setCriteria st (Some s) (Some e) f) h
     = List.filter (Orders.inRange start end_)
         (publishedView tz (Orders.setCriteria st None None f) h).
Proof.
  intros [all Hall] Hf start end_.
  rewrite !(publishedView_eq _ _ _ all) by done.
  unfold statusAxis, dateAxis.
  cbn [Orders.setCriteria Orders.startDate Orders.endDate Orders.statusFilter
       Orders.sortOrder JS.truthy_string].
  destruct f as [|c f]; [done|]. cbn [JS.truthy_string]. fold start end_.
  rewrite !sort_filter_commute by apply _. split; [done|].
  by rewrite filter_filter_comm.
Qed.

Lemma X4_witness :
  publishedView (JS.fixedZone 0) (Orders.setCriteria packing_newest_first (Some 19792) (Some 19793)
                     "Packing") march_store
  = List.filter (fun o => String.eqb (status o) "Packing")
      (publishedView (JS.fixedZone 0) (Orders.setCriteria packing_newest_first (Some 19792)
                          (Some 19793) "") march_store).
Proof.
  apply (X4_filter_axes_independent (JS.fixedZone 0) packing_newest_first march_store
           19792 19793 "Packing").
  - exists march_orders. apply lookup_singleton_eq.
  - discriminate.
Defined.

(** X5.  Toggling the direction re-sorts the view at once, and the
    result is the view the filters publish in the new direction: the
    effect that follows the toggle changes nothing the operator sees,
    also when several orders share a date. *)
Theorem X5_toggle_agrees_with_filters tz st (h : JS.heap Order) :
  is_Some (h !! Orders.allOrders st) ->
  let '(st1, h1) := Orders.applyFilters tz st h in
  let '(st2, h2) := Orders.toggleSortOrder st1 h1 in
  Orders.sortOrder st2
  = (if String.eqb (Orders.sortOrder st) "desc" then "asc" else "desc")%string
  /\ currentView st2 h2 = publishedView tz st2 h2.
Proof.
  intros [all Hall].
  destruct (applyFilters_spec tz st h all Hall) as (r & h1 & -> & Hview & Hk).
  unfold Orders.toggleSortOrder. store_step.
  cbn [Orders.setOrders Orders.setSortOrder Orders.orders Orders.sortOrder].
  split; [done|]. unfold currentView. cbn [Orders.orders].
  rewrite lookup_insert_eq, lookup_insert_eq, Hview. cbn [default from_option id].
  erewrite publishedView_eq.
  2:{ cbn [Orders.allOrders Orders.setOrders Orders.setSortOrder].
      assert (is_Some (h1 !! Orders.allOrders st)) as Hs by (rewrite Hk; eauto).
      rewrite lookup_insert_ne.
      - rewrite lookup_insert_fresh by done. rewrite Hk; eauto.
      - intros Heq. rewrite <- Heq, fresh_lookup in Hs. by destruct Hs. }
  cbn [Orders.sortOrder Orders.startDate Orders.endDate Orders.statusFilter].
  unfold statusAxis, dateAxis.
  cbn [Orders.sortOrder Orders.startDate Orders.endDate Orders.statusFilter].
  apply sort_resort; [apply _..|].
  intros a b. unfold Orders.byDate. repeat destruct (String.eqb _ _); lia.
Qed.

Lemma X5_witness :
  let '(st1, h1) := Orders.applyFilters (JS.fixedZone 0) packing_newest_first march_store in
  let '(st2, h2) := Orders.toggleSortOrder st1 h1 in
  Orders.sortOrder st2 = "asc"%string
  /\ currentView st2 h2 = publishedView (JS.fixedZone 0) st2 h2.
Proof.
  apply (X5_toggle_agrees_with_filters (JS.fixedZone 0) packing_newest_first march_store).
  exists march_orders. apply lookup_singleton_eq.
Defined.

(** X6.  Reset clears the three criteria and publishes every order of
    the store exactly once, in the current direction: the very view the
    filters publish for the cleared criteria. *)
Theorem X6_resetFilters_shows_whole_store tz st (h : JS.heap Order) all :
  h !! Orders.allOrders st = Some all ->
  let '(st', h') := Orders.resetFilters st h in
  (Orders.startDate st' = None /\ Orders.endDate st' = None
   /\ Orders.statusFilter st' = ""%string)
  /\ currentView st' h' ≡ₚ all
  /\ currentView st' h' = publishedView tz st' h'.
Proof.
  intros Hall. unfold Orders.resetFilters. store_step.
  cbn [Orders.setOrders Orders.setCriteria Orders.startDate Orders.endDate
       Orders.statusFilter].
  split; [done|]. unfold currentView. cbn [Orders.orders].
  rewrite !lookup_insert_eq, Hall. cbn [default from_option id].
  split; [apply sort_Permutation|].
  erewrite publishedView_eq.
  2:{ cbn [Orders.allOrders Orders.setOrders Orders.setCriteria].
      assert (is_Some (h !! Orders.allOrders st)) as Hs by eauto.
      rewrite lookup_insert_ne.
      - rewrite lookup_insert_fresh by done. exact Hall.
      - intros Heq. rewrite <- Heq, fresh_lookup in Hs. by destruct Hs. }
  done.
Qed.

Lemma X6_witness :
  let '(st', h') := Orders.resetFilters packing_newest_first march_store in
  currentView st' h' ≡ₚ march_orders.
Proof.
  pose proof (X6_resetFilters_shows_whole_store (JS.fixedZone 0) packing_newest_first march_store
                march_orders (lookup_singleton_eq _ _)) as H.
  destruct (Orders.resetFilters packing_newest_first march_store) as [st' h'].
  exact (proj1 (proj2 H)).
Defined.

(** ** The order page: quick date filters *)

Lemma DateFromTime_same_day t t' :
  JS.Day t = JS.Day t' -> JS.DateFromTime t = JS.DateFromTime t'.
Proof.
  unfold JS.DateFromTime, JS.MonthFromTime, JS.InLeapYear, JS.DayWithinYear,
    JS.YearFromTime. by intros ->.
Qed.

Lemma getDate_setHours (tza : Z) t h m s ms :
  0 <= JS.MakeTime h m s ms < JS.msPerDay ->
  JS.getDate (JS.fixedZone tza) (JS.setHours (JS.fixedZone tza) t h m s ms)
  = JS.getDate (JS.fixedZone tza) t.
Proof.
  intros Hx. unfold JS.getDate. apply DateFromTime_same_day.
  by apply setHours_local_day.
Qed.

(** How many days before today a preset starts and ends. *)
Definition presetDays (tza now : Z) (filter : string) : option (Z * Z) :=
  if String.eqb filter "today" then Some (0, 0)
  else if String.eqb filter "yesterday" then Some (1, 1)
  else if String.eqb filter "last7" then Some (6, 0)
  else if String.eqb filter "last30" then Some (29, 0)
  else if String.eqb filter "thisMonth" then Some (JS.getDate (JS.fixedZone tza) now - 1, 0)
  else None.

(** The instants a preset resolves to: local midnight of its first day
    and the last millisecond of its last day. *)
Lemma quickDateRange_eq (tza : Z) now filter :
  Orders.quickDateRange (JS.fixedZone tza) now filter
  = match presetDays tza now filter with
    | Some (k, j) =>
        Some (JS.Day (now + tza) * JS.msPerDay - tza - k * JS.msPerDay,
              JS.Day (now + tza) * JS.msPerDay + (JS.msPerDay - 1) - tza
              - j * JS.msPerDay)
    | None => None
    end.
Proof.
  unfold Orders.quickDateRange, presetDays.
  set (today := JS.setHours (JS.fixedZone tza) now 0 0 0 0).
  set (endOfDay := JS.setHours (JS.fixedZone tza) today 23 59 59 999).
  assert (today = JS.Day (now + tza) * JS.msPerDay - tza) as Htoday.
  { unfold today. rewrite setHours_eq. unfold JS.MakeTime. lia. }
  assert (endOfDay = JS.Day (now + tza) * JS.msPerDay + (JS.msPerDay - 1) - tza)
    as Hend.
  { unfold endOfDay. rewrite setHours_eq.
    destruct (setHours_local_day tza now 0 0 0 0) as [Hd _]; [done|].
    fold today in Hd. rewrite !LocalTime_fixed in Hd. rewrite Hd.
    unfold JS.MakeTime, JS.msPerDay. lia. }
  assert (JS.getDate (JS.fixedZone tza) endOfDay = JS.getDate (JS.fixedZone tza) today) as Hge
    by (by apply getDate_setHours).
  assert (JS.getDate (JS.fixedZone tza) today = JS.getDate (JS.fixedZone tza) now) as Hgt
    by (by apply getDate_setHours).
  assert (forall k, JS.setDate (JS.fixedZone tza) today (JS.getDate (JS.fixedZone tza) today - k)
                    = today - k * JS.msPerDay) as Hs.
  { intros k. replace (JS.getDate (JS.fixedZone tza) today - k)
      with (JS.getDate (JS.fixedZone tza) today + - k) by lia.
    rewrite setDate_shift. lia. }
  assert (JS.setDate (JS.fixedZone tza) endOfDay (JS.getDate (JS.fixedZone tza) today - 1)
          = endOfDay - 1 * JS.msPerDay) as He.
  { rewrite <- Hge. replace (JS.getDate (JS.fixedZone tza) endOfDay - 1)
      with (JS.getDate (JS.fixedZone tza) endOfDay + - 1) by lia.
    rewrite setDate_shift. lia. }
  assert (JS.setDate (JS.fixedZone tza) today 1
          = today - (JS.getDate (JS.fixedZone tza) now - 1) * JS.msPerDay) as Hm.
  { replace 1
      with (JS.getDate (JS.fixedZone tza) today
            + (1 - JS.getDate (JS.fixedZone tza) today)) at 1 by lia.
    rewrite setDate_shift, Hgt. lia. }
  repeat (destruct (String.eqb filter _); [rewrite ?Hs, ?He, ?Hm, ?Htoday, ?Hend;
                                           f_equal; f_equal; lia|]).
  done.
Qed.

(** X7.  In a zone of fixed offset [tza] from UTC, without
    daylight-saving transitions, a quick date filter writes into the
    two date inputs the UTC dates of the local midnight that opens its
    first day and of the last millisecond of its last day.  At offset
    zero these are the days meant (today; yesterday; today and the 6,
    or 29, days before; the first of the month to today).  At a
    positive offset the start date comes out one day early; at a
    negative one the end date comes out one day late.  An unknown key
    changes nothing. *)
Theorem X7_quick_filter_dates tz (tza : Z) now st (h : JS.heap Order) filter :
  tz = JS.fixedZone tza ->
  let today := JS.Day (now + tza) in
  let '(st', h') := Orders.handleQuickDateFilter tz now st filter h in
  match presetDays tza now filter with
  | None => st' = st /\ h' = h
  | Some (k, j) =>
      (tza = 0 ->
       Orders.startDate st' = Some (today - k)
       /\ Orders.endDate st' = Some (today - j))
      /\ (0 < tza < JS.msPerDay ->
          Orders.startDate st' = Some (today - k - 1)
          /\ Orders.endDate st' = Some (today - j))
      /\ (- JS.msPerDay < tza < 0 ->
          Orders.startDate st' = Some (today - k)
          /\ Orders.endDate st' = Some (today - j + 1))
  end.
Proof.
  intros ->. cbv zeta. unfold Orders.handleQuickDateFilter. rewrite quickDateRange_eq.
  destruct (presetDays tza now filter) as [[k j]|]; [|done].
  rewrite bind_eq, ret_eq.
  cbn [Orders.setCriteria Orders.startDate Orders.endDate].
  unfold JS.toISOStringDate, JS.Day, JS.msPerDay.
  split; [|split]; intros Hzone; split; f_equal; Z.div_mod_to_equations; lia.
Qed.

(** Noon of 2024-03-10 in a zone fixed at UTC: "last7" runs from
    2024-03-04 (day 19786) to 2024-03-10 (day 19792). *)
Lemma X7_witness :
  let '(st', _) := Orders.handleQuickDateFilter (JS.fixedZone 0) 1710072000000
                     packing_newest_first "last7" march_store in
  Orders.startDate st' = Some 19786 /\ Orders.endDate st' = Some 19792.
Proof.
  pose proof (X7_quick_filter_dates (JS.fixedZone 0) 0 1710072000000
                packing_newest_first march_store "last7" eq_refl) as H.
  cbv zeta in H.
  destruct (Orders.handleQuickDateFilter _ _ _ _ _) as [st' h'].
  exact (proj1 H eq_refl).
Defined.

(** A zone that keeps summer time during one summer: the offset is
    [dst] between the UTC instants [from] and [to], and [std]
    otherwise.  A local time skipped when the clocks go forward is read
    with the offset before the transition, and a local time repeated
    when they go back as its earlier instant. *)
Definition summerTimeZone (std dst from to : Z) : JS.TimeZone :=
  {| JS.offsetAt := fun t => if (from <=? t) && (t <? to) then dst else std;
     JS.offsetOfLocal :=
       fun lt => if (from + dst <=? lt) && (lt <? to + dst) then dst else std |}.

(** London in 2024: summer time from 2024-03-31T01:00Z to
    2024-10-27T01:00Z. *)
Definition london2024 : JS.TimeZone :=
  summerTimeZone 0 3600000 1711846800000 1729990800000.

(** New York in 2024: summer time from 2024-03-10T07:00Z to
    2024-11-03T06:00Z. *)
Definition newYork2024 : JS.TimeZone :=
  summerTimeZone (-18000000) (-14400000) 1710054000000 1730613600000.

(** Across a change of the clocks the closed form of X7 does not hold:
    in London at noon of 2024-10-30, three days after the clocks went
    back, the offset is zero, and "last7" starts on 2024-10-23 (day
    20019), not on 2024-10-24: local midnight of the 24th was still in
    summer time. *)
Example quick_last7_across_clock_change :
  let '(st', _) := Orders.handleQuickDateFilter london2024 1730289600000
                     packing_newest_first "last7" march_store in
  JS.offsetAt london2024 1730289600000 = 0
  /\ Orders.startDate st' = Some 20019 /\ Orders.endDate st' = Some 20026.
Proof. by vm_compute. Qed.

(** X8.  A status card, like a quick date filter, publishes the view of
    the criteria in force before the click, whichever card or preset
    was chosen: its [applyFilters] belongs to the render that preceded
    the state update.  The card's status is then in the filter input,
    and the next Apply publishes the view for it. *)
Theorem X8_card_click_publishes_previous_view
    tz st (h : JS.heap Order) status_ :
  is_Some (h !! Orders.allOrders st) ->
  let '(st1, h1) := Orders.clickStatusCard tz st status_ h in
  Orders.statusFilter st1 = status_
  /\ currentView st1 h1 = publishedView tz st h
  /\ publishedView tz st1 h1
     = publishedView tz
         (Orders.setCriteria st (Orders.startDate st) (Orders.endDate st) status_) h
  /\ forall now filter,
      is_Some (Orders.quickDateRange tz now filter) ->
      let '(st2, h2) := Orders.handleQuickDateFilter tz now st filter h in
      currentView st2 h2 = publishedView tz st h.
Proof.
  intros [all Hall].
  destruct (applyFilters_spec tz st h all Hall) as (r & h' & Hrun & Hview & Hk).
  pose proof (publishedView_eq tz st h all Hall) as Hpv.
  unfold Orders.clickStatusCard. rewrite bind_eq, ret_eq, Hrun. cbn [fst snd].
  cbn [Orders.setCriteria Orders.setOrders Orders.statusFilter].
  split; [done|]. unfold currentView.
  cbn [Orders.orders Orders.setCriteria Orders.setOrders].
  rewrite Hview, Hpv. split; [done|]. split.
  - rewrite !(publishedView_eq _ _ _ all); [done|done|].
    cbn [Orders.allOrders]. rewrite Hk; eauto.
  - intros now filter [[s e] Hq]. unfold Orders.handleQuickDateFilter.
    rewrite Hq, bind_eq, ret_eq, Hrun. cbn [fst snd].
    cbn [Orders.setCriteria Orders.setOrders Orders.orders]. by rewrite Hview.
Qed.

(** With "Packing" in force, the "Delivered" card still shows the two
    orders in packing. *)
Lemma X8_witness :
  let '(st1, h1) := Orders.clickStatusCard (JS.fixedZone 0) packing_newest_first "Delivered"
                      march_store in
  Orders.statusFilter st1 = "Delivered"%string
  /\ currentView st1 h1 = [order_at "c" 1710158400000 "Packing";
                           order_at "a" 1709985600000 "Packing"].
Proof.
  pose proof (X8_card_click_publishes_previous_view (JS.fixedZone 0) packing_newest_first
                march_store "Delivered"
                (ex_intro _ march_orders (lookup_singleton_eq _ _))) as H.
  destruct (Orders.clickStatusCard (JS.fixedZone 0) packing_newest_first "Delivered" march_store)
    as [st1 h1].
  destruct H as (Hf & Hv & _). split; [exact Hf|].
  rewrite Hv.
  apply (publishedView_eq (JS.fixedZone 0) packing_newest_first march_store
           march_orders).
  apply lookup_singleton_eq.
Defined.

(** X9.  The counts on the status cards add up to the number of orders
    of the store whose status is one of the five enumerated ones: an
    order with any other status is counted on no card, and when every
    order has an enumerated status the cards add up to the size of the
    store. *)
Theorem X9_status_cards_partition st (h : JS.heap Order) all cards :
  h !! Orders.allOrders st = Some all ->
  (Orders.statusSummary st h).1 = Some cards ->
  sum_list (map Orders.cardCount cards)
  = length (List.filter (fun o => bool_decide (status o ∈ statusOptions)) all)
  /\ (sum_list (map Orders.cardCount cards) <= length all)%nat
  /\ (Forall (fun o => status o ∈ statusOptions) all ->
      sum_list (map Orders.cardCount cards) = length all).
Proof.
  intros Hall. rewrite statusSummary_eq, Hall. cbn [fst default from_option id].
  destruct (_ && _)%bool; [|done]. intros [= <-].
  assert (sum_list (map Orders.cardCount (map (Orders.statusCard all) statusOptions))
          = length (List.filter (fun o => bool_decide (status o ∈ statusOptions)) all))
    as Hsum.
  { rewrite List.map_map.
    apply (sum_countKey status statusOptions all), NoDup_statusOptions. }
  unfold statusOptions at 1 in Hsum. cbn [map] in Hsum. cbn [map].
  rewrite Hsum. split; [done|]. split.
  - apply List.filter_length_le.
  - intros Hen. f_equal. apply List_filter_all. intros o Ho.
    apply bool_decide_eq_true. rewrite Forall_forall in Hen. by apply Hen.
Qed.

Lemma X9_witness :
  exists cards,
    (Orders.statusSummary packing_newest_first march_store).1 = Some cards
    /\ sum_list (map Orders.cardCount cards) = 3%nat.
Proof.
  eexists. split; [reflexivity|].
  refine (proj2 (proj2 (X9_status_cards_partition packing_newest_first march_store
                          march_orders _ (lookup_singleton_eq _ _) eq_refl)) _).
  unfold march_orders. repeat constructor; by apply (bool_decide_unpack _).
Defined.

(** ** The dashboard: what it publishes *)

(** The chart made from a collection that is already sorted. *)
Definition chartOf (tz : JS.TimeZone) (st : Dashboard.State) (sorted : list Order)
  : Dashboard.ChartData :=
  let label := chartLabel tz (Dashboard.chartDateFormat st) in
  {| Dashboard.labels := firstSeen (map label sorted);
     Dashboard.orderCounts :=
       map (fun k => length (bucket label k sorted)) (firstSeen (map label sorted));
     Dashboard.incomeCounts :=
       map (fun k => bucketIncome (bucket label k sorted))
           (firstSeen (map label sorted)) |}.

Lemma prepareChartData_chartOf tz st r (h : JS.heap Order) :
  Dashboard.chartData (Dashboard.prepareChartData tz st r h).1
  = Some (chartOf tz st (JS.sort Dashboard.byDate (default [] (h !! r)))).
Proof.
  rewrite prepareChartData_chartData. unfold chartOf, ordersByDate, incomeByDate.
  by rewrite keys_tabulate, !values_tabulate by apply chartLabels_not_index.
Qed.

Lemma prepareChartData_fields tz st r (h : JS.heap Order) :
  let st' := (Dashboard.prepareChartData tz st r h).1 in
  Dashboard.orders st' = Dashboard.orders st
  /\ Dashboard.dateRange st' = Dashboard.dateRange st
  /\ Dashboard.startDate st' = Dashboard.startDate st
  /\ Dashboard.endDate st' = Dashboard.endDate st.
Proof.
  cbv zeta. unfold Dashboard.prepareChartData. store_step.
  by destruct (fold_left _ _ _).
Qed.


Lemma processData_fields tz now st r (h : JS.heap Order) :
  let st' := (Dashboard.processData tz now st r h).1 in
  Dashboard.orders st' = Dashboard.orders st
  /\ Dashboard.dateRange st' = Dashboard.dateRange st
  /\ Dashboard.startDate st' = Dashboard.startDate st
  /\ Dashboard.endDate st' = Dashboard.endDate st.
Proof.
  cbv zeta. unfold Dashboard.processData. rewrite bind_eq, read_eq. cbn [fst snd].
  destruct (default [] (h !! r)) as [|o l]; [done|].
  rewrite bind_eq.
  destruct (Dashboard.filterOrdersByDateRange tz now st r h) as [r' h1].
  cbn [fst snd]. rewrite bind_eq, read_eq. cbn [fst snd]. rewrite bind_eq.
  rewrite prepareStatusData_spec. cbn [fst Dashboard.setStatusData Dashboard.orders
    Dashboard.dateRange Dashboard.startDate Dashboard.endDate].
  apply (prepareChartData_fields tz
           (Dashboard.setStats st (Dashboard.computeStats (default [] (h1 !! r'))))).
Qed.

(** With an active range the dashboard works on an array of its own. *)
Lemma processData_keeps_active tz now st r (h : JS.heap Order) :
  is_Some (activeRange tz now st) ->
  keeps h (Dashboard.processData tz now st r h).2.
Proof.
  intros [[start end_] Hact].
  destruct (h !! r) as [l|] eqn:Hr.
  - destruct l as [|o l].
    + unfold Dashboard.processData. rewrite bind_eq, read_eq, Hr. apply keeps_refl.
    + rewrite (processData_store _ _ _ _ _ (o :: l)), Hact by done. keeps_solve.
  - unfold Dashboard.processData. rewrite bind_eq, read_eq, Hr. apply keeps_refl.
Qed.

(** Statistics whose pending and delivered counts make up the total. *)
Definition statsBalanced (s : Dashboard.Stats) : Prop :=
  (Dashboard.pendingOrders s + Dashboard.deliveredOrders s
   = Dashboard.totalOrders s)%nat.

(** X10.  The published statistics always balance: pending orders plus
    delivered orders make up the total.  [processData] establishes this
    whenever it computes statistics and otherwise leaves them alone. *)
Theorem X10_pending_plus_delivered_is_total
    tz now st r (h : JS.heap Order) :
  statsBalanced (Dashboard.stats st) ->
  statsBalanced (Dashboard.stats (Dashboard.processData tz now st r h).1).
Proof.
  intros Hst. destruct (h !! r) as [[|o l]|] eqn:Hr.
  - unfold Dashboard.processData. by rewrite bind_eq, read_eq, Hr.
  - rewrite (processData_stats _ _ _ _ _ (o :: l)) by done.
    unfold statsBalanced, Dashboard.computeStats.
    cbn [Dashboard.pendingOrders Dashboard.deliveredOrders Dashboard.totalOrders].
    apply length_filter_negb.
  - unfold Dashboard.processData. by rewrite bind_eq, read_eq, Hr.
Qed.

Definition march_dashboard (range : string) : Dashboard.State :=
  Dashboard.mkState 1%positive range None None Dashboard.initialStats None None.

Lemma X10_witness :
  statsBalanced
    (Dashboard.stats
       (Dashboard.processData (JS.fixedZone 0) 1710244800000 (march_dashboard "week") 1%positive
          march_store).1).
Proof.
  apply (X10_pending_plus_delivered_is_total (JS.fixedZone 0) 1710244800000
           (march_dashboard "week") 1%positive march_store).
  reflexivity.
Defined.





Definition weekdayNames : list string :=
  ["Sun"; "Mon"; "Tue"; "Wed"; "Thu"; "Fri"; "Sat"]%string.

Lemma weekdayShort_name w : JS.weekdayShort w ∈ weekdayNames.
Proof.
  unfold JS.weekdayShort, weekdayNames.
  destruct w as [|p|p]; [| |];
    try (do 3 (try destruct p as [p|p|])); by apply (bool_decide_unpack _).
Qed.

(** X12.  In the range [week] the chart has at most seven buckets, one
    per weekday name, whatever collection it is given: orders that are
    a week apart fall into one bucket. *)
Theorem X12_week_chart_has_at_most_seven_buckets
    tz st r (h : JS.heap Order) :
  Dashboard.dateRange st = "week"%string ->
  exists c,
    Dashboard.chartData (Dashboard.prepareChartData tz st r h).1 = Some c
    /\ (length (Dashboard.labels c) <= 7)%nat
    /\ length (Dashboard.orderCounts c) = length (Dashboard.labels c)
    /\ Forall (fun k => k ∈ weekdayNames) (Dashboard.labels c).
Proof.
  intros Hweek. eexists. split; [apply prepareChartData_chartOf|].
  cbn [chartOf Dashboard.labels Dashboard.orderCounts].
  unfold Dashboard.chartDateFormat. rewrite Hweek. cbn [String.eqb Ascii.eqb Bool.eqb].
  set (ls := map _ _).
  assert (forall k, k ∈ firstSeen ls -> k ∈ weekdayNames) as Hsub.
  { intros k Hk. rewrite elem_of_firstSeen in Hk. unfold ls in Hk.
    apply list_elem_of_fmap in Hk as (o & -> & _). apply weekdayShort_name. }
  split; [|split].
  - change 7%nat with (length weekdayNames).
    apply submseteq_length, NoDup_submseteq; [apply NoDup_firstSeen|done].
  - apply length_map.
  - by apply Forall_forall.
Qed.

(** Orders on two Sundays, a week apart, share the bucket "Sun". *)
Lemma X12_witness :
  exists c,
    Dashboard.chartData
      (Dashboard.prepareChartData (JS.fixedZone 0) (march_dashboard "week") 1%positive
         {[ 1%positive := [order_at "a" 1710072000000 "Packing";
                           order_at "b" 1709467200000 "Packing"] ]}).1 = Some c
    /\ (length (Dashboard.labels c) <= 7)%nat.
Proof.
  destruct (X12_week_chart_has_at_most_seven_buckets (JS.fixedZone 0) (march_dashboard "week")
              1%positive
              {[ 1%positive := [order_at "a" 1710072000000 "Packing";
                                order_at "b" 1709467200000 "Packing"] ]}
              eq_refl) as (c & Hc & Hlen & _).
  exists c. split; [exact Hc|exact Hlen].
Defined.

(** ** The dashboard: the range controls *)

Definition knownRange (range : string) : Prop :=
  range ∈ ["week"; "month"; "year"; "custom"]%string.

(** The events of the dashboard between two fetches: a range button, an
    edit of a date input, and the Apply button of the custom range. *)
Inductive DashboardEvent : Type :=
  | DvRange (now now' : Z) (range : string)
  | DvStartDate (d : JS.dateInput)
  | DvEndDate (d : JS.dateInput)
  | DvApplyCustom (now : Z).

Definition eventUsesKnownRange (ev : DashboardEvent) : Prop :=
  match ev with
  | DvRange _ _ range => knownRange range
  | _ => True
  end.

Definition handleDashboardEvent (tz : JS.TimeZone) (ev : DashboardEvent)
    (st : Dashboard.State) : JS.M Order Dashboard.State :=
  match ev with
  | DvRange now now' range => Dashboard.clickDateRange tz now now' st range
  | DvStartDate d => mret (Dashboard.setStartDate st d)
  | DvEndDate d => mret (Dashboard.setEndDate st d)
  | DvApplyCustom now => Dashboard.applyCustomDateFilter tz now st
  end.

Fixpoint handleDashboardEvents (tz : JS.TimeZone) (evs : list DashboardEvent)
    (st : Dashboard.State) : JS.M Order Dashboard.State :=
  match evs with
  | [] => mret st
  | ev :: evs' =>
      st' ← handleDashboardEvent tz ev st; handleDashboardEvents tz evs' st'
  end.

Lemma knownRange_cases range :
  knownRange range ->
  range = "week"%string \/ range = "month"%string \/ range = "year"%string
  \/ range = "custom"%string.
Proof. unfold knownRange. rewrite !elem_of_cons, elem_of_nil. tauto. Qed.

Lemma activeRange_known tz now st :
  knownRange (Dashboard.dateRange st) ->
  (Dashboard.dateRange st = "custom"%string ->
   is_Some (Dashboard.startDate st) /\ is_Some (Dashboard.endDate st)) ->
  is_Some (activeRange tz now st).
Proof.
  intros Hk Hc. unfold activeRange.
  apply knownRange_cases in Hk as [Hr|[Hr|[Hr|Hr]]]; rewrite Hr in *;
    cbn [String.eqb Ascii.eqb Bool.eqb]; try by eexists.
  destruct (Hc eq_refl) as [[s ->] [e ->]]. by eexists.
Qed.

Lemma handleDateRangeChange_complete tz now st range :
  let st' := Dashboard.handleDateRangeChange tz now st range in
  Dashboard.orders st' = Dashboard.orders st
  /\ Dashboard.dateRange st' = range
  /\ (range = "custom"%string ->
      is_Some (Dashboard.startDate st') /\ is_Some (Dashboard.endDate st')).
Proof.
  cbv zeta. unfold Dashboard.handleDateRangeChange.
  destruct (String.eqb_spec range "custom") as [->|Hne]; cbn [negb].
  - destruct (Dashboard.startDate st) as [s|] eqn:Hs,
             (Dashboard.endDate st) as [e|] eqn:He;
      cbn [Dashboard.setDates Dashboard.orders Dashboard.dateRange
           Dashboard.startDate Dashboard.endDate JS.toISOStringDate];
      rewrite ?Hs, ?He; eauto.
  - by repeat split.
Qed.

Lemma handleDashboardEvent_frame tz ev st (h : JS.heap Order) :
  knownRange (Dashboard.dateRange st) ->
  eventUsesKnownRange ev ->
  let st' := (handleDashboardEvent tz ev st h).1 in
  Dashboard.orders st' = Dashboard.orders st
  /\ knownRange (Dashboard.dateRange st')
  /\ keeps h (handleDashboardEvent tz ev st h).2.
Proof.
  intros Hk Hev. cbv zeta.
  destruct ev as [now now' range|d|d|now]; cbn [handleDashboardEvent].
  - unfold Dashboard.clickDateRange, Dashboard.dateRangeEffect.
    destruct (handleDateRangeChange_complete tz now st range) as (Ho & Hr & Hc).
    set (st1 := Dashboard.handleDateRangeChange tz now st range) in *.
    destruct (String.eqb _ _).
    { rewrite ret_eq. cbn [fst snd]. rewrite Hr. split; [done|].
      split; [done|apply keeps_refl]. }
    rewrite bind_eq, read_eq. cbn [fst snd].
    destruct (default [] _) as [|o l].
    { rewrite ret_eq. cbn [fst snd]. rewrite Hr. split; [done|].
      split; [done|apply keeps_refl]. }
    destruct (processData_fields tz now' st1 (Dashboard.orders st1) h)
      as (Ho' & Hr' & _).
    rewrite Ho', Hr', Ho, Hr. split; [done|]. split; [done|].
    apply processData_keeps_active, activeRange_known; by rewrite ?Hr.
  - by split; [|split; [|apply keeps_refl]].
  - by split; [|split; [|apply keeps_refl]].
  - unfold Dashboard.applyCustomDateFilter.
    destruct (Dashboard.startDate st) as [s|] eqn:Hs,
             (Dashboard.endDate st) as [e|] eqn:He;
      try by split; [|split; [|apply keeps_refl]].
    destruct (processData_fields tz now st (Dashboard.orders st) h)
      as (Ho' & Hr' & _).
    rewrite Ho', Hr'. split; [done|]. split; [done|].
    apply processData_keeps_active, activeRange_known; [done|].
    rewrite Hs, He. eauto.
Qed.

(** X13.  However the operator uses the range buttons, the date inputs
    and the Apply button of the custom range, every [processData] they
    trigger runs with an active range, so that the Record Store stays
    the array it was, with its contents.  (The buttons pass one of the
    four range keys, and the state starts from one.) *)
Theorem X13_range_controls_never_write_store
    tz evs st (h : JS.heap Order) :
  knownRange (Dashboard.dateRange st) ->
  Forall eventUsesKnownRange evs ->
  let st' := (handleDashboardEvents tz evs st h).1 in
  Dashboard.orders st' = Dashboard.orders st
  /\ knownRange (Dashboard.dateRange st')
  /\ keeps h (handleDashboardEvents tz evs st h).2.
Proof.
  intros Hk Hevs. cbv zeta. revert st h Hk.
  induction Hevs as [|ev evs Hev _ IH]; intros st h Hk.
  - by split; [|split; [|apply keeps_refl]].
  - cbn [handleDashboardEvents]. rewrite bind_eq.
    destruct (handleDashboardEvent_frame tz ev st h Hk Hev) as (Ho & Hk1 & Hkeep).
    destruct (IH (handleDashboardEvent tz ev st h).1
                 (handleDashboardEvent tz ev st h).2 Hk1) as (Ho' & Hk2 & Hkeep').
    split; [congruence|]. split; [done|by eapply keeps_trans].
Qed.

(** From "week" to the custom range, clearing the start date and
    pressing Apply: the store still holds the three orders. *)
Lemma X13_witness :
  (handleDashboardEvents (JS.fixedZone 0)
     [DvRange 1710244800000 1710244800001 "custom"; DvStartDate None;
      DvApplyCustom 1710244800002]
     (march_dashboard "week") march_store).2 !! 1%positive
  = Some march_orders.
Proof.
  assert (knownRange "week") as Hweek by (by apply (bool_decide_unpack _)).
  assert (knownRange "custom") as Hcustom by (by apply (bool_decide_unpack _)).
  destruct (X13_range_controls_never_write_store (JS.fixedZone 0)
              [DvRange 1710244800000 1710244800001 "custom"; DvStartDate None;
               DvApplyCustom 1710244800002]
              (march_dashboard "week") march_store Hweek
              ltac:(repeat constructor; exact Hcustom))
    as (_ & _ & Hkeep).
  rewrite Hkeep; [apply lookup_singleton_eq|].
  exists march_orders. apply lookup_singleton_eq.
Defined.

(** X14.  A preset range clears both custom dates.  Switching to the
    custom range keeps a complete pair of dates and otherwise fills in
    the UTC date of today as the end and that of [setDate(getDate() -
    30)] as the start.  In a zone of fixed offset from UTC, without
    daylight-saving transitions, the start is the UTC date of 30 days
    ago; at offset zero the filter then keeps every order of the last
    30 days up to now. *)
Theorem X14_custom_range_defaults tz now st range :
  let st' := Dashboard.handleDateRangeChange tz now st range in
  (range <> "custom"%string ->
   Dashboard.startDate st' = None /\ Dashboard.endDate st' = None)
  /\ (range = "custom"%string ->
      is_Some (Dashboard.startDate st) -> is_Some (Dashboard.endDate st) ->
      Dashboard.startDate st' = Dashboard.startDate st
      /\ Dashboard.endDate st' = Dashboard.endDate st)
  /\ (range = "custom"%string ->
      Dashboard.startDate st = None \/ Dashboard.endDate st = None ->
      Dashboard.endDate st' = Some (JS.Day now)
      /\ forall tza : Z,
          tz = JS.fixedZone tza ->
          Dashboard.startDate st' = Some (JS.Day now - 30)
          /\ (tza = 0 ->
              forall now' o,
                now - 30 * JS.msPerDay <= date o <= now ->
                exists start end_,
                  activeRange tz now' st' = Some (start, end_)
                  /\ Dashboard.inRange start end_ o = true)).
Proof.
  cbv zeta. unfold Dashboard.handleDateRangeChange. split; [|split].
  - intros Hne. destruct (String.eqb_spec range "custom"); [done|]. by cbn.
  - intros -> [s Hs] [e He]. rewrite Hs, He. by cbn.
  - intros -> Hmissing. cbn [String.eqb Ascii.eqb Bool.eqb negb].
    assert (match Dashboard.startDate st, Dashboard.endDate st with
            | Some _, Some _ => False
            | _, _ => True
            end) as Hcase.
    { destruct Hmissing as [-> | ->]; [done|]. by destruct (Dashboard.startDate st). }
    assert (forall tza : Z,
               JS.toISOStringDate
                 (JS.setDate (JS.fixedZone tza) now
                    (JS.getDate (JS.fixedZone tza) now - 30))
               = Some (JS.Day now - 30)) as Hstart.
    { intros tza.
      replace (JS.getDate (JS.fixedZone tza) now - 30)
        with (JS.getDate (JS.fixedZone tza) now + -30) by lia.
      rewrite setDate_shift. unfold JS.toISOStringDate, JS.Day, JS.msPerDay.
      f_equal. Z.div_mod_to_equations. lia. }
    destruct (Dashboard.startDate st), (Dashboard.endDate st); try done;
      cbn [Dashboard.setDates Dashboard.startDate Dashboard.endDate];
      (split; [done|]); intros tza ->; rewrite Hstart; (split; [done|]);
      intros -> now' o Hd; unfold activeRange;
      cbn [Dashboard.dateRange Dashboard.startDate Dashboard.endDate
           String.eqb Ascii.eqb Bool.eqb JS.toISOStringDate];
      eexists _, _; (split; [reflexivity|]);
      unfold Dashboard.inRange; rewrite !setHours_eq;
      unfold JS.parseDateInput, JS.MakeTime, JS.Day, JS.msPerDay in *;
      apply andb_true_iff; rewrite !Z.leb_le;
      split; Z.div_mod_to_equations; lia.
Qed.

(** Noon of 2024-03-10 in a zone fixed at UTC: the custom range starts
    on 2024-02-09 (day 19762) and ends on 2024-03-10 (day 19792). *)
Lemma X14_witness :
  let st' := Dashboard.handleDateRangeChange (JS.fixedZone 0) 1710072000000
               (march_dashboard "week") "custom" in
  Dashboard.startDate st' = Some 19762 /\ Dashboard.endDate st' = Some 19792.
Proof.
  cbv zeta.
  destruct (proj2 (proj2 (X14_custom_range_defaults (JS.fixedZone 0) 1710072000000
                            (march_dashboard "week") "custom"))
              eq_refl (or_introl eq_refl)) as (He & Hfixed).
  destruct (Hfixed 0 eq_refl) as (Hs & _).
  split; [exact Hs|exact He].
Defined.

(** Across a change of the clocks the start is not 30 days back: in New
    York at 2024-03-11T23:30Z, a day after the clocks went forward, the
    start date is 2024-02-11 (day 19764), one day later than
    [Day now - 30]. *)
Example custom_default_across_clock_change :
  let st' := Dashboard.handleDateRangeChange newYork2024 1710199800000
               (march_dashboard "week") "custom" in
  JS.Day 1710199800000 - 30 = 19763
  /\ Dashboard.startDate st' = Some 19764 /\ Dashboard.endDate st' = Some 19793.
Proof. by vm_compute. Qed.

(** ** The review page: search, sort and delete together *)

Lemma append_assoc (a b c : string) :
  ((a ++ b) ++ c)%string = (a ++ b ++ c)%string.
Proof. induction a as [|x a IH]; [done|]. by rewrite !append_cons, IH. Qed.

(** Containment of strings is transitive. *)
Lemma includes_trans s long short :
  JS.includes long short = true -> JS.includes s long = true ->
  JS.includes s short = true.
Proof.
  rewrite !includes_spec. intros (pre & post & ->) (p & q & ->).
  exists (p ++ pre)%string, (post ++ q)%string.
  by rewrite !append_assoc.
Qed.

Lemma nameMatches_narrow `{JS.CaseConversion} name long short :
  JS.includes long short = true ->
  Reviews.nameMatches name long = true -> Reviews.nameMatches name short = true.
Proof.
  intros Hin. destruct name as [n|]; [|done]. cbn [Reviews.nameMatches].
  rewrite !andb_true_iff. intros [? ?]. eauto using includes_trans.
Qed.

(** The ASCII lowering works letter by letter, so that a text extended
    at either end still contains the lowered old text. *)
Lemma toLowerCaseASCII_app (a b : string) :
  JS.toLowerCaseASCII (a ++ b)
  = (JS.toLowerCaseASCII a ++ JS.toLowerCaseASCII b)%string.
Proof.
  induction a as [|x a IH]; [done|].
  rewrite append_cons. cbn [JS.toLowerCaseASCII]. by rewrite append_cons, IH.
Qed.

Lemma toLowerCaseASCII_extension pre s post :
  JS.includes (JS.toLowerCaseASCII (pre ++ s ++ post)) (JS.toLowerCaseASCII s) = true.
Proof. rewrite !toLowerCaseASCII_app. apply includes_spec. eauto. Qed.

(** The verdict of the search callback, where it returns. *)
Definition passes (verdict : JS.result bool) : bool :=
  match verdict with
  | JS.Ok true => true
  | _ => false
  end.

(** The callback throws on [r]: it reaches [review.comment] and finds
    none. *)
Definition throwsOn `{JS.CaseConversion} (search : string) (r : Reviews.Review)
  : Prop :=
  Reviews.comment r = None
  /\ Reviews.nameMatches (Reviews.userName r) (JS.toLowerCase search) = false
  /\ Reviews.nameMatches (Reviews.productName r) (JS.toLowerCase search) = false.

Lemma matchesSearch_TypeError `{JS.CaseConversion} search r :
  Reviews.matchesSearch search r = JS.TypeError <-> throwsOn search r.
Proof.
  unfold Reviews.matchesSearch, throwsOn. cbv zeta.
  destruct (Reviews.nameMatches (Reviews.userName r) _),
           (Reviews.nameMatches (Reviews.productName r) _),
           (Reviews.comment r); intuition congruence.
Qed.

Lemma filterThrowing_Ok {A} (p : A -> JS.result bool) l kept :
  JS.filterThrowing p l = JS.Ok kept ->
  Forall (fun x => p x <> JS.TypeError) l
  /\ kept = List.filter (fun x => passes (p x)) l.
Proof.
  revert kept. induction l as [|x l IH]; intros kept; cbn [JS.filterThrowing].
  - intros [= <-]. by split.
  - destruct (p x) as [b|] eqn:Hx; [|done].
    destruct (JS.filterThrowing p l) as [r|]; [|done].
    intros [= <-]. destruct (IH r eq_refl) as [Hall ->].
    split; [constructor; [congruence|done]|].
    cbn [List.filter]. rewrite Hx. by destruct b.
Qed.

Lemma filterThrowing_total {A} (p : A -> JS.result bool) l :
  Forall (fun x => p x <> JS.TypeError) l ->
  JS.filterThrowing p l = JS.Ok (List.filter (fun x => passes (p x)) l).
Proof.
  induction 1 as [|x l Hx _ IH]; [done|].
  cbn [JS.filterThrowing List.filter]. rewrite IH.
  by destruct (p x) as [[]|].
Qed.

Lemma filterThrowing_TypeError {A} (p : A -> JS.result bool) l :
  JS.filterThrowing p l = JS.TypeError <-> Exists (fun x => p x = JS.TypeError) l.
Proof.
  induction l as [|x l IH]; cbn [JS.filterThrowing].
  - rewrite Exists_nil. intuition congruence.
  - rewrite Exists_cons, <- IH.
    destruct (p x) as [b|]; [|intuition congruence].
    destruct (JS.filterThrowing p l); intuition congruence.
Qed.

Lemma Exists_iff {A} (P Q : A -> Prop) l :
  (forall x, P x <-> Q x) -> Exists P l <-> Exists Q l.
Proof.
  intros HPQ. split; intros Hex; (eapply Exists_impl; [exact Hex|]);
    intros x; apply HPQ.
Qed.

Lemma sublist_List_filter {A} (p : A -> bool) (l : list A) :
  List.filter p l `sublist_of` l.
Proof.
  induction l as [|x l IH]; [done|]. cbn [List.filter].
  destruct (p x); by constructor.
Qed.

Lemma passes_narrow `{JS.CaseConversion} short long r :
  JS.includes (JS.toLowerCase long) (JS.toLowerCase short) = true ->
  Reviews.matchesSearch short r <> JS.TypeError ->
  passes (Reviews.matchesSearch long r) = true ->
  passes (Reviews.matchesSearch short r) = true.
Proof.
  unfold Reviews.matchesSearch. cbv zeta.
  set (sl := JS.toLowerCase short). set (ll := JS.toLowerCase long).
  intros Hin Hok.
  destruct (Reviews.nameMatches (Reviews.userName r) ll) eqn:Hu.
  { by rewrite (nameMatches_narrow _ _ _ Hin Hu). }
  destruct (Reviews.nameMatches (Reviews.userName r) sl); [done|].
  destruct (Reviews.nameMatches (Reviews.productName r) ll) eqn:Hp.
  { by rewrite (nameMatches_narrow _ _ _ Hin Hp). }
  destruct (Reviews.nameMatches (Reviews.productName r) sl); [done|].
  destruct (Reviews.comment r) as [c|]; [|done]. cbn [passes].
  destruct (JS.includes (JS.toLowerCase c) ll) eqn:Hc; [|done].
  by rewrite (includes_trans _ _ _ Hin Hc).
Qed.

(** X15.  The search throws exactly when the list holds a review
    without a comment of which neither name matches; otherwise it
    returns the reviews the callback accepts, in their order.  So one
    and the same list can be searched for one text and not for
    another. *)
Theorem X15_search_throws_exactly_without_comment `{JS.CaseConversion}
    search reviews :
  (Reviews.filteredReviews search reviews = JS.TypeError
   <-> Exists (throwsOn search) reviews)
  /\ (~ Exists (throwsOn search) reviews ->
      Reviews.filteredReviews search reviews
      = JS.Ok (List.filter (fun r => passes (Reviews.matchesSearch search r))
                           reviews)).
Proof.
  unfold Reviews.filteredReviews. split.
  - rewrite filterThrowing_TypeError. apply Exists_iff.
    intros r. apply matchesSearch_TypeError.
  - intros Hnone. apply filterThrowing_total.
    apply Forall_Exists_neg in Hnone.
    eapply Forall_impl; [exact Hnone|].
    intros r Hr. by rewrite matchesSearch_TypeError.
Qed.

(** A review with a user name and no comment: the page renders for the
    empty search, since the name matches. *)
Lemma X15_witness :
  @Reviews.filteredReviews JS.asciiCaseConversion ""
    [review_by "r1" (Some (Reviews.mkUser (Some "Ann"%string) None)) None None]
  = JS.Ok [review_by "r1" (Some (Reviews.mkUser (Some "Ann"%string) None)) None None].
Proof.
  rewrite (proj2 (@X15_search_throws_exactly_without_comment JS.asciiCaseConversion ""
             [review_by "r1" (Some (Reviews.mkUser (Some "Ann"%string) None))
                        None None])).
  - reflexivity.
  - intros Hex. apply Exists_cons in Hex as [(_ & Hu & _)|Hex].
    + discriminate Hu.
    + by apply Exists_nil in Hex.
Defined.

(** X16.  When the lowered new search text contains the lowered old
    one, the new search only narrows the result: the reviews found for
    the new text are those that pass it among the reviews found for the
    old one, in the same order.  (Typing more characters need not give
    such a text: a capital sigma is lowered differently once a letter
    follows it.  It does for texts on which lowering works letter by
    letter, as on ASCII.) *)
Theorem X16_contained_search_narrows `{JS.CaseConversion}
    short long reviews kept kept' :
  JS.includes (JS.toLowerCase long) (JS.toLowerCase short) = true ->
  Reviews.filteredReviews short reviews = JS.Ok kept ->
  Reviews.filteredReviews long reviews = JS.Ok kept' ->
  kept' = List.filter (fun r => passes (Reviews.matchesSearch long r)) kept
  /\ kept' `sublist_of` kept
  /\ kept `sublist_of` reviews.
Proof.
  unfold Reviews.filteredReviews. intros Hin Hshort Hlong.
  apply filterThrowing_Ok in Hshort as [Hall ->].
  apply filterThrowing_Ok in Hlong as [_ ->].
  assert (List.filter (fun r => passes (Reviews.matchesSearch long r)) reviews
          = List.filter (fun r => passes (Reviews.matchesSearch long r))
              (List.filter (fun r => passes (Reviews.matchesSearch short r)) reviews))
    as Heq.
  { clear -Hall Hin. induction Hall as [|r reviews Hr _ IH]; [done|].
    cbn [List.filter].
    destruct (passes (Reviews.matchesSearch long r)) eqn:Hp.
    - rewrite (passes_narrow _ _ _ Hin Hr Hp). cbn [List.filter]. by rewrite Hp, IH.
    - destruct (passes (Reviews.matchesSearch short r)); [|done].
      cbn [List.filter]. by rewrite Hp. }
  split; [done|]. split; [|apply sublist_List_filter].
  rewrite Heq. apply sublist_List_filter.
Qed.

Definition ann_and_bob : list Reviews.Review :=
  [review_by "r1" None None (Some "Great fit"%string);
   review_by "r2" None None (Some "Great colour"%string)].

(** From "great" to "Great f", with the ASCII lowering: the second
    review drops out. *)
Lemma X16_witness :
  [review_by "r1" None None (Some "Great fit"%string)] `sublist_of` ann_and_bob.
Proof.
  exact (proj1 (proj2 (@X16_contained_search_narrows JS.asciiCaseConversion
                         "great" "Great f" ann_and_bob ann_and_bob
                         [review_by "r1" None None (Some "Great fit"%string)]
                         (toLowerCaseASCII_extension "" "great" " f")
                         eq_refl eq_refl))).
Defined.

(** The rows of the table: [sortedReviews], computed from
    [filteredReviews] during the render. *)
Definition tableRows `{JS.CaseConversion} `{Reviews.Collator}
    (searchTerm sortBy sortOrder : string) (reviews : list Reviews.Review) : JS.result (list Reviews.Review) :=
  match Reviews.filteredReviews searchTerm reviews with
  | JS.Ok filtered => JS.Ok (Reviews.sortedReviews sortBy sortOrder filtered)
  | JS.TypeError => JS.TypeError
  end.

(** X17.  Deleting a review from a table that renders takes its row
    (every row with its id) out of the table and leaves the other rows
    where they are, whatever the search text and the sort. *)
Theorem X17_delete_removes_only_its_row `{JS.CaseConversion} `{Reviews.Collator}
    searchTerm sortBy sortOrder reviews reviewId rows :
  tableRows searchTerm sortBy sortOrder reviews = JS.Ok rows ->
  tableRows searchTerm sortBy sortOrder (Reviews.handleDelete_success reviews reviewId)
  = JS.Ok (Reviews.handleDelete_success rows reviewId)
  /\ Reviews.handleDelete_success rows reviewId `sublist_of` rows
  /\ forall r, r ∈ Reviews.handleDelete_success rows reviewId
               <-> r ∈ rows /\ Reviews._id r <> reviewId.
Proof.
  unfold tableRows, Reviews.filteredReviews.
  destruct (JS.filterThrowing _ reviews) as [kept|] eqn:Hrun; [|done].
  intros [= <-]. apply filterThrowing_Ok in Hrun as [Hall ->].
  unfold Reviews.handleDelete_success, Reviews.sortedReviews.
  split; [|split].
  - rewrite filterThrowing_total.
    + f_equal. rewrite sort_filter_commute by apply _. f_equal.
      apply filter_filter_comm.
    + rewrite Forall_forall in Hall |- *. intros r Hr. apply Hall.
      by apply elem_of_List_filter in Hr as [_ ?].
  - apply sublist_List_filter.
  - intros r. rewrite elem_of_List_filter, negb_true_iff.
    destruct (String.eqb_spec (Reviews._id r) reviewId); intuition congruence.
Qed.

(** Two rated reviews, newest rating first; deleting "a" leaves "b". *)
Lemma X17_witness :
  @tableRows JS.asciiCaseConversion codeUnitCollator "" "rating" "desc"
    (Reviews.handleDelete_success [review_rated "b" 2; review_rated "a" 5] "a")
  = JS.Ok [review_rated "b" 2].
Proof.
  exact (proj1 (@X17_delete_removes_only_its_row JS.asciiCaseConversion codeUnitCollator
                  "" "rating" "desc" [review_rated "b" 2; review_rated "a" 5] "a"
                  [review_rated "a" 5; review_rated "b" 2] eq_refl)).
Defined.

(** ** The review page: the column headers *)

Section Reversal.
Context {A : Type} (cmp : A -> A -> Z) `{!Consistent cmp}.

Lemma StronglySorted_rev (R : relation A) l :
  StronglySorted R l -> StronglySorted (flip R) (rev l).
Proof.
  induction 1 as [|x l _ IH Hx]; [constructor|]. cbn [rev].
  apply StronglySorted_app_2; [|done|by repeat constructor].
  intros a b Ha Hb. apply list_elem_of_singleton in Hb as ->.
  rewrite Forall_forall in Hx. apply Hx.
  by rewrite list_elem_of_In, in_rev, <- list_elem_of_In.
Qed.

(** Without ties, sorting by the mirrored comparison is sorting and
    reversing. *)
Lemma sort_mirrored l :
  tieFree cmp l -> JS.sort (fun a b => cmp b a) l = rev (JS.sort cmp l).
Proof.
  intros Hfree.
  pose proof (Consistent_flip cmp _) as Hflip.
  assert (Transitive (notAfter (fun a b => cmp b a))) as Htrans.
  { intros a b c. apply (@cmp_trans _ _ Hflip). }
  apply (Sorted_unique_strong (notAfter (fun a b => cmp b a))).
  - intros x y Hx Hy Hxy Hyx. rewrite elem_of_sort in Hx.
    rewrite list_elem_of_In, <- in_rev, <- list_elem_of_In, elem_of_sort in Hy.
    apply list_elem_of_lookup in Hx as [i Hi], Hy as [j Hj].
    destruct (decide (i = j)) as [->|Hne]; [congruence|].
    destruct (Hfree i j x y Hi Hj Hne).
    unfold notAfter in *. pose proof (cmp_antisym (cmp:=cmp) x y). lia.
  - by apply Sorted_sort.
  - apply StronglySorted_Sorted.
    apply (StronglySorted_rev (notAfter cmp)).
    apply Sorted_StronglySorted; [|by apply Sorted_sort].
    intros a b c. apply cmp_trans.
  - by rewrite sort_Permutation, <- Permutation_rev, sort_Permutation.
Qed.
End Reversal.

Lemma sort_ext {A} (cmp cmp' : A -> A -> Z) l :
  (forall a b, cmp a b = cmp' a b) -> JS.sort cmp l = JS.sort cmp' l.
Proof.
  intros Heq. induction l as [|x l IH]; [done|].
  cbn [JS.sort foldr]. fold (JS.sort cmp l) (JS.sort cmp' l). rewrite IH.
  generalize (JS.sort cmp' l). intros s.
  induction s as [|y s IHs]; [done|]. cbn [JS.insert]. by rewrite Heq, IHs.
Qed.

Lemma compareReviews_mirrored `{JS.CaseConversion} `{Reviews.Collator} sortBy sortOrder a b :
  sortOrder <> "asc"%string ->
  Reviews.compareReviews sortBy sortOrder a b
  = Reviews.compareReviews sortBy "asc" b a.
Proof.
  intros Hdesc. unfold Reviews.compareReviews. cbv zeta.
  destruct (String.eqb_spec sortOrder "asc"); [done|].
  cbn [String.eqb Ascii.eqb Bool.eqb]. by repeat destruct (String.eqb sortBy _).
Qed.

(** X18.  A click on the header of the column the table is sorted by
    keeps the column and flips the direction; when no two rows tie
    under the column, the table then shows the same rows in reverse.
    A click on another header sorts by that column, ascending. *)
Theorem X18_header_click_reverses_table `{JS.CaseConversion} `{Reviews.Collator}
    sortBy sortOrder (rows : list Reviews.Review) :
  distinctKeys (Reviews.compareReviews sortBy "asc") rows ->
  (let '(sortBy', sortOrder') := Reviews.handleSort sortBy sortOrder sortBy in
   sortBy' = sortBy
   /\ Reviews.sortedReviews sortBy' sortOrder' rows
      = rev (Reviews.sortedReviews sortBy sortOrder rows))
  /\ forall field, field <> sortBy ->
       Reviews.handleSort sortBy sortOrder field = (field, "asc"%string).
Proof.
  intros Hd. apply distinctKeys_tieFree in Hd; [|apply _].
  split.
  - unfold Reviews.handleSort. rewrite String.eqb_refl.
    split; [done|]. unfold Reviews.sortedReviews.
    destruct (String.eqb_spec sortOrder "asc") as [->|Hdesc].
    + rewrite <- (sort_mirrored _ _ Hd). apply sort_ext.
      intros a b. by apply compareReviews_mirrored.
    + rewrite (sort_ext (Reviews.compareReviews sortBy sortOrder)
                 (fun a b => Reviews.compareReviews sortBy "asc" b a))
        by (intros; by apply compareReviews_mirrored).
      rewrite (sort_mirrored _ _ Hd). by rewrite rev_involutive.
  - intros field Hne. unfold Reviews.handleSort.
    destruct (String.eqb_spec sortBy field); congruence.
Qed.

(** Ratings 5 and 2, shown descending; a click on Rating shows 2, 5. *)
Lemma X18_witness :
  @Reviews.sortedReviews JS.asciiCaseConversion codeUnitCollator "rating" "asc"
    [review_rated "a" 5; review_rated "b" 2]
  = rev (@Reviews.sortedReviews JS.asciiCaseConversion codeUnitCollator "rating" "desc"
           [review_rated "a" 5; review_rated "b" 2]).
Proof.
  refine (proj2 (proj1 (@X18_header_click_reverses_table JS.asciiCaseConversion codeUnitCollator
                          "rating" "desc" [review_rated "a" 5; review_rated "b" 2] _))).
  split; [|by repeat constructor].
  repeat constructor. by vm_compute.
Defined.
